(** * The AMP-SCZ exporter: a shallow embedding and its properties

    The development follows
    [pipeline/runners/study_specific/ampscz/services/exporter.py]:

    - [PyStr]      the string operations of Python the exporter relies on;
    - [PurePath]   the part of [pathlib] it uses, a path being its [parts];
    - [Exporter]   the queries, the path resolver, the transfer engine and
                   the scheduler loop, in a state-and-exception monad over
                   the database ledger, the file system and a trace of the
                   effects performed;
    - the theorems about them. *)

From Stdlib Require Import List String Ascii Bool Arith Lia ZArith.
From Stdlib Require Decimal DecimalString DecimalFacts DecimalNat.
Import ListNotations.
Open Scope string_scope.
Open Scope list_scope.

Set Implicit Arguments.

(* ===================================================================== *)
(** ** Python values: exceptions and results                              *)
(* ===================================================================== *)

(** The exceptions that can leave a call in the exporter.  [OSError] stands
    for the whole family raised by [shutil] and [pathlib]
    ([FileNotFoundError], [FileExistsError], [IsADirectoryError], ...);
    [SystemExit] is what [sys.exit] raises. *)
Inductive exn : Type :=
| ValueError
| IndexError
| KeyError
| OSError
| DatabaseError
| SystemExit (code : Z).

Inductive result (A : Type) : Type :=
| Ok (a : A)
| Raise (e : exn).
Arguments Ok {A} a.
Arguments Raise {A} e.


(** The exit status of the interpreter when an exception reaches the top
    level: the code given to [sys.exit], and 1 for every other exception. *)
Definition exit_status (e : exn) : Z :=
  match e with SystemExit c => c | _ => 1%Z end.

(* ===================================================================== *)
(** ** Strings                                                            *)
(* ===================================================================== *)

Module PyStr.

(** [s.split(sep)] for a one-character separator. *)
Fixpoint split (sep : ascii) (s : string) : list string :=
  match s with
  | EmptyString => [EmptyString]
  | String a s' =>
      if Ascii.eqb a sep then EmptyString :: split sep s'
      else match split sep s' with
           | [] => [String a EmptyString]
           | x :: xs => String a x :: xs
           end
  end.

(** [sep in s]. *)
Fixpoint contains (sep : ascii) (s : string) : bool :=
  match s with
  | EmptyString => false
  | String a s' => Ascii.eqb a sep || contains sep s'
  end.

(** The number of leading occurrences of [c]. *)
Fixpoint leading (c : ascii) (s : string) : nat :=
  match s with
  | String a s' => if Ascii.eqb a c then S (leading c s') else 0
  | EmptyString => 0
  end.

(** [s.rfind(c)], as an option. *)
Fixpoint rfind (c : ascii) (s : string) : option nat :=
  match s with
  | EmptyString => None
  | String a s' =>
      match rfind c s' with
      | Some i => Some (S i)
      | None => if Ascii.eqb a c then Some 0 else None
      end
  end.

(** [s[:n]]. *)
Definition prefix (n : nat) (s : string) : string := String.substring 0 n s.

(** [c.isupper()] on ASCII. *)
Definition isupper (c : ascii) : bool :=
  let n := nat_of_ascii c in ((65 <=? n) && (n <=? 90))%nat.

(** [x in l] and [l.index(x)] on lists of strings. *)
Definition mem (x : string) (l : list string) : bool :=
  existsb (String.eqb x) l.

Fixpoint index (x : string) (l : list string) : result nat :=
  match l with
  | [] => Raise ValueError
  | y :: l' =>
      if String.eqb y x then Ok 0
      else match index x l' with
           | Ok i => Ok (S i)
           | Raise e => Raise e
           end
  end.

End PyStr.

(* ===================================================================== *)
(** ** pathlib                                                            *)
(* ===================================================================== *)

Module PurePath.

(** A [PurePosixPath] is represented by its [parts]: the root (["/"], or
    ["//"] for exactly two leading slashes) first when the path is
    absolute, then the components. *)
Definition Path := list string.

Definition slash : ascii := "/"%char.

(** What [pathlib] keeps of a segment between slashes. *)
Definition kept (c : string) : bool :=
  negb (String.eqb c "") && negb (String.eqb c ".").

(** [Path(s)]. *)
Definition of_str (s : string) : Path :=
  let comps := filter kept (PyStr.split slash s) in
  match PyStr.leading slash s with
  | 0 => comps
  | 2 => "//" :: comps
  | _ => "/" :: comps
  end.

Definition is_root (c : string) : bool :=
  String.eqb c "/" || String.eqb c "//".

Definition is_absolute (p : Path) : bool :=
  match p with
  | r :: _ => is_root r
  | [] => false
  end.

(** [a / b] for two paths: an absolute right operand replaces the left. *)
Definition join (a b : Path) : Path :=
  if is_absolute b then b else a ++ b.

(** [a / s] for a string [s]. *)
Definition join_str (a : Path) (s : string) : Path := join a (of_str s).

(** [Path( *args )]. *)
Definition of_args (args : list string) : Path :=
  fold_left join_str args [].

(** [p.name]: the last component, empty for the root and for [Path('.')]. *)
Definition name (p : Path) : string :=
  match p with
  | [] => ""
  | [r] => if is_root r then "" else r
  | _ => last p ""
  end.

(** [p.parent]. *)
Definition parent (p : Path) : Path :=
  match p with
  | [] => []
  | [r] => if is_root r then [r] else []
  | _ => removelast p
  end.

(** [p.stem]: the name without its last suffix; a leading or a trailing
    dot starts no suffix. *)
Definition stem (p : Path) : string :=
  let n := name p in
  match PyStr.rfind "."%char n with
  | Some i =>
      if ((0 <? i) && (i <? String.length n - 1))%nat then PyStr.prefix i n else n
  | None => n
  end.

(** A component proper: what [parts] can hold after the root. *)
Definition is_component (c : string) : bool :=
  kept c && negb (PyStr.contains slash c).

(** [q] lies at or below [p]. *)
Fixpoint is_prefix (p q : Path) : bool :=
  match p, q with
  | [], _ => true
  | a :: p', b :: q' => String.eqb a b && is_prefix p' q'
  | _ :: _, [] => false
  end.

Definition eqb (p q : Path) : bool :=
  if list_eq_dec String.string_dec p q then true else false.

End PurePath.

Abbreviation Path := PurePath.Path.
Infix "//" := PurePath.join_str (at level 40, left associativity).


(* ===================================================================== *)
(** ** Collaborators that are not part of the exporter                    *)
(* ===================================================================== *)

(** What [dpdash.parse_dpdash_name] returns: the exporter reads the keys
    ["study"], ["subject"] and ["data_type"] of it. *)
Record dpdash_dict : Type := {
  study : string;
  subject : string;
  data_type : string
}.

Module Helpers.

(** Modelled from the spec: [dpdash.parse_dpdash_name] is not among the
    sources.  The spec has it decode an interview identifier that encodes
    study, subject and data type (and possibly more) under a fixed naming
    convention, failing on a name that does not follow it: the fields are
    taken to be separated by dashes. *)
Definition parse_dpdash_name (interview_name : string) : result dpdash_dict :=
  match PyStr.split "-"%char interview_name with
  | st :: su :: dt :: _ =>
      Ok {| study := st; subject := su; data_type := dt |}
  | _ => Raise ValueError
  end.

Fixpoint camel_cut (s : string) : list string :=
  match s with
  | EmptyString => [EmptyString]
  | String a s' =>
      match camel_cut s' with
      | x :: xs =>
          if PyStr.isupper a then EmptyString :: String a x :: xs
          else String a x :: xs
      | [] => [String a EmptyString]
      end
  end.

(** Modelled from the spec: [utils.camel_case_split] is not among the
    sources.  The spec has it split a camel-case identifier into tokens at
    the case boundaries: a token starts at every capital letter. *)
Definition camel_case_split (word : string) : list string :=
  filter (fun t => negb (String.eqb t "")) (camel_cut word).

End Helpers.


(* ===================================================================== *)
(** ** The exporter                                                       *)
(* ===================================================================== *)

(** An exportable asset, as [get_pipeline_exports] builds it: the path, the
    type (["file"] or ["directory"]), the export type (["GENERAL"] or
    ["PROTECTED"]) and the tag. *)
Definition Exportable : Type := (Path * string * string * string)%type.

(** The fields the exporter gives to [ExportedAsset]; one row of the
    [exported_assets] table. *)
Record ExportedAsset : Type := {
  interview_name : string;
  asset_path : Path;
  asset_type : string;
  asset_export_type : string;
  asset_tag : string;
  asset_destination : Path
}.

(** A node of the file system: a regular file with its content, or a
    directory.  The file system maps the paths that exist to their node. *)
Inductive Node : Type :=
| File (content : string)
| Dir.

Definition FS : Type := Path -> option Node.

(** The effects the exporter performs, in the order it performs them. *)
Inductive Event : Type :=
| EvSelect (study_id : string) (found : option string)
| EvMkdir (p : Path)
| EvCopy2 (source destination : Path)
| EvCopytree (source destination : Path)
| EvExecuteQueries (queries : list ExportedAsset)
| EvUnlink (p : Path)
| EvRmtree (p : Path)
| EvLog (counter : nat)
| EvSnooze
| EvRestart (study_id : string)
| EvSwitch (study_id : string).

(** What the exporter reads and never writes: its configuration, the
    pipeline tables, and the choices made outside of it. *)
Record Env : Type := {
  data_root : Path;                        (* orchestrator.get_data_root *)
  studies : list string;                   (* orchestrator.get_studies *)
  debug : bool;                            (* args.debug *)
  parse_dpdash_name : string -> result dpdash_dict;
  camel_case_split : string -> list string;
  pdf_reports : list string;               (* interview_name *)
  load_openface : list (string * string);  (* interview_name, study_id *)
  vs_path : string -> list string;         (* rows of the streams query *)
  video_path : string -> option string;    (* first row of the frames query *)
  of_processed_path : string -> list string; (* rows of the OpenFace query *)
  random : nat -> nat;                     (* the n-th draw of RANDOM() *)
  copy_fails : Path -> bool;               (* the copy of this source fails *)
  delete_fails : Path -> bool;             (* the removal of this path fails *)
  execute_fails : list ExportedAsset -> bool (* the transaction fails *)
}.

(** What the exporter changes: the ledger table, the file system, the number
    of random draws made, and the trace of its effects. *)
Record World : Type := {
  exported_assets : list ExportedAsset;
  fs : FS;
  clock : nat;
  trace : list Event
}.

(** The state of the [while True] loop. *)
Record LoopState : Type := {
  study_id : string;
  COUNTER : nat
}.

(** Computations: a state monad over [World] with exceptions; the world at
    the point of the exception is kept. *)
Definition M (A : Type) : Type := World -> result A * World.

Definition ret {A} (a : A) : M A := fun w => (Ok a, w).

Definition bind {A B} (m : M A) (k : A -> M B) : M B :=
  fun w =>
    match m w with
    | (Ok a, w') => k a w'
    | (Raise e, w') => (Raise e, w')
    end.

Definition raise {A} (e : exn) : M A := fun w => (Raise e, w).

Definition lift {A} (r : result A) : M A := fun w => (r, w).

Declare Scope exporter_scope.
Delimit Scope exporter_scope with M.
Notation "x <- m ;; k" := (bind m (fun x => k))
  (at level 61, m at next level, right associativity) : exporter_scope.
Notation "m ;; k" := (bind m (fun _ => k))
  (at level 61, right associativity) : exporter_scope.
Open Scope exporter_scope.

Definition emit (e : Event) : M unit :=
  fun w =>
    (Ok tt, {| exported_assets := exported_assets w; fs := fs w;
               clock := clock w; trace := trace w ++ [e] |}).

Definition set_fs (f : FS) : M unit :=
  fun w =>
    (Ok tt, {| exported_assets := exported_assets w; fs := f;
               clock := clock w; trace := trace w |}).

Definition get_fs : M FS := fun w => (Ok (fs w), w).

Definition and_then {A B} (r : result A) (k : A -> result B) : result B :=
  match r with
  | Ok a => k a
  | Raise e => Raise e
  end.

Notation "'let?' x := r 'in' k" := (and_then r (fun x => k))
  (at level 10, x name, r at level 100, k at level 200).

(** *** The file system operations of [pathlib] and [shutil] *)

Module Files.

Definition exists_ (f : FS) (p : Path) : bool :=
  match f p with Some _ => true | None => false end.

Definition is_file (f : FS) (p : Path) : bool :=
  match f p with Some (File _) => true | _ => false end.

Definition is_dir (f : FS) (p : Path) : bool :=
  match f p with Some Dir => true | _ => false end.

Definition write (f : FS) (p : Path) (n : option Node) : FS :=
  fun q => if PurePath.eqb q p then n else f q.

(** The path itself and the paths above it. *)
Definition prefixes (p : Path) : list Path :=
  map (fun k => firstn k p) (seq 0 (S (List.length p))).

(** [os.makedirs(p, exist_ok=True)]: the missing directories on the way
    to [p] are created; a regular file on the way is an error. *)
Definition makedirs (f : FS) (p : Path) : result FS :=
  if existsb (is_file f) (prefixes p) then Raise OSError
  else Ok (fun q =>
             if PurePath.is_prefix q p
             then match f q with None => Some Dir | n => n end
             else f q).

(** [shutil.copy2(source, destination)]: a regular file is copied, into
    [destination] when that is a directory, onto it otherwise. *)
Definition copy2 (f : FS) (source destination : Path) : result FS :=
  match f source with
  | Some (File c) =>
      let target :=
        if is_dir f destination
        then destination // PurePath.name source else destination in
      if is_dir f target then Raise OSError
      else if PurePath.eqb source target then Raise OSError
      else if is_dir f (PurePath.parent target)
      then Ok (write f target (Some (File c)))
      else Raise OSError
  | _ => Raise OSError
  end.

(** [shutil.copytree(source, destination)]: the destination must not
    exist; it is created with its parents, and what is missing below it
    (everything, the destination being new) is copied from below
    [source]. *)
Definition copytree (f : FS) (source destination : Path) : result FS :=
  if negb (is_dir f source) then Raise OSError
  else if exists_ f destination then Raise OSError
  else
    let? f1 := makedirs f destination in
    Ok (fun q =>
          match f1 q with
          | Some n => Some n
          | None =>
              if PurePath.is_prefix destination q
              then f (source ++ skipn (List.length destination) q)
              else None
          end).

(** [p.unlink()]. *)
Definition unlink (f : FS) (p : Path) : result FS :=
  if is_file f p then Ok (write f p None) else Raise OSError.

(** [shutil.rmtree(p)]: the directory and everything below it. *)
Definition rmtree (f : FS) (p : Path) : result FS :=
  if is_dir f p
  then Ok (fun q => if PurePath.is_prefix p q then None else f q)
  else Raise OSError.

End Files.

(** *** The SQL of [get_interview_name_to_process] *)

Module Sql.

(** [pdf_reports LEFT JOIN load_openface USING (interview_name)]: every
    report row, once per matching [load_openface] row, and once with a
    NULL [study_id] when there is none. *)
Definition left_join (pdf : list string) (lof : list (string * string))
  : list (string * option string) :=
  flat_map
    (fun n =>
       match filter (fun r => String.eqb (fst r) n) lof with
       | [] => [(n, None)]
       | ms => map (fun r => (n, Some (snd r))) ms
       end) pdf.

(** [study_id = '...']: a NULL is not equal to anything. *)
Definition eq_text (a : option string) (b : string) : bool :=
  match a with
  | Some x => String.eqb x b
  | None => false
  end.

(** [interview_name NOT IN (SELECT interview_name FROM exported_assets)]. *)
Definition not_in_ledger (n : string) (ledger : list ExportedAsset) : bool :=
  negb (PyStr.mem n (map interview_name ledger)).

(** The rows of the query before [ORDER BY RANDOM() LIMIT 1]. *)
Definition ready (pdf : list string) (lof : list (string * string))
           (ledger : list ExportedAsset) (study_id : string) : list string :=
  map fst
    (filter (fun row => eq_text (snd row) study_id
                        && not_in_ledger (fst row) ledger)
            (left_join pdf lof)).

(** [ORDER BY RANDOM() LIMIT 1] read by [db.fetch_record]: one of the
    rows, whichever the draw [r] designates, and [None] without rows. *)
Definition fetch_random (r : nat) (rows : list string) : option string :=
  nth_error rows (r mod List.length rows).

(** The query is built by pasting [study_id] between two quotes.  The text
    is the comparison [study_id = '...'] with that constant exactly when the
    identifier holds no quote of its own. *)
Definition literal (s : string) : bool :=
  negb (PyStr.contains "'"%char s).

End Sql.

(** [l[i]] and [l[-1]]. *)
Definition getitem {A} (l : list A) (i : nat) : result A :=
  match nth_error l i with
  | Some a => Ok a
  | None => Raise IndexError
  end.

Definition getitem_last {A} (l : list A) : result A :=
  match l with
  | [] => Raise IndexError
  | a :: l' => Ok (last l' a)
  end.

Section Exporter.

Variable env : Env.

(** *** Artifact discovery *)

(** The query of l.63-74.  The study identifier is pasted into its text
    between two quotes: the rows below are what the database reads when the
    identifier is a plain constant ([Sql.literal]). *)
Definition get_interview_name_to_process (study_id : string)
  : M (option string) :=
  fun w =>
    let rows := Sql.ready (pdf_reports env) (load_openface env)
                          (exported_assets w) study_id in
    let interview_name := Sql.fetch_random (random env (clock w)) rows in
    (Ok interview_name,
     {| exported_assets := exported_assets w; fs := fs w;
        clock := S (clock w);
        trace := trace w ++ [EvSelect study_id interview_name] |}).

Definition get_pipeline_streams (interview_name : string) : list Path :=
  map PurePath.of_str (vs_path env interview_name).

Definition get_pipeline_frames (interview_name : string) (f : FS)
  : option Path :=
  match video_path env interview_name with
  | Some v =>
      if String.eqb v "" then None
      else
        let video_path := PurePath.of_str v in
        let frames_path :=
          PurePath.parent video_path // "frames" // PurePath.stem video_path in
        if Files.exists_ f frames_path then Some frames_path else None
  | None => None
  end.

Definition get_openface_assets (interview_name : string) : list Path :=
  map PurePath.of_str (of_processed_path env interview_name).

Definition get_pipeline_exports (interview_name : string) (f : FS)
  : list Exportable :=
  let exports :=
    map (fun stream => (stream, "file", "PROTECTED", "streams"))
        (get_pipeline_streams interview_name) in
  let exports :=
    match get_pipeline_frames interview_name f with
    | Some frames => exports ++ [(frames, "directory", "PROTECTED", "frames")]
    | None => exports
    end in
  exports ++
    map (fun asset => (asset, "directory", "PROTECTED", "openface"))
        (get_openface_assets interview_name).

(** *** Path resolution *)

Definition construct_export_path (interview_name export_type : string)
  : result Path :=
  let? dpdash_dict := parse_dpdash_name env interview_name in
  let? interview_type :=
    getitem (camel_case_split env (data_type dpdash_dict)) 0 in
  Ok (data_root env // export_type // study dpdash_dict // "processed"
        // subject dpdash_dict // "interviews" // interview_type).

Definition get_export_path (interview_name : string)
           (exportable_asset : Exportable) : result Path :=
  let '(asset_path, _, asset_export_type, asset_tag) := exportable_asset in
  let? export_path :=
    construct_export_path interview_name asset_export_type in
  if String.eqb asset_tag "face_processing_pipeline"
  then Ok (export_path // PurePath.name asset_path)
  else
    let path_parts := asset_path in
    let? processed_idx := PyStr.index "processed" path_parts in
    let? processed_idx :=
      if PyStr.mem "decrypted" path_parts
      then PyStr.index "decrypted" path_parts
      else Ok processed_idx in
    let relative_path := skipn (processed_idx + 1) path_parts in
    Ok (PurePath.join export_path (PurePath.of_args relative_path)).

(** *** The transfer engine *)

Definition mkdir_parents (p : Path) : M unit :=
  f <- get_fs ;;
  f' <- lift (Files.makedirs f p) ;;
  set_fs f' ;;
  emit (EvMkdir p).

Definition copy2 (source destination : Path) : M unit :=
  f <- get_fs ;;
  if copy_fails env source then raise OSError
  else
    f' <- lift (Files.copy2 f source destination) ;;
    set_fs f' ;;
    emit (EvCopy2 source destination).

Definition copytree (source destination : Path) : M unit :=
  f <- get_fs ;;
  if copy_fails env source then raise OSError
  else
    f' <- lift (Files.copytree f source destination) ;;
    set_fs f' ;;
    emit (EvCopytree source destination).

Definition unlink (p : Path) : M unit :=
  f <- get_fs ;;
  if delete_fails env p then raise OSError
  else
    f' <- lift (Files.unlink f p) ;;
    set_fs f' ;;
    emit (EvUnlink p).

Definition rmtree (p : Path) : M unit :=
  f <- get_fs ;;
  if delete_fails env p then raise OSError
  else
    f' <- lift (Files.rmtree f p) ;;
    set_fs f' ;;
    emit (EvRmtree p).

(** [db.execute_queries]: the inserts of the batch are committed in one
    transaction, all of them or, when it fails, none. *)
Definition execute_queries (queries : list ExportedAsset) : M unit :=
  fun w =>
    if execute_fails env queries then (Raise DatabaseError, w)
    else
      (Ok tt,
       {| exported_assets := exported_assets w ++ queries; fs := fs w;
          clock := clock w;
          trace := trace w ++ [EvExecuteQueries queries] |}).

(** The body of [for exportable_asset in exports] (the copy loop): the
    asset is copied unless in debug mode, and its insert is returned. *)
Definition copy_asset (interview_name : string)
           (exportable_asset : Exportable) : M ExportedAsset :=
  let '(asset_path, asset_type, asset_export_type, asset_tag) :=
    exportable_asset in
  destination_path <- lift (get_export_path interview_name exportable_asset) ;;
  let asset :=
    {| interview_name := interview_name; asset_path := asset_path;
       asset_type := asset_type; asset_export_type := asset_export_type;
       asset_tag := asset_tag; asset_destination := destination_path |} in
  (if String.eqb asset_type "file" then
     if debug env then ret tt
     else
       f <- get_fs ;;
       (if negb (Files.exists_ f (PurePath.parent destination_path))
        then mkdir_parents (PurePath.parent destination_path)
        else ret tt) ;;
       copy2 asset_path destination_path
   else if String.eqb asset_type "directory" then
     if debug env then ret tt
     else copytree asset_path destination_path
   else raise (SystemExit 1)) ;;
  ret asset.

Fixpoint copy_assets (interview_name : string) (exports : list Exportable)
         (queries : list ExportedAsset) : M (list ExportedAsset) :=
  match exports with
  | [] => ret queries
  | exportable_asset :: rest =>
      query <- copy_asset interview_name exportable_asset ;;
      copy_assets interview_name rest (queries ++ [query])
  end.

(** The clean-up loop. *)
Definition clean_up_asset (exportable_asset : Exportable) : M unit :=
  let '(asset_path, _, _, asset_tag) := exportable_asset in
  if String.eqb asset_tag "frames" then ret tt
  else
    f <- get_fs ;;
    if Files.is_file f asset_path then unlink asset_path
    else if Files.is_dir f asset_path then rmtree asset_path
    else ret tt.

Fixpoint clean_up (exports : list Exportable) : M unit :=
  match exports with
  | [] => ret tt
  | exportable_asset :: rest =>
      clean_up_asset exportable_asset ;; clean_up rest
  end.

(** What the loop does with a selected interview. *)
Definition export_interview (interview_name : string) : M unit :=
  f <- get_fs ;;
  let exports := get_pipeline_exports interview_name f in
  queries <- copy_assets interview_name exports [] ;;
  if debug env then ret tt
  else
    execute_queries queries ;;
    clean_up exports.

(** *** The scheduler loop *)

(** One turn of [while True]. *)
Definition loop_body (st : LoopState) : M LoopState :=
  interview_name <- get_interview_name_to_process (study_id st) ;;
  match interview_name with
  | None =>
      last_study <- lift (getitem_last (studies env)) ;;
      if String.eqb (study_id st) last_study then
        counter <-
          (if Nat.ltb 0 (COUNTER st)
           then emit (EvLog (COUNTER st)) ;; ret 0
           else ret (COUNTER st)) ;;
        emit EvSnooze ;;
        first_study <- lift (getitem (studies env) 0) ;;
        emit (EvRestart first_study) ;;
        ret {| study_id := first_study; COUNTER := counter |}
      else
        idx <- lift (PyStr.index (study_id st) (studies env)) ;;
        next_study <- lift (getitem (studies env) (idx + 1)) ;;
        emit (EvSwitch next_study) ;;
        ret {| study_id := next_study; COUNTER := COUNTER st |}
  | Some interview_name =>
      let counter := COUNTER st + 1 in
      export_interview interview_name ;;
      ret {| study_id := study_id st; COUNTER := counter |}
  end.

(** The first [fuel] turns of the loop. *)
Fixpoint loop (fuel : nat) (st : LoopState) : M LoopState :=
  match fuel with
  | 0 => ret st
  | S fuel' => st' <- loop_body st ;; loop fuel' st'
  end.

(** The start of the script once the configuration is read: the cursor is
    put on the first study and the loop is entered. *)
Definition main (fuel : nat) : M LoopState :=
  first_study <- lift (getitem (studies env) 0) ;;
  loop fuel {| study_id := first_study; COUNTER := 0 |}.

End Exporter.


(* ===================================================================== *)
(** ** A scenario                                                         *)
(* ===================================================================== *)

Module Demo.

Definition xx1 : string := "ChicagoA-XX1-followupInterview".
Definition yy2 : string := "BostonB-YY2-baselineInterview".

Definition fs_of_list (l : list (string * Node)) : FS :=
  fun p =>
    match find (fun e => PurePath.eqb (PurePath.of_str (fst e)) p) l with
    | Some e => Some (snd e)
    | None => None
    end.

(** The processing area holds two streams, a frame directory and an
    OpenFace directory for [xx1], and one stream for [yy2]. *)
Definition fs0 : FS :=
  fs_of_list
    [ ("/", Dir); ("/data", Dir); ("/data/processed", Dir);
      ("/data/processed/decrypted", Dir);
      ("/data/processed/decrypted/ChicagoA", Dir);
      ("/data/processed/decrypted/ChicagoA/XX1", Dir);
      ("/data/processed/decrypted/ChicagoA/XX1/video.mp4", File "video");
      ("/data/processed/decrypted/ChicagoA/XX1/streams", Dir);
      ("/data/processed/decrypted/ChicagoA/XX1/streams/stream_1.mp4", File "one");
      ("/data/processed/decrypted/ChicagoA/XX1/streams/stream_2.mp4", File "two");
      ("/data/processed/decrypted/ChicagoA/XX1/frames", Dir);
      ("/data/processed/decrypted/ChicagoA/XX1/frames/video", Dir);
      ("/data/processed/decrypted/ChicagoA/XX1/frames/video/0001.png", File "png");
      ("/data/processed/decrypted/ChicagoA/XX1/openface", Dir);
      ("/data/processed/decrypted/ChicagoA/XX1/openface/stream_1", Dir);
      ("/data/processed/decrypted/ChicagoA/XX1/openface/stream_1/au.csv", File "csv");
      ("/data/processed/decrypted/BostonB", Dir);
      ("/data/processed/decrypted/BostonB/YY2", Dir);
      ("/data/processed/decrypted/BostonB/YY2/streams", Dir);
      ("/data/processed/decrypted/BostonB/YY2/streams/stream_1.mp4", File "three");
      ("/export_root", Dir) ].

Definition env (dbg : bool) (failing : string) : Env :=
  {| data_root := PurePath.of_str "/export_root";
     studies := ["ChicagoA"; "BostonB"];
     debug := dbg;
     parse_dpdash_name := Helpers.parse_dpdash_name;
     camel_case_split := Helpers.camel_case_split;
     pdf_reports := [xx1; yy2];
     load_openface := [(xx1, "ChicagoA"); (yy2, "BostonB")];
     vs_path := fun n =>
       if String.eqb n xx1 then
         ["/data/processed/decrypted/ChicagoA/XX1/streams/stream_1.mp4";
          "/data/processed/decrypted/ChicagoA/XX1/streams/stream_2.mp4"]
       else if String.eqb n yy2 then
         ["/data/processed/decrypted/BostonB/YY2/streams/stream_1.mp4"]
       else [];
     video_path := fun n =>
       if String.eqb n xx1
       then Some "/data/processed/decrypted/ChicagoA/XX1/video.mp4"
       else if String.eqb n yy2
       then Some "/data/processed/decrypted/BostonB/YY2/video.mp4"
       else None;
     of_processed_path := fun n =>
       if String.eqb n xx1
       then ["/data/processed/decrypted/ChicagoA/XX1/openface/stream_1"]
       else [];
     random := fun n => n;
     copy_fails := fun p => PurePath.eqb p (PurePath.of_str failing);
     delete_fails := fun _ => false;
     execute_fails := fun _ => false |}.

Definition world0 : World :=
  {| exported_assets := []; fs := fs0; clock := 0; trace := [] |}.

Definition stream_1 : string :=
  "/data/processed/decrypted/ChicagoA/XX1/streams/stream_1.mp4".
Definition stream_2 : string :=
  "/data/processed/decrypted/ChicagoA/XX1/streams/stream_2.mp4".
Definition frames : string :=
  "/data/processed/decrypted/ChicagoA/XX1/frames/video".
Definition openface : string :=
  "/data/processed/decrypted/ChicagoA/XX1/openface/stream_1".

(** A world in which both interviews have been exported. *)
Definition exported (name source : string) : ExportedAsset :=
  {| interview_name := name;
     asset_path := PurePath.of_str source;
     asset_type := "file";
     asset_export_type := "PROTECTED";
     asset_tag := "streams";
     asset_destination := PurePath.of_str "/export_root" |}.

Definition world_done : World :=
  {| exported_assets :=
       [ exported xx1 stream_1;
         exported yy2 "/data/processed/decrypted/BostonB/YY2/streams/stream_1.mp4" ];
     fs := fs0; clock := 7; trace := [] |}.

End Demo.


(** The resolution of the structure-preserving family as the specification
    words it: the components after the last occurrence of the marker,
    ["decrypted"] when the path has it and ["processed"] otherwise. *)
Module SpecResolver.

Fixpoint after_last (marker : string) (parts : list string)
  : option (list string) :=
  match parts with
  | [] => None
  | c :: rest =>
      match after_last marker rest with
      | Some r => Some r
      | None => if String.eqb c marker then Some rest else None
      end
  end.

Definition relative_path (parts : list string) : option (list string) :=
  if PyStr.mem "decrypted" parts then after_last "decrypted" parts
  else after_last "processed" parts.

Definition resolve (base : Path) (source_path : Path) : option Path :=
  match relative_path source_path with
  | Some r => Some (base ++ r)
  | None => None
  end.

End SpecResolver.

(* ===================================================================== *)
(** ** Vocabulary of the statements                                       *)
(* ===================================================================== *)

Definition path_of (x : Exportable) : Path :=
  let '(asset_path, _, _, _) := x in asset_path.

Definition tag_of (x : Exportable) : string :=
  let '(_, _, _, asset_tag) := x in asset_tag.

Definition type_of (x : Exportable) : string :=
  let '(_, asset_type, _, _) := x in asset_type.

(** The three phases of an export, by their events. *)
Definition copy_phase (e : Event) : bool :=
  match e with
  | EvMkdir _ | EvCopy2 _ _ | EvCopytree _ _ => true
  | _ => false
  end.

Definition delete_phase (e : Event) : bool :=
  match e with
  | EvUnlink _ | EvRmtree _ => true
  | _ => false
  end.

(** The sources whose copy completed, in the order of the copies. *)
Definition copied (tr : list Event) : list Path :=
  flat_map (fun e => match e with
                     | EvCopy2 s _ | EvCopytree s _ => [s]
                     | _ => []
                     end) tr.

(** The paths removed, in the order of the removals. *)
Definition removed (tr : list Event) : list Path :=
  flat_map (fun e => match e with
                     | EvUnlink p | EvRmtree p => [p]
                     | _ => []
                     end) tr.

(** One of the two paths is the other or lies above it. *)
Definition related (p q : Path) : bool :=
  PurePath.is_prefix p q || PurePath.is_prefix q p.

(** The path and the paths above it exist, as they do in a file system
    when the path does. *)
Definition anchored (f : FS) (p : Path) : bool :=
  forallb (Files.exists_ f) (tl (Files.prefixes p)).

(** The moves of the cursor and the idle backoffs of a trace. *)
Definition is_advance (e : Event) : bool :=
  match e with
  | EvSwitch _ | EvRestart _ => true
  | _ => false
  end.

Definition advances (tr : list Event) : nat :=
  List.length (filter is_advance tr).

Definition is_snooze (e : Event) : bool :=
  match e with
  | EvSnooze => true
  | _ => false
  end.

Definition snoozes (tr : list Event) : nat :=
  List.length (filter is_snooze tr).

(** Every node of [f] is still there in [f'], with its kind. *)
Definition fs_kept (f f' : FS) : Prop :=
  forall q : Path,
    (forall c, f q = Some (File c) -> exists c', f' q = Some (File c'))
    /\ (f q = Some Dir -> f' q = Some Dir).

(** The backlog of a study: the rows its selection query draws from. *)
Definition backlog (env : Env) (w : World) (study_id : string) : list string :=
  Sql.ready (pdf_reports env) (load_openface env) (exported_assets w) study_id.

(** The empty pass: each study is asked in turn and has nothing, and the
    cursor moves on to the next one. *)
Fixpoint empty_pass (ss : list string) : list Event :=
  match ss with
  | [] => []
  | s :: rest =>
      match rest with
      | [] => [EvSelect s None]
      | s' :: _ => EvSelect s None :: EvSwitch s' :: empty_pass rest
      end
  end.

(** The progress report of the idle transition. *)
Definition report (counter : nat) : list Event :=
  if Nat.ltb 0 counter then [EvLog counter] else [].

(** [if args.config:] on the value of the option [--config]: [None]
    without the option, and an empty string is false as [None] is. *)
Definition truthy (config : option string) : bool :=
  match config with
  | Some c => negb (String.eqb c "")
  | None => false
  end.

(** The checks of the script before the loop: a configuration file that is
    named must exist, and the default one must be confirmed.
    [config_exists] is [config_file.exists()] for the named file and
    [confirmed] the answer of [cli.confirm_action]. *)
Definition startup (config : option string) (config_exists confirmed : bool)
  : result unit :=
  if truthy config then
    if negb config_exists then Raise (SystemExit 1) else Ok tt
  else
    if confirmed then Ok tt else Raise (SystemExit 1).

Definition script (env : Env) (config : option string)
           (config_exists confirmed : bool) (fuel : nat) : M LoopState :=
  lift (startup config config_exists confirmed) ;;
  main env fuel.

(** The events of the export of one interview. *)
Definition export_event (e : Event) : bool :=
  match e with
  | EvMkdir _ | EvCopy2 _ _ | EvCopytree _ _ | EvExecuteQueries _
  | EvUnlink _ | EvRmtree _ => true
  | _ => false
  end.

Definition is_select (e : Event) : bool :=
  match e with
  | EvSelect _ _ => true
  | _ => false
  end.

(** A second scenario: the OpenFace directory of the interview holds the
    decrypted video and its stream, hence the frame directory as well. *)
Module Nested.

Definition fs0 : FS :=
  Demo.fs_of_list
    [ ("/", Dir); ("/data", Dir); ("/data/processed", Dir);
      ("/data/processed/of_out", Dir);
      ("/data/processed/of_out/au.csv", File "csv");
      ("/data/processed/of_out/decrypted", Dir);
      ("/data/processed/of_out/decrypted/v.mp4", File "video");
      ("/data/processed/of_out/decrypted/streams", Dir);
      ("/data/processed/of_out/decrypted/streams/v_1.mp4", File "one");
      ("/data/processed/of_out/decrypted/frames", Dir);
      ("/data/processed/of_out/decrypted/frames/v", Dir);
      ("/data/processed/of_out/decrypted/frames/v/0001.png", File "png");
      ("/export_root", Dir) ].

Definition frames : Path :=
  PurePath.of_str "/data/processed/of_out/decrypted/frames/v".

Definition env : Env :=
  {| data_root := PurePath.of_str "/export_root";
     studies := ["ChicagoA"];
     debug := false;
     parse_dpdash_name := Helpers.parse_dpdash_name;
     camel_case_split := Helpers.camel_case_split;
     pdf_reports := [Demo.xx1];
     load_openface := [(Demo.xx1, "ChicagoA")];
     vs_path := fun _ =>
       ["/data/processed/of_out/decrypted/streams/v_1.mp4"];
     video_path := fun _ => Some "/data/processed/of_out/decrypted/v.mp4";
     of_processed_path := fun _ => ["/data/processed/of_out"];
     random := fun n => n;
     copy_fails := fun _ => false;
     delete_fails := fun _ => false;
     execute_fails := fun _ => false |}.

Definition world0 : World :=
  {| exported_assets := []; fs := fs0; clock := 0; trace := [] |}.

End Nested.

(** The world once the selection query for [study_id] has answered
    [found]. *)
Definition selected (w : World) (study_id : string) (found : option string)
  : World :=
  {| exported_assets := exported_assets w; fs := fs w;
     clock := S (clock w);
     trace := trace w ++ [EvSelect study_id found] |}.

(** What the selection query answers in a world. *)
Definition found_in (env : Env) (w : World) (study_id : string)
  : option string :=
  Sql.fetch_random (random env (clock w)) (backlog env w study_id).


(** A third scenario: the first study has a report for an interview that
    has no stream, no frame directory and no OpenFace directory. *)
Module Bare.

Definition env : Env :=
  {| data_root := PurePath.of_str "/export_root";
     studies := ["ChicagoA"; "BostonB"];
     debug := false;
     parse_dpdash_name := Helpers.parse_dpdash_name;
     camel_case_split := Helpers.camel_case_split;
     pdf_reports := [Demo.xx1; Demo.yy2];
     load_openface := [(Demo.xx1, "ChicagoA"); (Demo.yy2, "BostonB")];
     vs_path := fun n =>
       if String.eqb n Demo.yy2 then
         ["/data/processed/decrypted/BostonB/YY2/streams/stream_1.mp4"]
       else [];
     video_path := fun n =>
       if String.eqb n Demo.yy2
       then Some "/data/processed/decrypted/BostonB/YY2/video.mp4"
       else None;
     of_processed_path := fun _ => [];
     random := fun n => n;
     copy_fails := fun _ => false;
     delete_fails := fun _ => false;
     execute_fails := fun _ => false |}.

End Bare.

(* ===================================================================== *)
(** ** Durations                                                          *)
(* ===================================================================== *)

(** [int(s)] on ASCII text, in base ten: the white space around the literal
    is dropped, a sign may come first, and the digits may be grouped by
    single underscores. *)
Module PyInt.

Definition isspace (c : ascii) : bool :=
  let n := nat_of_ascii c in
  (((9 <=? n) && (n <=? 13)) || ((28 <=? n) && (n <=? 32)))%nat.

Fixpoint lstrip (l : list ascii) : list ascii :=
  match l with
  | c :: l' => if isspace c then lstrip l' else l
  | [] => []
  end.

Definition strip (l : list ascii) : list ascii :=
  List.rev (lstrip (List.rev (lstrip l))).

Definition digit (c : ascii) : option nat :=
  let n := nat_of_ascii c in
  if ((48 <=? n) && (n <=? 57))%nat then Some (n - 48) else None.

(** The digits of a literal, most significant first; [after_digit] tells
    whether the previous character was a digit, which an underscore and the
    end of the literal both need. *)
Fixpoint digits (after_digit : bool) (l : list ascii) (acc : nat)
  : option nat :=
  match l with
  | [] => if after_digit then Some acc else None
  | c :: l' =>
      match digit c with
      | Some d => digits true l' (10 * acc + d)
      | None =>
          if Ascii.eqb c "_"%char && after_digit then digits false l' acc
          else None
      end
  end.

Definition int (s : string) : result Z :=
  let unsigned (l : list ascii) : option Z :=
    match digits false l 0 with
    | Some n => Some (Z.of_nat n)
    | None => None
    end in
  let signed :=
    match strip (list_ascii_of_string s) with
    | c :: l' =>
        if Ascii.eqb c "-"%char then option_map Z.opp (unsigned l')
        else if Ascii.eqb c "+"%char then unsigned l'
        else unsigned (c :: l')
    | [] => None
    end in
  match signed with
  | Some z => Ok z
  | None => Raise ValueError
  end.

(** [str(n)] for a natural number. *)
Definition str (n : nat) : string :=
  DecimalString.NilEmpty.string_of_uint (Nat.to_uint n).

End PyInt.

(** [h, m, s = map(int, duration_str.split(":"))]: the unpacking needs
    exactly three fields and every field an integer literal; each of the
    failures is a [ValueError]. *)
Definition duration_to_seconds (duration_str : string) : result Z :=
  match PyStr.split ":"%char duration_str with
  | [a; b; c] =>
      let? h := PyInt.int a in
      let? m := PyInt.int b in
      let? s := PyInt.int c in
      Ok (h * 3600 + m * 60 + s)%Z
  | _ => Raise ValueError
  end.

(** [H:M:S] for three natural numbers. *)
Definition hms (h m s : nat) : string :=
  (PyInt.str h ++ ":" ++ PyInt.str m ++ ":" ++ PyInt.str s)%string.

(* ===================================================================== *)
(** ** More vocabulary                                                    *)
(* ===================================================================== *)

Definition export_type_of (x : Exportable) : string :=
  let '(_, _, asset_export_type, _) := x in asset_export_type.

(** The record the copy loop builds for an asset and its destination. *)
Definition record_of (name : string) (x : Exportable) (destination : Path)
  : ExportedAsset :=
  {| interview_name := name; asset_path := path_of x;
     asset_type := type_of x; asset_export_type := export_type_of x;
     asset_tag := tag_of x; asset_destination := destination |}.

(** The copies of a trace, each with its source and its destination. *)
Definition copies (tr : list Event) : list (Path * Path) :=
  flat_map (fun e => match e with
                     | EvCopy2 s d | EvCopytree s d => [(s, d)]
                     | _ => []
                     end) tr.

(** The interviews for which a trace holds the write of a batch that is
    not empty. *)
Definition written (tr : list Event) : list string :=
  flat_map (fun e => match e with
                     | EvExecuteQueries (q :: _) => [interview_name q]
                     | _ => []
                     end) tr.

(** The counter along a trace: up by one at each interview selected, back
    to zero at each idle backoff. *)
Fixpoint counter_after (c : nat) (tr : list Event) : nat :=
  match tr with
  | [] => c
  | EvSelect _ (Some _) :: tr' => counter_after (S c) tr'
  | EvSnooze :: tr' => counter_after 0 tr'
  | _ :: tr' => counter_after c tr'
  end.

(** The progress reports of a trace read from a counter at [c], [pending]
    telling that the event before was a report.  A report carries the value
    the counter has where it stands, that value is positive, and the next
    event is the pause that resets the counter; a pause that no report
    precedes finds the counter at zero. *)
Fixpoint reports_checked (c : nat) (pending : bool) (tr : list Event) : bool :=
  match tr with
  | [] => negb pending
  | EvLog n :: tr' =>
      negb pending && Nat.eqb n c && Nat.ltb 0 n && reports_checked c true tr'
  | EvSnooze :: tr' => (pending || Nat.eqb c 0) && reports_checked 0 false tr'
  | EvSelect _ (Some _) :: tr' =>
      negb pending && reports_checked (S c) false tr'
  | _ :: tr' => negb pending && reports_checked c false tr'
  end.

Definition reports_accurate (c : nat) (tr : list Event) : bool :=
  reports_checked c false tr.

(** An environment whose ledger transactions fail. *)
Definition database_down (env : Env) : Env :=
  {| data_root := data_root env; studies := studies env; debug := debug env;
     parse_dpdash_name := parse_dpdash_name env;
     camel_case_split := camel_case_split env;
     pdf_reports := pdf_reports env; load_openface := load_openface env;
     vs_path := vs_path env; video_path := video_path env;
     of_processed_path := of_processed_path env; random := random env;
     copy_fails := copy_fails env; delete_fails := delete_fails env;
     execute_fails := fun _ => true |}.

(** An environment with another list of studies. *)
Definition with_studies (env : Env) (l : list string) : Env :=
  {| data_root := data_root env; studies := l; debug := debug env;
     parse_dpdash_name := parse_dpdash_name env;
     camel_case_split := camel_case_split env;
     pdf_reports := pdf_reports env; load_openface := load_openface env;
     vs_path := vs_path env; video_path := video_path env;
     of_processed_path := of_processed_path env; random := random env;
     copy_fails := copy_fails env; delete_fails := delete_fails env;
     execute_fails := execute_fails env |}.

Unset Implicit Arguments.

(* ===================================================================== *)
(** ** Examples                                                           *)
(* ===================================================================== *)

Example of_str_abs :
  PurePath.of_str "/data/processed/decrypted/ChicagoA/XX1/video/stream_1.mp4"
  = ["/"; "data"; "processed"; "decrypted"; "ChicagoA"; "XX1"; "video"; "stream_1.mp4"].
Proof. reflexivity. Qed.

Example of_str_dots : PurePath.of_str "a/./b//c/" = ["a"; "b"; "c"].
Proof. reflexivity. Qed.

Example stem_mp4 : PurePath.stem (PurePath.of_str "/p/v.tar.gz") = "v.tar".
Proof. reflexivity. Qed.

Example parent_root : PurePath.parent (PurePath.of_str "/") = ["/"].
Proof. reflexivity. Qed.

Example parse_followup :
  Helpers.parse_dpdash_name "ChicagoA-XX1-followupInterview"
  = Ok {| study := "ChicagoA"; subject := "XX1"; data_type := "followupInterview" |}.
Proof. reflexivity. Qed.

Example camel_followup :
  Helpers.camel_case_split "followupInterview" = ["followup"; "Interview"].
Proof. reflexivity. Qed.

Example demo_exports :
  get_pipeline_exports (Demo.env false "") Demo.xx1 Demo.fs0
  = [ (PurePath.of_str "/data/processed/decrypted/ChicagoA/XX1/streams/stream_1.mp4",
       "file", "PROTECTED", "streams");
      (PurePath.of_str "/data/processed/decrypted/ChicagoA/XX1/streams/stream_2.mp4",
       "file", "PROTECTED", "streams");
      (PurePath.of_str "/data/processed/decrypted/ChicagoA/XX1/frames/video",
       "directory", "PROTECTED", "frames");
      (PurePath.of_str "/data/processed/decrypted/ChicagoA/XX1/openface/stream_1",
       "directory", "PROTECTED", "openface") ].
Proof. reflexivity. Qed.

Example demo_run_ok :
  let r := main (Demo.env false "") 4 Demo.world0 in
  fst r = Ok {| study_id := "ChicagoA"; COUNTER := 0 |}
  /\ trace (snd r)
     = [ EvSelect "ChicagoA" (Some Demo.xx1);
         EvMkdir (PurePath.of_str "/export_root/PROTECTED/ChicagoA/processed/XX1/interviews/followup/ChicagoA/XX1/streams");
         EvCopy2 (PurePath.of_str "/data/processed/decrypted/ChicagoA/XX1/streams/stream_1.mp4")
                 (PurePath.of_str "/export_root/PROTECTED/ChicagoA/processed/XX1/interviews/followup/ChicagoA/XX1/streams/stream_1.mp4");
         EvCopy2 (PurePath.of_str "/data/processed/decrypted/ChicagoA/XX1/streams/stream_2.mp4")
                 (PurePath.of_str "/export_root/PROTECTED/ChicagoA/processed/XX1/interviews/followup/ChicagoA/XX1/streams/stream_2.mp4");
         EvCopytree (PurePath.of_str "/data/processed/decrypted/ChicagoA/XX1/frames/video")
                 (PurePath.of_str "/export_root/PROTECTED/ChicagoA/processed/XX1/interviews/followup/ChicagoA/XX1/frames/video");
         EvCopytree (PurePath.of_str "/data/processed/decrypted/ChicagoA/XX1/openface/stream_1")
                 (PurePath.of_str "/export_root/PROTECTED/ChicagoA/processed/XX1/interviews/followup/ChicagoA/XX1/openface/stream_1") ]
       ++ skipn 6 (trace (snd r)).
Proof. vm_compute. split; reflexivity. Qed.

(* ===================================================================== *)
(** ** Lemmas on strings and paths                                        *)
(* ===================================================================== *)

Section PathFacts.

Lemma mem_In (x : string) (l : list string) :
  PyStr.mem x l = true <-> In x l.
Proof.
  unfold PyStr.mem. rewrite existsb_exists. split.
  - intros (y & Hy & E). apply String.eqb_eq in E. now subst.
  - intros H. exists x. split; [assumption | apply String.eqb_refl].
Qed.

Lemma mem_false (x : string) (l : list string) :
  PyStr.mem x l = false <-> ~ In x l.
Proof.
  rewrite <- mem_In. destruct (PyStr.mem x l); split; congruence.
Qed.

(** [l.index(x)] is the position of the first occurrence. *)
Lemma index_first (x : string) (pre rest : list string) :
  ~ In x pre ->
  PyStr.index x (pre ++ x :: rest) = Ok (List.length pre).
Proof.
  induction pre as [|y pre IH]; simpl; intros Hn.
  - now rewrite String.eqb_refl.
  - destruct (String.eqb_spec y x) as [->|_].
    + exfalso. apply Hn. now left.
    + rewrite IH; [reflexivity | intros H; apply Hn; now right].
Qed.


Lemma index_present (x : string) (l : list string) :
  In x l ->
  exists pre rest,
    l = pre ++ x :: rest /\ ~ In x pre
    /\ PyStr.index x l = Ok (List.length pre).
Proof.
  induction l as [|y l IH]; simpl; intros Hin; [contradiction|].
  destruct (String.eqb_spec y x) as [->|Hne].
  - exists [], l. repeat split. intros [].
  - destruct Hin as [E|Hin]; [congruence|].
    destruct (IH Hin) as (pre & rest & -> & Hn & Hi).
    exists (y :: pre), rest. rewrite Hi. repeat split.
    intros [E|H]; [congruence | now apply Hn].
Qed.

Lemma skipn_past (A : Type) (pre : list A) (x : A) (rest : list A) :
  skipn (List.length pre + 1) (pre ++ x :: rest) = rest.
Proof.
  induction pre as [|y pre IH]; simpl; [reflexivity | exact IH].
Qed.

(** No piece of [s.split(sep)] contains the separator. *)
Lemma split_no_sep (sep : ascii) (s c : string) :
  In c (PyStr.split sep s) -> PyStr.contains sep c = false.
Proof.
  revert c. induction s as [|a s IH]; simpl; intros c Hin.
  - destruct Hin as [<-|[]]. reflexivity.
  - destruct (Ascii.eqb a sep) eqn:E.
    + destruct Hin as [<-|Hin]; [reflexivity | now apply IH].
    + destruct (PyStr.split sep s) as [|x xs] eqn:Es.
      * destruct Hin as [<-|[]]. simpl. now rewrite E.
      * destruct Hin as [<-|Hin].
        -- simpl. rewrite E. simpl. apply IH. now left.
        -- apply IH. now right.
Qed.

(** A string without the separator is its own only piece. *)
Lemma split_whole (sep : ascii) (s : string) :
  PyStr.contains sep s = false -> PyStr.split sep s = [s].
Proof.
  induction s as [|a s IH]; simpl; intros H; [reflexivity|].
  apply orb_false_iff in H. destruct H as [Ha Hs].
  rewrite Ha, (IH Hs). reflexivity.
Qed.

Lemma leading_no_sep (sep : ascii) (s : string) :
  PyStr.contains sep s = false -> PyStr.leading sep s = 0.
Proof.
  destruct s as [|a s]; simpl; intros H; [reflexivity|].
  apply orb_false_iff in H. destruct H as [Ha _]. now rewrite Ha.
Qed.

(** [Path(c)] for a component is the one-part path. *)
Lemma of_str_component (c : string) :
  PurePath.is_component c = true -> PurePath.of_str c = [c].
Proof.
  unfold PurePath.is_component, PurePath.of_str. intros H.
  apply andb_true_iff in H. destruct H as [Hk Hs].
  apply negb_true_iff in Hs.
  rewrite (leading_no_sep _ _ Hs), (split_whole _ _ Hs). simpl.
  now rewrite Hk.
Qed.

Lemma component_not_root (c : string) :
  PurePath.is_component c = true -> PurePath.is_root c = false.
Proof.
  unfold PurePath.is_component, PurePath.is_root. intros H.
  apply andb_true_iff in H. destruct H as [_ Hs].
  apply negb_true_iff in Hs.
  destruct (String.eqb_spec c "/") as [->|_]; [discriminate Hs|].
  destruct (String.eqb_spec c "//") as [->|_]; [discriminate Hs|].
  reflexivity.
Qed.

Lemma join_components (base l : Path) :
  Forall (fun c => PurePath.is_component c = true) l ->
  PurePath.join base l = base ++ l.
Proof.
  intros H. unfold PurePath.join. destruct l as [|c l]; [reflexivity|].
  simpl. inversion H; subst. now rewrite component_not_root.
Qed.

(** [Path( *l )] for a list of components has these components as parts. *)
Lemma of_args_components (l : list string) :
  Forall (fun c => PurePath.is_component c = true) l ->
  PurePath.of_args l = l.
Proof.
  unfold PurePath.of_args. intros H.
  enough (G : forall acc, fold_left PurePath.join_str l acc = acc ++ l)
    by apply (G []).
  induction H as [|c l Hc Hl IH]; intros acc; simpl.
  - now rewrite app_nil_r.
  - rewrite IH. unfold PurePath.join_str.
    rewrite (of_str_component _ Hc), join_components.
    + now rewrite <- app_assoc.
    + constructor; [assumption | constructor].
Qed.

(** The parts of [Path(s)]: components, after the root if there is one. *)
Lemma of_str_parts (s : string) :
  exists comps,
    Forall (fun c => PurePath.is_component c = true) comps
    /\ (PurePath.of_str s = comps
        \/ exists r, PurePath.of_str s = r :: comps).
Proof.
  exists (filter PurePath.kept (PyStr.split PurePath.slash s)). split.
  - apply Forall_forall. intros c Hc. apply filter_In in Hc.
    destruct Hc as [Hin Hk]. unfold PurePath.is_component.
    now rewrite Hk, (split_no_sep _ _ _ Hin).
  - unfold PurePath.of_str.
    destruct (PyStr.leading PurePath.slash s) as [|[|[|n]]];
      [left; reflexivity | right; eexists; reflexivity ..].
Qed.

Lemma Forall_after (A : Type) (P : A -> Prop) (pre : list A) (x : A)
      (rest l : list A) :
  Forall P l -> l = pre ++ x :: rest -> Forall P rest.
Proof.
  intros H ->. apply Forall_app in H. destruct H as [_ H].
  now inversion H.
Qed.

(** What follows a part of [Path(s)] is made of components. *)
Lemma of_str_after (s : string) (pre : list string) (x : string)
      (rest : list string) :
  PurePath.of_str s = pre ++ x :: rest ->
  Forall (fun c => PurePath.is_component c = true) rest.
Proof.
  intros E. destruct (of_str_parts s) as (comps & Hc & [H|(r & H)]).
  - rewrite H in E. eapply Forall_after; eassumption.
  - rewrite H in E. destruct pre as [|y pre]; simpl in E.
    + injection E as _ <-. assumption.
    + injection E as _ E. eapply Forall_after; eassumption.
Qed.

End PathFacts.

(* ===================================================================== *)
(** ** Path resolution                                                    *)
(* ===================================================================== *)

Section Resolution.

Variable env : Env.

Lemma construct_export_path_ok (name tier : string) (d : dpdash_dict)
      (t : string) (ts : list string) :
  parse_dpdash_name env name = Ok d ->
  camel_case_split env (data_type d) = t :: ts ->
  construct_export_path env name tier
  = Ok (data_root env // tier // study d // "processed" // subject d
          // "interviews" // t).
Proof.
  intros Hp Hc. unfold construct_export_path. rewrite Hp. simpl.
  rewrite Hc. reflexivity.
Qed.

Lemma get_export_path_flattened (name : string) (p : Path)
      (kind tier : string) (base : Path) :
  construct_export_path env name tier = Ok base ->
  get_export_path env name (p, kind, tier, "face_processing_pipeline")
  = Ok (base // PurePath.name p).
Proof.
  intros Hb. unfold get_export_path. rewrite Hb. reflexivity.
Qed.

(** The structure-preserving branch, on the parts of the source. *)
Lemma get_export_path_after (name : string) (p : Path)
      (kind tier tag : string) (base : Path)
      (pre : list string) (marker : string) (rest : list string) :
  tag <> "face_processing_pipeline" ->
  construct_export_path env name tier = Ok base ->
  p = pre ++ marker :: rest ->
  ~ In marker pre ->
  In "processed" p ->
  marker = "decrypted"
  \/ (marker = "processed" /\ ~ In "decrypted" p) ->
  get_export_path env name (p, kind, tier, tag)
  = Ok (PurePath.join base (PurePath.of_args rest)).
Proof.
  intros Htag Hb Hp Hpre Hproc Hm. unfold get_export_path.
  rewrite Hb. simpl.
  destruct (String.eqb_spec tag "face_processing_pipeline") as [E|_];
    [contradiction|].
  destruct (index_present _ _ Hproc) as (pre' & rest' & _ & _ & Hi).
  rewrite Hi. simpl.
  destruct Hm as [->|[-> Hnd]].
  - assert (Hd : PyStr.mem "decrypted" p = true).
    { apply mem_In. rewrite Hp. apply in_or_app. right. now left. }
    rewrite Hd. rewrite Hp at 1. rewrite (index_first _ _ _ Hpre). simpl.
    rewrite Hp, skipn_past. reflexivity.
  - apply mem_false in Hnd. rewrite Hnd. simpl.
    rewrite Hp in Hi. rewrite (index_first _ _ _ Hpre) in Hi.
    injection Hi as <-. rewrite Hp, skipn_past. reflexivity.
Qed.



End Resolution.

(** C5. For an asset of the flattened family (tag
    ["face_processing_pipeline"]) the destination is [base / name] of the
    source, where [base] is
    [data_root / export type / study / "processed" / subject / "interviews" / interview type]
    and the interview type is the first token of the camel-case split of the
    parsed data type.  In particular, with the naming convention and the
    camel-case split of the specification, the PROTECTED asset
    [/proc/feature_output/subjXX1_face] of interview
    ["ChicagoA-XX1-followupInterview"] goes to
    [data_root/PROTECTED/ChicagoA/processed/XX1/interviews/followup/subjXX1_face]. *)
Theorem flattened_family_destination :
  (forall (env : Env) (name : string) (p : Path) (kind tier : string)
          (d : dpdash_dict) (t : string) (ts : list string),
      parse_dpdash_name env name = Ok d ->
      camel_case_split env (data_type d) = t :: ts ->
      get_export_path env name (p, kind, tier, "face_processing_pipeline")
      = Ok (data_root env // tier // study d // "processed" // subject d
              // "interviews" // t // PurePath.name p))
  /\ (forall (env : Env) (kind : string),
         parse_dpdash_name env = Helpers.parse_dpdash_name ->
         camel_case_split env = Helpers.camel_case_split ->
         get_export_path env "ChicagoA-XX1-followupInterview"
           (PurePath.of_str "/proc/feature_output/subjXX1_face", kind,
            "PROTECTED", "face_processing_pipeline")
         = Ok (data_root env
                 ++ ["PROTECTED"; "ChicagoA"; "processed"; "XX1";
                     "interviews"; "followup"; "subjXX1_face"])).
Proof.
  assert (G : forall (env : Env) (name : string) (p : Path)
                     (kind tier : string) (d : dpdash_dict) (t : string)
                     (ts : list string),
             parse_dpdash_name env name = Ok d ->
             camel_case_split env (data_type d) = t :: ts ->
             get_export_path env name (p, kind, tier, "face_processing_pipeline")
             = Ok (data_root env // tier // study d // "processed" // subject d
                     // "interviews" // t // PurePath.name p)).
  { intros env name p kind tier d t ts Hp Hc.
    apply get_export_path_flattened.
    eapply construct_export_path_ok; eassumption. }
  split; [exact G|].
  intros env kind Hp Hc.
  rewrite (G env _ _ kind "PROTECTED"
             {| study := "ChicagoA"; subject := "XX1";
                data_type := "followupInterview" |}
             "followup" ["Interview"]).
  - cbn. repeat rewrite <- app_assoc. reflexivity.
  - rewrite Hp. reflexivity.
  - rewrite Hc. reflexivity.
Qed.

Lemma flattened_family_destination_witness :
  get_export_path (Demo.env false "") Demo.xx1
    (PurePath.of_str "/proc/feature_output/subjXX1_face", "directory",
     "PROTECTED", "face_processing_pipeline")
  = Ok (PurePath.of_str "/export_root/PROTECTED/ChicagoA/processed/XX1/interviews/followup"
          // "subjXX1_face")
  /\ get_export_path (Demo.env false "") "ChicagoA-XX1-followupInterview"
       (PurePath.of_str "/proc/feature_output/subjXX1_face", "directory",
        "PROTECTED", "face_processing_pipeline")
     = Ok (PurePath.of_str "/export_root"
             ++ ["PROTECTED"; "ChicagoA"; "processed"; "XX1";
                 "interviews"; "followup"; "subjXX1_face"]).
Proof.
  split.
  - exact (proj1 flattened_family_destination (Demo.env false "") Demo.xx1
             (PurePath.of_str "/proc/feature_output/subjXX1_face")
             "directory" "PROTECTED"
             {| study := "ChicagoA"; subject := "XX1";
                data_type := "followupInterview" |}
             "followup" ["Interview"] eq_refl eq_refl).
  - exact (proj2 flattened_family_destination (Demo.env false "") "directory"
             eq_refl eq_refl).
Defined.

(** C4, as amended.  For an asset outside the flattened family whose source
    has a ["processed"] part, the destination is the base export path
    followed by the parts of the source after the first occurrence of
    ["decrypted"] when the source has that part, and after the first
    occurrence of ["processed"] otherwise.  In particular the parts appended
    for [/data/processed/decrypted/ChicagoA/XX1/video/stream_1.mp4] are
    those after ["decrypted"]. *)
Theorem structure_preserving_destination :
  (forall (env : Env) (name src kind tier tag : string) (base : Path)
          (pre : list string) (marker : string) (rest : list string),
      tag <> "face_processing_pipeline" ->
      construct_export_path env name tier = Ok base ->
      PurePath.of_str src = pre ++ marker :: rest ->
      ~ In marker pre ->
      In "processed" (PurePath.of_str src) ->
      marker = "decrypted"
      \/ (marker = "processed" /\ ~ In "decrypted" (PurePath.of_str src)) ->
      get_export_path env name (PurePath.of_str src, kind, tier, tag)
      = Ok (base ++ rest))
  /\ (forall (env : Env) (name kind tier tag : string) (base : Path),
         tag <> "face_processing_pipeline" ->
         construct_export_path env name tier = Ok base ->
         get_export_path env name
           (PurePath.of_str
              "/data/processed/decrypted/ChicagoA/XX1/video/stream_1.mp4",
            kind, tier, tag)
         = Ok (base ++ ["ChicagoA"; "XX1"; "video"; "stream_1.mp4"])).
Proof.
  assert (G : forall (env : Env) (name src kind tier tag : string)
                     (base : Path) (pre : list string) (marker : string)
                     (rest : list string),
             tag <> "face_processing_pipeline" ->
             construct_export_path env name tier = Ok base ->
             PurePath.of_str src = pre ++ marker :: rest ->
             ~ In marker pre ->
             In "processed" (PurePath.of_str src) ->
             marker = "decrypted"
             \/ (marker = "processed"
                 /\ ~ In "decrypted" (PurePath.of_str src)) ->
             get_export_path env name (PurePath.of_str src, kind, tier, tag)
             = Ok (base ++ rest)).
  { intros env name src kind tier tag base pre marker rest
           Htag Hb Hsrc Hpre Hproc Hm.
    rewrite (get_export_path_after env name _ kind tier tag base pre marker rest
               Htag Hb Hsrc Hpre Hproc Hm).
    pose proof (of_str_after _ _ _ _ Hsrc) as Hc.
    rewrite (of_args_components _ Hc), (join_components _ _ Hc). reflexivity. }
  split; [exact G|].
  intros env name kind tier tag base Htag Hb.
  apply (G env name _ kind tier tag base
           ["/"; "data"; "processed"] "decrypted"
           ["ChicagoA"; "XX1"; "video"; "stream_1.mp4"] Htag Hb).
  - reflexivity.
  - simpl. intros [H|[H|[H|[]]]]; discriminate H.
  - vm_compute. right; right; left. reflexivity.
  - left. reflexivity.
Qed.

Lemma structure_preserving_destination_witness :
  get_export_path (Demo.env false "") Demo.xx1
    (PurePath.of_str "/data/processed/ChicagoA/processed/XX1/stream_1.mp4",
     "file", "PROTECTED", "streams")
  = Ok (PurePath.of_str "/export_root/PROTECTED/ChicagoA/processed/XX1/interviews/followup"
          ++ ["ChicagoA"; "processed"; "XX1"; "stream_1.mp4"])
  /\ get_export_path (Demo.env false "") Demo.xx1
       (PurePath.of_str
          "/data/processed/decrypted/ChicagoA/XX1/video/stream_1.mp4",
        "file", "PROTECTED", "streams")
     = Ok (PurePath.of_str "/export_root/PROTECTED/ChicagoA/processed/XX1/interviews/followup"
             ++ ["ChicagoA"; "XX1"; "video"; "stream_1.mp4"]).
Proof.
  split.
  - apply (proj1 structure_preserving_destination (Demo.env false "")
             Demo.xx1 "/data/processed/ChicagoA/processed/XX1/stream_1.mp4"
             "file" "PROTECTED" "streams" _
             ["/"; "data"] "processed"
             ["ChicagoA"; "processed"; "XX1"; "stream_1.mp4"]).
    + discriminate.
    + reflexivity.
    + reflexivity.
    + simpl. intros [H|[H|[]]]; discriminate H.
    + vm_compute. right; right; left. reflexivity.
    + right. split; [reflexivity|].
      vm_compute. intros [H|[H|[H|[H|[H|[H|[H|[]]]]]]]]; discriminate H.
  - apply (proj2 structure_preserving_destination (Demo.env false "")
             Demo.xx1 "file" "PROTECTED" "streams").
    + discriminate.
    + reflexivity.
Defined.

(** C4 as it is stated fails: on a source with two ["processed"] parts the
    exporter keeps what follows the first one, where the last occurrence
    would give a shorter path; and on a source with ["decrypted"] but
    without ["processed"] it raises where the statement resolves the path. *)
Lemma last_marker_counterexample :
  get_export_path (Demo.env false "") Demo.xx1
    (PurePath.of_str "/data/processed/ChicagoA/processed/XX1/stream_1.mp4",
     "file", "PROTECTED", "streams")
  = Ok (PurePath.of_str "/export_root/PROTECTED/ChicagoA/processed/XX1/interviews/followup/ChicagoA/processed/XX1/stream_1.mp4")
  /\ SpecResolver.resolve
       (PurePath.of_str "/export_root/PROTECTED/ChicagoA/processed/XX1/interviews/followup")
       (PurePath.of_str "/data/processed/ChicagoA/processed/XX1/stream_1.mp4")
     = Some (PurePath.of_str "/export_root/PROTECTED/ChicagoA/processed/XX1/interviews/followup/XX1/stream_1.mp4")
  /\ get_export_path (Demo.env false "") Demo.xx1
       (PurePath.of_str "/data/decrypted/ChicagoA/XX1/stream_1.mp4",
        "file", "PROTECTED", "streams")
     = Raise ValueError
  /\ SpecResolver.resolve
       (PurePath.of_str "/export_root/PROTECTED/ChicagoA/processed/XX1/interviews/followup")
       (PurePath.of_str "/data/decrypted/ChicagoA/XX1/stream_1.mp4")
     = Some (PurePath.of_str "/export_root/PROTECTED/ChicagoA/processed/XX1/interviews/followup/ChicagoA/XX1/stream_1.mp4").
Proof. repeat split. Qed.

(* ===================================================================== *)
(** ** Reasoning on computations                                          *)
(* ===================================================================== *)

Lemma bind_ok {A B : Type} (m : M A) (k : A -> M B) (w w1 : World) (a : A) :
  m w = (Ok a, w1) -> bind m k w = k a w1.
Proof. intros H. unfold bind. now rewrite H. Qed.

Lemma bind_raise {A B : Type} (m : M A) (k : A -> M B) (w w1 : World)
      (e : exn) :
  m w = (Raise e, w1) -> bind m k w = (Raise e, w1).
Proof. intros H. unfold bind. now rewrite H. Qed.

(** What a sequence did, from its outcome. *)
Lemma bind_inv {A B : Type} (m : M A) (k : A -> M B) (w w' : World)
      (r : result B) :
  bind m k w = (r, w') ->
  (exists a w1, m w = (Ok a, w1) /\ k a w1 = (r, w'))
  \/ (exists e, m w = (Raise e, w') /\ r = Raise e).
Proof.
  unfold bind. destruct (m w) as [[a|e] w1]; intros H.
  - left. now exists a, w1.
  - right. exists e. now inversion H.
Qed.





(* ===================================================================== *)
(** ** The file system under copies and removals                          *)
(* ===================================================================== *)

Lemma path_eqb_eq (p q : Path) : PurePath.eqb p q = true <-> p = q.
Proof.
  unfold PurePath.eqb.
  destruct (list_eq_dec string_dec p q); split; congruence.
Qed.

Lemma is_prefix_refl (p : Path) : PurePath.is_prefix p p = true.
Proof.
  induction p as [|a p IH]; simpl; [reflexivity|].
  now rewrite String.eqb_refl.
Qed.

Lemma fs_kept_refl (f : FS) : fs_kept f f.
Proof. intros q. split; eauto. Qed.

Lemma fs_kept_trans (f g h : FS) : fs_kept f g -> fs_kept g h -> fs_kept f h.
Proof.
  intros H1 H2 q. split.
  - intros c Hc. destruct (proj1 (H1 q) c Hc) as (c' & Hc').
    exact (proj1 (H2 q) c' Hc').
  - intros Hd. apply (proj2 (H2 q)). now apply (proj2 (H1 q)).
Qed.

Lemma fs_kept_exists (f f' : FS) (q : Path) :
  fs_kept f f' -> f q <> None -> f' q <> None.
Proof.
  intros H Hq. destruct (f q) as [[c|]|] eqn:E; [| |congruence].
  - destruct (proj1 (H q) c E) as (c' & ->). discriminate.
  - rewrite (proj2 (H q) E). discriminate.
Qed.

Lemma makedirs_kept (f f' : FS) (p : Path) :
  Files.makedirs f p = Ok f' -> fs_kept f f'.
Proof.
  unfold Files.makedirs.
  destruct (existsb (Files.is_file f) (Files.prefixes p)); [discriminate|].
  intros H. injection H as <-. intros q.
  split; [intros c Hq; exists c | intros Hq];
    destruct (PurePath.is_prefix q p); now rewrite Hq.
Qed.

Lemma copy2_kept (f f' : FS) (s d : Path) :
  Files.copy2 f s d = Ok f' -> fs_kept f f'.
Proof.
  unfold Files.copy2. destruct (f s) as [[c|]|]; try discriminate.
  set (target := if Files.is_dir f d then d // PurePath.name s else d).
  destruct (Files.is_dir f target) eqn:Ht; [discriminate|].
  destruct (PurePath.eqb s target); [discriminate|].
  destruct (Files.is_dir f (PurePath.parent target)); [|discriminate].
  intros H. injection H as <-. intros q. unfold Files.write.
  destruct (PurePath.eqb q target) eqn:E.
  - apply path_eqb_eq in E. subst q. split.
    + intros c0 _. now exists c.
    + intros Hd. unfold Files.is_dir in Ht. now rewrite Hd in Ht.
  - split; eauto.
Qed.

Lemma copytree_kept (f f' : FS) (s d : Path) :
  Files.copytree f s d = Ok f' -> fs_kept f f'.
Proof.
  unfold Files.copytree.
  destruct (negb (Files.is_dir f s)); [discriminate|].
  destruct (Files.exists_ f d); [discriminate|].
  destruct (Files.makedirs f d) as [f1|e] eqn:E; [|discriminate].
  simpl. intros H. injection H as <-.
  pose proof (makedirs_kept _ _ _ E) as K. intros q. split.
  - intros c Hq. destruct (proj1 (K q) c Hq) as (c' & Hc').
    exists c'. now rewrite Hc'.
  - intros Hq. now rewrite (proj2 (K q) Hq).
Qed.

Lemma copy2_source (f f' : FS) (s d : Path) :
  Files.copy2 f s d = Ok f' -> f s <> None.
Proof.
  unfold Files.copy2. destruct (f s); [discriminate | discriminate].
Qed.

Lemma copytree_source (f f' : FS) (s d : Path) :
  Files.copytree f s d = Ok f' -> f s = Some Dir.
Proof.
  unfold Files.copytree, Files.is_dir.
  destruct (f s) as [[c|]|]; simpl; try discriminate. reflexivity.
Qed.

(* ===================================================================== *)
(** ** The copy loop                                                      *)
(* ===================================================================== *)

(** Case analysis on the scrutinee of the first [match] or [if] of a
    hypothesis. *)
Ltac destruct_head H :=
  match type of H with
  | context [match ?c with _ => _ end] =>
      lazymatch c with
      | context [match _ with _ => _ end] => fail
      | _ => let E := fresh "E" in destruct c eqn:E
      end
  end.

Ltac solve_kept :=
  eauto using fs_kept_refl, fs_kept_trans, makedirs_kept, copy2_kept,
    copytree_kept.

Ltac solve_trace :=
  first [ symmetry; apply app_nil_r
        | rewrite <- ?app_assoc; reflexivity ].

Ltac solve_source :=
  first
    [ eapply fs_kept_exists;
      [ eapply copy2_kept; eassumption | eapply copy2_source; eassumption ]
    | match goal with
      | H : Files.copytree ?f ?s ?d = Ok ?f' |- ?f' ?s <> None =>
          rewrite (proj2 (copytree_kept _ _ _ _ H s)
                         (copytree_source _ _ _ _ H)); discriminate
      | H : Files.copytree ?f ?s ?d = Ok ?f' |- ?f' ?s = Some Dir =>
          exact (proj2 (copytree_kept _ _ _ _ H s)
                       (copytree_source _ _ _ _ H))
      | H : (?k =? "file") = true, K : ?k = "directory" |- _ =>
          apply String.eqb_eq in H; rewrite H in K; discriminate K
      end ].

Ltac solve_copy :=
  split; [reflexivity|]; split; [reflexivity|]; split; [solve_kept|];
  eexists; split; [solve_trace|]; split; [reflexivity|];
  repeat match goal with
         | |- _ /\ _ => split
         | |- _ -> _ => intro
         end;
  try reflexivity; try assumption; try discriminate; try solve_source.

Lemma copy_asset_spec (env : Env) (name : string) (x : Exportable)
      (w w' : World) (r : result ExportedAsset) :
  copy_asset env name x w = (r, w') ->
  exported_assets w' = exported_assets w
  /\ clock w' = clock w
  /\ fs_kept (fs w) (fs w')
  /\ exists tr,
      trace w' = trace w ++ tr
      /\ forallb copy_phase tr = true
      /\ match r with
         | Ok q =>
             interview_name q = name
             /\ asset_path q = path_of x
             /\ asset_tag q = tag_of x
             /\ asset_type q = type_of x
             /\ get_export_path env name x = Ok (asset_destination q)
             /\ (debug env = false ->
                 copied tr = [path_of x]
                 /\ fs w' (path_of x) <> None
                 /\ (type_of x = "directory" -> fs w' (path_of x) = Some Dir))
             /\ (debug env = true -> tr = [])
         | Raise e => copied tr = []
         end.
Proof.
  destruct x as [[[p kind] tier] tag]. unfold copy_asset.
  unfold bind, get_fs, mkdir_parents, copy2, copytree, bind, get_fs, lift,
    set_fs, emit, ret, raise.
  intros H. repeat (destruct_head H; simpl in H).
  all: injection H as <- <-; simpl.
  all: solve_copy.
Qed.

(** The copy loop: what it returns and what it did, whether it completed
    or stopped at an asset. *)
Lemma copy_assets_spec (env : Env) (name : string) (xs : list Exportable) :
  forall (qs : list ExportedAsset) (w w' : World)
         (r : result (list ExportedAsset)),
    copy_assets env name xs qs w = (r, w') ->
    exported_assets w' = exported_assets w
    /\ clock w' = clock w
    /\ fs_kept (fs w) (fs w')
    /\ exists tr,
        trace w' = trace w ++ tr
        /\ forallb copy_phase tr = true
        /\ match r with
           | Ok qs' =>
               exists recs,
                 qs' = qs ++ recs
                 /\ map asset_path recs = map path_of xs
                 /\ Forall (fun q => interview_name q = name) recs
                 /\ (debug env = false ->
                     copied tr = map path_of xs
                     /\ forall x, In x xs ->
                          fs w' (path_of x) <> None
                          /\ (type_of x = "directory" ->
                              fs w' (path_of x) = Some Dir))
                 /\ (debug env = true -> tr = [])
           | Raise e =>
               exists done x rest w1,
                 xs = done ++ x :: rest
                 /\ copy_asset env name x w1 = (Raise e, w')
                 /\ (debug env = false ->
                     copied tr = map path_of done
                     /\ forall y, In y done -> fs w' (path_of y) <> None)
           end.
Proof.
  induction xs as [|x xs IH]; intros qs w w' r H.
  - simpl in H. unfold ret in H. injection H as <- <-.
    split; [reflexivity|]. split; [reflexivity|].
    split; [apply fs_kept_refl|].
    exists []. rewrite app_nil_r. split; [reflexivity|].
    split; [reflexivity|].
    exists []. rewrite app_nil_r. split; [reflexivity|].
    split; [reflexivity|]. split; [constructor|].
    split; [|reflexivity].
    intros _. split; [reflexivity|]. intros y [].
  - simpl in H. apply bind_inv in H.
    destruct H as [(q & w1 & Hx & Hrest)|(e & Hx & ->)].
    + apply copy_asset_spec in Hx.
      destruct Hx as (L1 & C1 & K1 & tr1 & T1 & P1 & Hq).
      destruct Hq as (Qn & Qp & _ & _ & _ & Qd & Qt).
      apply IH in Hrest.
      destruct Hrest as (L2 & C2 & K2 & tr2 & T2 & P2 & Hr).
      split; [congruence|]. split; [congruence|].
      split; [eapply fs_kept_trans; eassumption|].
      exists (tr1 ++ tr2).
      split; [rewrite T2, T1; now rewrite app_assoc|].
      split; [rewrite forallb_app, P1, P2; reflexivity|].
      destruct r as [qs'|e].
      * destruct Hr as (recs & -> & Rp & Rn & Rd & Rt).
        exists (q :: recs).
        split; [now rewrite <- app_assoc|].
        split; [simpl; congruence|].
        split; [constructor; assumption|].
        split.
        -- intros Hdbg. destruct (Qd Hdbg) as (Qc & Qe & Qk).
           destruct (Rd Hdbg) as (Rc & Re).
           split.
           ++ unfold copied in *. rewrite flat_map_app, Qc, Rc. reflexivity.
           ++ intros y [<-|Hy]; [|now apply Re].
              split.
              ** eapply fs_kept_exists; eassumption.
              ** intros Hk. apply (proj2 (K2 (path_of x))). now apply Qk.
        -- intros Hdbg. now rewrite (Qt Hdbg), (Rt Hdbg).
      * destruct Hr as (done & y & rest & w2 & -> & Hy & Rd).
        exists (x :: done), y, rest, w2.
        split; [reflexivity|]. split; [assumption|].
        intros Hdbg. destruct (Qd Hdbg) as (Qc & Qe & _).
        destruct (Rd Hdbg) as (Rc & Re).
        split.
        -- unfold copied in *. rewrite flat_map_app, Qc, Rc. reflexivity.
        -- intros z [<-|Hz]; [|now apply Re].
           eapply fs_kept_exists; eassumption.
    + pose proof Hx as Hx'. apply copy_asset_spec in Hx.
      destruct Hx as (L1 & C1 & K1 & tr1 & T1 & P1 & Hc).
      split; [assumption|]. split; [assumption|]. split; [assumption|].
      exists tr1. split; [assumption|]. split; [assumption|].
      exists [], x, xs, w. split; [reflexivity|]. split; [assumption|].
      intros _. split; [assumption|]. intros y [].
Qed.

(* ===================================================================== *)
(** ** The clean-up loop                                                  *)
(* ===================================================================== *)

Lemma path_eqb_refl (p : Path) : PurePath.eqb p p = true.
Proof. now apply path_eqb_eq. Qed.

Lemma clean_up_asset_spec (env : Env) (x : Exportable) (w w' : World)
      (r : result unit) :
  clean_up_asset env x w = (r, w') ->
  exported_assets w' = exported_assets w
  /\ clock w' = clock w
  /\ (forall q, fs w q = None -> fs w' q = None)
  /\ (forall q,
         (tag_of x <> "frames" -> PurePath.is_prefix (path_of x) q = false) ->
         fs w' q = fs w q)
  /\ (exists tr, trace w' = trace w ++ tr /\ forallb delete_phase tr = true)
  /\ (r = Ok tt -> tag_of x <> "frames" -> fs w' (path_of x) = None).
Proof.
  destruct x as [[[p kind] tier] tag]. unfold clean_up_asset. simpl.
  destruct (String.eqb_spec tag "frames") as [Ht|Ht].
  { unfold ret. intros H. injection H as <- <-.
    split; [reflexivity|]. split; [reflexivity|]. split; [tauto|].
    split; [reflexivity|]. split; [|tauto].
    exists []. now rewrite app_nil_r. }
  unfold bind, get_fs, unlink, rmtree, bind, get_fs, lift, set_fs, emit,
    ret, raise, Files.unlink, Files.rmtree.
  destruct (Files.is_file (fs w) p) eqn:Hf.
  - destruct (delete_fails env p).
    + intros H. injection H as <- <-.
      split; [reflexivity|]. split; [reflexivity|]. split; [tauto|].
      split; [reflexivity|]. split; [|discriminate].
      exists []. now rewrite app_nil_r.
    + rewrite Hf. simpl. intros H. injection H as <- <-. simpl.
      split; [reflexivity|]. split; [reflexivity|]. unfold Files.write.
      split; [|split; [|split]].
      * intros q Hq. now destruct (PurePath.eqb q p).
      * intros q Hq. destruct (PurePath.eqb q p) eqn:E; [|reflexivity].
        apply path_eqb_eq in E. subst q.
        rewrite is_prefix_refl in Hq. now discriminate (Hq Ht).
      * eexists. split; [reflexivity | reflexivity].
      * intros _ _. now rewrite path_eqb_refl.
  - destruct (Files.is_dir (fs w) p) eqn:Hd.
    + destruct (delete_fails env p).
      * intros H. injection H as <- <-.
        split; [reflexivity|]. split; [reflexivity|]. split; [tauto|].
        split; [reflexivity|]. split; [|discriminate].
        exists []. now rewrite app_nil_r.
      * rewrite Hd. simpl. intros H. injection H as <- <-. simpl.
        split; [reflexivity|]. split; [reflexivity|].
        split; [|split; [|split]].
        -- intros q Hq. now destruct (PurePath.is_prefix p q).
        -- intros q Hq. now rewrite (Hq Ht).
        -- eexists. split; [reflexivity | reflexivity].
        -- intros _ _. now rewrite is_prefix_refl.
    + intros H. injection H as <- <-.
      split; [reflexivity|]. split; [reflexivity|].
      split; [tauto|]. split; [reflexivity|]. split.
      * exists []. now rewrite app_nil_r.
      * intros _ _. unfold Files.is_file in Hf. unfold Files.is_dir in Hd.
        destruct (fs w p) as [[c|]|]; [discriminate | discriminate | reflexivity].
Qed.

(** The clean-up loop removes, touches nothing outside the sources that are
    not frame directories, and, when it completes, leaves none of these
    sources behind. *)
Lemma clean_up_spec (env : Env) (xs : list Exportable) :
  forall (w w' : World) (r : result unit),
    clean_up env xs w = (r, w') ->
    exported_assets w' = exported_assets w
    /\ clock w' = clock w
    /\ (forall q, fs w q = None -> fs w' q = None)
    /\ (forall q,
           (forall x, In x xs -> tag_of x <> "frames" ->
                      PurePath.is_prefix (path_of x) q = false) ->
           fs w' q = fs w q)
    /\ (exists tr, trace w' = trace w ++ tr /\ forallb delete_phase tr = true)
    /\ (r = Ok tt ->
        forall x, In x xs -> tag_of x <> "frames" -> fs w' (path_of x) = None).
Proof.
  induction xs as [|x xs IH]; intros w w' r H; simpl in H.
  - unfold ret in H. injection H as <- <-.
    split; [reflexivity|]. split; [reflexivity|]. split; [tauto|].
    split; [reflexivity|]. split.
    + exists []. now rewrite app_nil_r.
    + intros _ y [].
  - apply bind_inv in H.
    destruct H as [([] & w1 & Hx & Hrest)|(e & Hx & ->)].
    + apply clean_up_asset_spec in Hx.
      destruct Hx as (L1 & C1 & N1 & U1 & (tr1 & T1 & P1) & G1).
      apply IH in Hrest.
      destruct Hrest as (L2 & C2 & N2 & U2 & (tr2 & T2 & P2) & G2).
      split; [congruence|]. split; [congruence|].
      split; [intros q Hq; now apply N2, N1|].
      split; [|split].
      * intros q Hq. rewrite U2, U1; [reflexivity| |].
        -- intros Ht. apply Hq; [now left | assumption].
        -- intros y Hy Ht. apply Hq; [now right | assumption].
      * exists (tr1 ++ tr2). rewrite T2, T1, app_assoc, forallb_app, P1, P2.
        split; reflexivity.
      * intros -> y [<-|Hy] Ht.
        -- apply N2. now apply G1.
        -- now apply G2.
    + apply clean_up_asset_spec in Hx.
      destruct Hx as (L1 & C1 & N1 & U1 & T1 & G1).
      split; [assumption|]. split; [assumption|]. split; [assumption|].
      split; [|split; [assumption | discriminate]].
      intros q Hq. apply U1. intros Ht. apply Hq; [now left | assumption].
Qed.

(* ===================================================================== *)
(** ** The export of one interview                                        *)
(* ===================================================================== *)

(** The three phases of [export_interview], whatever its outcome: the copy
    loop, then, if it completed outside of debug mode and the transaction
    went through, the one write of all the records, then the clean-up. *)
Lemma export_interview_phases (env : Env) (name : string) (w w' : World)
      (r : result unit) :
  export_interview env name w = (r, w') ->
  exists rc w1 copies writes deletes,
    copy_assets env name (get_pipeline_exports env name (fs w)) [] w = (rc, w1)
    /\ trace w1 = trace w ++ copies
    /\ trace w' = trace w ++ copies ++ writes ++ deletes
    /\ forallb copy_phase copies = true
    /\ forallb delete_phase deletes = true
    /\ clock w' = clock w
    /\ ((writes = [] /\ deletes = [] /\ w' = w1
         /\ exported_assets w' = exported_assets w
         /\ (r = Ok tt -> debug env = true))
        \/ (exists qs,
               rc = Ok qs /\ debug env = false
               /\ writes = [EvExecuteQueries qs]
               /\ exported_assets w' = exported_assets w ++ qs
               /\ (forall q, fs w1 q = None -> fs w' q = None)
               /\ (forall q,
                      (forall x,
                          In x (get_pipeline_exports env name (fs w)) ->
                          tag_of x <> "frames" ->
                          PurePath.is_prefix (path_of x) q = false) ->
                      fs w' q = fs w1 q)
               /\ (r = Ok tt ->
                   forall x,
                     In x (get_pipeline_exports env name (fs w)) ->
                     tag_of x <> "frames" -> fs w' (path_of x) = None))).
Proof.
  unfold export_interview. unfold bind at 1. unfold get_fs at 1.
  set (xs := get_pipeline_exports env name (fs w)).
  intros H. apply bind_inv in H.
  destruct H as [(qs & w1 & Hc & H)|(e & Hc & ->)].
  - pose proof (copy_assets_spec env name xs [] w w1 (Ok qs) Hc) as S.
    destruct S as (L1 & C1 & K1 & copies & T1 & P1 & _).
    exists (Ok qs), w1, copies.
    destruct (debug env) eqn:Hdbg.
    + unfold ret in H. injection H as <- <-.
      exists [], []. rewrite !app_nil_r.
      split; [assumption|]. split; [assumption|]. split; [assumption|].
      split; [assumption|]. split; [reflexivity|]. split; [assumption|].
      left. repeat split; auto.
    + apply bind_inv in H.
      destruct H as [([] & w2 & Hq & H)|(e & Hq & ->)].
      * unfold execute_queries in Hq.
        destruct (execute_fails env qs); [discriminate|].
        injection Hq as <-.
        apply clean_up_spec in H. simpl in H.
        destruct H as (L2 & C2 & N2 & U2 & (deletes & T2 & P2) & G2).
        exists [EvExecuteQueries qs], deletes.
        split; [assumption|]. split; [assumption|].
        split; [rewrite T2, T1; now rewrite <- !app_assoc|].
        split; [assumption|]. split; [assumption|].
        split; [congruence|].
        right. exists qs.
        split; [reflexivity|]. split; [reflexivity|]. split; [reflexivity|].
        split; [congruence|]. split; [assumption|]. split; assumption.
      * unfold execute_queries in Hq.
        destruct (execute_fails env qs); [|discriminate].
        injection Hq as <- <-.
        exists [], []. rewrite !app_nil_r.
        split; [assumption|]. split; [assumption|]. split; [assumption|].
        split; [assumption|]. split; [reflexivity|]. split; [assumption|].
        left. repeat split; auto; try discriminate.
  - pose proof (copy_assets_spec env name xs [] w w' (Raise e) Hc) as S.
    destruct S as (L1 & C1 & K1 & copies & T1 & P1 & _).
    exists (Raise e), w', copies, [], []. rewrite !app_nil_r.
    split; [assumption|]. split; [assumption|]. split; [assumption|].
    split; [assumption|]. split; [reflexivity|]. split; [assumption|].
    left. repeat split; auto; try discriminate.
Qed.

Lemma removed_app (a b : list Event) : removed (a ++ b) = removed a ++ removed b.
Proof. unfold removed. apply flat_map_app. Qed.

(** What the clean-up removes: sources of assets that are not frame
    directories. *)
Lemma clean_up_asset_removed (env : Env) (x : Exportable) (w w' : World)
      (r : result unit) :
  clean_up_asset env x w = (r, w') ->
  exists tr,
    trace w' = trace w ++ tr
    /\ forall p, In p (removed tr) -> tag_of x <> "frames" /\ path_of x = p.
Proof.
  destruct x as [[[p kind] tier] tag]. unfold clean_up_asset. simpl.
  destruct (String.eqb_spec tag "frames") as [Ht|Ht].
  { unfold ret. intros H. injection H as <- <-.
    exists []. rewrite app_nil_r. split; [reflexivity | intros q []]. }
  unfold bind, get_fs, unlink, rmtree, bind, get_fs, lift, set_fs, emit,
    ret, raise.
  intros H. repeat (destruct_head H; simpl in H).
  all: injection H as <- <-; simpl.
  all: first [ exists []; rewrite app_nil_r; split;
               [reflexivity | intros q []]
             | eexists; split; [reflexivity|]; simpl;
               intros q [<-|[]]; split; [assumption | reflexivity] ].
Qed.

Lemma clean_up_removed (env : Env) (xs : list Exportable) :
  forall (w w' : World) (r : result unit),
    clean_up env xs w = (r, w') ->
    exists tr,
      trace w' = trace w ++ tr
      /\ forall p,
          In p (removed tr) ->
          exists x, In x xs /\ tag_of x <> "frames" /\ path_of x = p.
Proof.
  induction xs as [|x xs IH]; intros w w' r H; simpl in H.
  - unfold ret in H. injection H as <- <-.
    exists []. rewrite app_nil_r. split; [reflexivity | intros p []].
  - apply bind_inv in H.
    destruct H as [([] & w1 & Hx & Hrest)|(e & Hx & ->)].
    + apply clean_up_asset_removed in Hx. destruct Hx as (tr1 & T1 & R1).
      apply IH in Hrest. destruct Hrest as (tr2 & T2 & R2).
      exists (tr1 ++ tr2). split; [rewrite T2, T1; now rewrite app_assoc|].
      intros p Hp. rewrite removed_app in Hp. apply in_app_or in Hp.
      destruct Hp as [Hp|Hp].
      * exists x. split; [now left | now apply R1].
      * destruct (R2 p Hp) as (y & Hy & Hty). exists y.
        split; [now right | assumption].
    + apply clean_up_asset_removed in Hx. destruct Hx as (tr1 & T1 & R1).
      exists tr1. split; [assumption|].
      intros p Hp. exists x. split; [now left | now apply R1].
Qed.

(** C3. The export of an interview performs its effects in three phases,
    in this order: the copies (with the directories they need), then the
    write of the ledger, then the removals.  When the copy loop stops on an
    asset, nothing is written and nothing is removed.  When it completes,
    every asset has been copied, and, outside of debug mode, the records of
    all the assets are written at once, in one transaction: if it fails,
    the ledger is unchanged and nothing is removed; if it goes through, the
    ledger is extended by the whole batch, and only then the clean-up runs,
    which removes nothing but sources of the assets that are not frame
    directories and, when it completes, leaves none of these sources
    behind. *)
Theorem copy_then_ledger_then_delete :
  forall (env : Env) (name : string) (w : World),
    let xs := get_pipeline_exports env name (fs w) in
    let copy := copy_assets env name xs [] w in
    let run := export_interview env name w in
    exists copies writes deletes,
      trace (snd copy) = trace w ++ copies
      /\ trace (snd run) = trace w ++ copies ++ writes ++ deletes
      /\ forallb copy_phase copies = true
      /\ forallb delete_phase deletes = true
      /\ match fst copy with
         | Raise e =>
             fst run = Raise e
             /\ writes = [] /\ deletes = []
             /\ exported_assets (snd run) = exported_assets w
         | Ok qs =>
             map asset_path qs = map path_of xs
             /\ Forall (fun q => interview_name q = name) qs
             /\ if debug env then
                  fst run = Ok tt
                  /\ copies = [] /\ writes = [] /\ deletes = []
                  /\ exported_assets (snd run) = exported_assets w
                else
                  copied copies = map path_of xs
                  /\ if execute_fails env qs then
                       fst run = Raise DatabaseError
                       /\ writes = [] /\ deletes = []
                       /\ exported_assets (snd run) = exported_assets w
                     else
                       writes = [EvExecuteQueries qs]
                       /\ exported_assets (snd run) = exported_assets w ++ qs
                       /\ (exists w2,
                              execute_queries env qs (snd copy) = (Ok tt, w2)
                              /\ clean_up env xs w2 = run)
                       /\ (forall p,
                              In p (removed deletes) ->
                              exists x,
                                In x xs /\ tag_of x <> "frames"
                                /\ path_of x = p)
                       /\ (fst run = Ok tt ->
                           forall x,
                             In x xs -> tag_of x <> "frames" ->
                             fs (snd run) (path_of x) = None)
         end.
Proof.
  intros env name w xs copy run. subst copy run.
  destruct (copy_assets env name xs [] w) as [rc w1] eqn:Hc.
  assert (Hrun : export_interview env name w
                 = match rc with
                   | Ok qs =>
                       if debug env then (Ok tt, w1)
                       else bind (execute_queries env qs)
                                 (fun _ => clean_up env xs) w1
                   | Raise e => (Raise e, w1)
                   end).
  { unfold export_interview. unfold bind at 1. unfold get_fs at 1.
    fold xs. unfold bind at 1. rewrite Hc.
    destruct rc as [qs|e]; [|reflexivity].
    now destruct (debug env). }
  pose proof (copy_assets_spec env name xs [] w w1 rc Hc) as S.
  destruct S as (L1 & C1 & K1 & copies & T1 & P1 & Hr).
  simpl fst. simpl snd. exists copies.
  destruct rc as [qs|e].
  - destruct Hr as (recs & E & Rp & Rn & Rd & Rt). simpl in E. subst recs.
    destruct (debug env) eqn:Hdbg.
    + rewrite Hrun. exists [], []. rewrite !app_nil_r. simpl.
      rewrite (Rt eq_refl) in *. repeat split; auto.
    + destruct (Rd eq_refl) as (Rc & _).
      unfold bind, execute_queries in Hrun.
      destruct (execute_fails env qs) eqn:Hx.
      * rewrite Hrun. exists [], []. rewrite !app_nil_r. simpl.
        repeat split; auto.
      * destruct (export_interview env name w) as [r w'] eqn:Hexp.
        symmetry in Hrun.
        pose proof (clean_up_spec env xs _ _ _ Hrun) as S2.
        destruct S2 as (L2 & C2 & N2 & U2 & (deletes & T2 & P2) & G2).
        pose proof (clean_up_removed env xs _ _ _ Hrun) as (tr & T3 & R3).
        simpl in L2, T2, T3.
        assert (tr = deletes).
        { rewrite T2 in T3. now apply app_inv_head in T3. }
        subst tr.
        exists [EvExecuteQueries qs], deletes. simpl.
        split; [assumption|].
        split; [rewrite T2, T1; now rewrite <- !app_assoc|].
        split; [assumption|]. split; [assumption|].
        split; [assumption|]. split; [assumption|]. split; [assumption|].
        split; [reflexivity|]. split; [congruence|].
        split; [|split; [assumption|]].
        -- eexists. split; [|exact Hrun].
           unfold execute_queries. now rewrite Hx.
        -- intros ->. exact (G2 eq_refl).
  - rewrite Hrun. exists [], []. rewrite !app_nil_r. simpl.
    repeat split; auto.
Qed.

Lemma copy_then_ledger_then_delete_witness :
  exists copies deletes qs,
    trace (snd (export_interview (Demo.env false "") Demo.yy2 Demo.world0))
    = trace Demo.world0 ++ copies ++ [EvExecuteQueries qs] ++ deletes
    /\ copied copies
       = [PurePath.of_str
            "/data/processed/decrypted/BostonB/YY2/streams/stream_1.mp4"]
    /\ map asset_path qs
       = [PurePath.of_str
            "/data/processed/decrypted/BostonB/YY2/streams/stream_1.mp4"]
    /\ exported_assets
         (snd (export_interview (Demo.env false "") Demo.yy2 Demo.world0))
       = exported_assets Demo.world0 ++ qs
    /\ forallb delete_phase deletes = true
    /\ fs (snd (export_interview (Demo.env false "") Demo.yy2 Demo.world0))
          (PurePath.of_str
             "/data/processed/decrypted/BostonB/YY2/streams/stream_1.mp4")
       = None.
Proof.
  assert (E : get_pipeline_exports (Demo.env false "") Demo.yy2
                (fs Demo.world0)
              = [ (PurePath.of_str
                     "/data/processed/decrypted/BostonB/YY2/streams/stream_1.mp4",
                   "file", "PROTECTED", "streams") ])
    by (vm_compute; reflexivity).
  assert (Hok : fst (export_interview (Demo.env false "") Demo.yy2
                       Demo.world0) = Ok tt)
    by (vm_compute; reflexivity).
  pose proof (copy_then_ledger_then_delete (Demo.env false "") Demo.yy2
                Demo.world0) as H.
  cbv zeta in H.
  destruct H as (copies & writes & deletes & _ & T & _ & P2 & H).
  destruct (fst (copy_assets (Demo.env false "") Demo.yy2
                   (get_pipeline_exports (Demo.env false "") Demo.yy2
                      (fs Demo.world0)) [] Demo.world0))
    as [qs|e] eqn:Hf;
    [|vm_compute in Hf; discriminate Hf].
  destruct H as (Hp & _ & H).
  change (debug (Demo.env false "")) with false in H. cbv iota in H.
  destruct H as (Hc & H).
  change (execute_fails (Demo.env false "") qs) with false in H.
  cbv iota in H.
  destruct H as (-> & L & _ & _ & G).
  exists copies, deletes, qs. rewrite E in Hp, Hc.
  split; [exact T|]. split; [exact Hc|]. split; [exact Hp|].
  split; [exact L|]. split; [exact P2|].
  apply (G Hok (PurePath.of_str
                  "/data/processed/decrypted/BostonB/YY2/streams/stream_1.mp4",
                "file", "PROTECTED", "streams")).
  - rewrite E. left. reflexivity.
  - discriminate.
Defined.

(** C2. When the copy loop of an interview stops on an asset (the copy
    fails, or the destination cannot be resolved, or the kind is unknown),
    the export stops there with the same exception: the ledger is unchanged,
    nothing but copies has been performed, every path that existed still
    exists, and in particular the sources of the assets copied before the
    failing one are still there. *)
Theorem failed_transfer_writes_and_deletes_nothing :
  forall (env : Env) (name : string) (w w1 : World) (e : exn),
    copy_assets env name (get_pipeline_exports env name (fs w)) [] w
    = (Raise e, w1) ->
    export_interview env name w = (Raise e, w1)
    /\ exported_assets w1 = exported_assets w
    /\ (forall q, fs w q <> None -> fs w1 q <> None)
    /\ exists tr done x rest,
        trace w1 = trace w ++ tr
        /\ forallb copy_phase tr = true
        /\ get_pipeline_exports env name (fs w) = done ++ x :: rest
        /\ (debug env = false ->
            copied tr = map path_of done
            /\ forall y, In y done -> fs w1 (path_of y) <> None).
Proof.
  intros env name w w1 e H. split.
  - unfold export_interview. unfold bind at 1. unfold get_fs at 1.
    now apply bind_raise.
  - apply copy_assets_spec in H.
    destruct H as (L & _ & K & tr & T & P & done & x & rest & w0 & E & _ & D).
    split; [assumption|].
    split; [intros q; now apply fs_kept_exists|].
    exists tr, done, x, rest. auto.
Qed.

Lemma failed_transfer_witness :
  export_interview (Demo.env false Demo.stream_2) Demo.xx1 Demo.world0
  = (Raise OSError,
     snd (copy_assets (Demo.env false Demo.stream_2) Demo.xx1
            (get_pipeline_exports (Demo.env false Demo.stream_2) Demo.xx1
               (fs Demo.world0)) [] Demo.world0))
  /\ exported_assets
       (snd (copy_assets (Demo.env false Demo.stream_2) Demo.xx1
               (get_pipeline_exports (Demo.env false Demo.stream_2) Demo.xx1
                  (fs Demo.world0)) [] Demo.world0))
     = exported_assets Demo.world0.
Proof.
  assert (Hrun : copy_assets (Demo.env false Demo.stream_2) Demo.xx1
                   (get_pipeline_exports (Demo.env false Demo.stream_2)
                      Demo.xx1 (fs Demo.world0)) [] Demo.world0
                 = (Raise OSError,
                    snd (copy_assets (Demo.env false Demo.stream_2) Demo.xx1
                           (get_pipeline_exports
                              (Demo.env false Demo.stream_2) Demo.xx1
                              (fs Demo.world0)) [] Demo.world0))).
  { pose proof (surjective_pairing
                  (copy_assets (Demo.env false Demo.stream_2) Demo.xx1
                     (get_pipeline_exports (Demo.env false Demo.stream_2)
                        Demo.xx1 (fs Demo.world0)) [] Demo.world0)) as Hp.
    assert (Hf : fst (copy_assets (Demo.env false Demo.stream_2) Demo.xx1
                        (get_pipeline_exports (Demo.env false Demo.stream_2)
                           Demo.xx1 (fs Demo.world0)) [] Demo.world0)
                 = Raise OSError)
      by (vm_compute; reflexivity).
    rewrite Hf in Hp. exact Hp. }
  pose proof (failed_transfer_writes_and_deletes_nothing
                (Demo.env false Demo.stream_2) Demo.xx1 Demo.world0 _
                OSError Hrun) as H.
  exact (conj (proj1 H) (proj1 (proj2 H))).
Defined.

(** The asset tagged ["frames"] is the frame directory that
    [get_pipeline_frames] found on the file system. *)
Lemma frames_export (env : Env) (name : string) (f : FS) (x : Exportable) :
  In x (get_pipeline_exports env name f) ->
  tag_of x = "frames" ->
  type_of x = "directory" /\ f (path_of x) <> None.
Proof.
  unfold get_pipeline_exports. intros Hin Ht.
  apply in_app_or in Hin. destruct Hin as [Hin|Hin].
  - destruct (get_pipeline_frames env name f) as [fr|] eqn:Hf.
    + apply in_app_or in Hin. destruct Hin as [Hin|[<-|[]]].
      * apply in_map_iff in Hin. destruct Hin as (s & <- & _).
        discriminate Ht.
      * split; [reflexivity|]. simpl.
        unfold get_pipeline_frames in Hf.
        destruct (video_path env name) as [v|]; [|discriminate].
        destruct (String.eqb v ""); [discriminate|].
        match type of Hf with
        | (if Files.exists_ f ?p then _ else _) = _ =>
            destruct (Files.exists_ f p) eqn:He; [|discriminate]
        end.
        injection Hf as <-. unfold Files.exists_ in He.
        intros Hn. now rewrite Hn in He.
    + apply in_map_iff in Hin. destruct Hin as (s & <- & _).
      discriminate Ht.
  - apply in_map_iff in Hin. destruct Hin as (s & <- & _).
    discriminate Ht.
Qed.

(* ===================================================================== *)
(** ** The selection query                                                *)
(* ===================================================================== *)

Lemma fetch_random_none (r : nat) (rows : list string) :
  Sql.fetch_random r rows = None <-> rows = [].
Proof.
  unfold Sql.fetch_random. split.
  - intros H. destruct rows as [|x rows]; [reflexivity|].
    apply nth_error_None in H.
    pose proof (Nat.mod_upper_bound r (List.length (x :: rows))) as B.
    simpl in *. lia.
  - intros ->. now destruct r.
Qed.

Lemma fetch_random_in (r : nat) (rows : list string) (n : string) :
  Sql.fetch_random r rows = Some n -> In n rows.
Proof. unfold Sql.fetch_random. apply nth_error_In. Qed.


(** The rows of the selection query are reports of the study that have no
    row in the ledger. *)
Lemma ready_in (pdf : list string) (lof : list (string * string))
      (ledger : list ExportedAsset) (s n : string) :
  In n (Sql.ready pdf lof ledger s) ->
  In n pdf /\ In (n, s) lof /\ ~ In n (map interview_name ledger).
Proof.
  unfold Sql.ready. intros H. apply in_map_iff in H.
  destruct H as ([n' o] & E & H). simpl in E. subst n'.
  apply filter_In in H. destruct H as [Hj Hc].
  apply andb_true_iff in Hc. destruct Hc as [Hs Hl]. simpl in Hs, Hl.
  unfold Sql.left_join in Hj. apply in_flat_map in Hj.
  destruct Hj as (m & Hm & Hj).
  assert (Hrow : n = m /\ forall s', o = Some s' -> In (n, s') lof).
  { destruct (filter (fun r => String.eqb (fst r) m) lof) as [|r0 ms] eqn:F.
    - destruct Hj as [Hj|[]]. injection Hj as <- <-.
      split; [reflexivity | discriminate].
    - rewrite <- F in Hj. apply in_map_iff in Hj.
      destruct Hj as ([a b] & Hj & Hin). simpl in Hj. injection Hj as <- <-.
      apply filter_In in Hin. destruct Hin as [Hin Ha]. simpl in Ha.
      apply String.eqb_eq in Ha. subst a.
      split; [reflexivity|]. intros s' Hs'. now injection Hs' as <-. }
  destruct Hrow as [-> Hlof].
  split; [assumption|]. split.
  - apply Hlof. unfold Sql.eq_text in Hs. destruct o as [x|]; [|discriminate].
    apply String.eqb_eq in Hs. now subst x.
  - unfold Sql.not_in_ledger in Hl. apply negb_true_iff in Hl.
    now apply mem_false in Hl.
Qed.

Lemma get_interview_name_to_process_eq (env : Env) (s : string) (w : World) :
  get_interview_name_to_process env s w
  = (Ok (found_in env w s), selected w s (found_in env w s)).
Proof. reflexivity. Qed.

(** Exactly once: an interview with a row in the ledger is not selected. *)
Lemma found_not_exported (env : Env) (w : World) (s I : string) :
  In I (map interview_name (exported_assets w)) ->
  found_in env w s <> Some I.
Proof.
  intros Hin Hf. apply fetch_random_in in Hf. apply ready_in in Hf.
  now destruct Hf as (_ & _ & Hn).
Qed.

(* ===================================================================== *)
(** ** One turn of the loop                                               *)
(* ===================================================================== *)

Lemma getitem_last_first (A : Type) (l : list A) (a : A) :
  getitem_last l = Ok a -> exists b, getitem l 0 = Ok b.
Proof. destruct l as [|b l]; [discriminate|]. intros _. now exists b. Qed.

(** The four ways a turn of the loop can go: the idle transition, the move
    to the next study, an error of the scheduler itself, and the export of
    the interview found. *)
Lemma loop_body_cases (env : Env) (st : LoopState) (w w' : World)
      (r : result LoopState) :
  loop_body env st w = (r, w') ->
  (found_in env w (study_id st) = None
   /\ getitem_last (studies env) = Ok (study_id st)
   /\ exported_assets w' = exported_assets w
   /\ clock w' = S (clock w)
   /\ exists first,
       getitem (studies env) 0 = Ok first
       /\ r = Ok {| study_id := first; COUNTER := 0 |}
       /\ trace w'
          = trace w
              ++ EvSelect (study_id st) None
                   :: report (COUNTER st) ++ [EvSnooze; EvRestart first])
  \/ (found_in env w (study_id st) = None
      /\ exported_assets w' = exported_assets w
      /\ clock w' = S (clock w)
      /\ exists last_study idx next,
          getitem_last (studies env) = Ok last_study
          /\ study_id st <> last_study
          /\ PyStr.index (study_id st) (studies env) = Ok idx
          /\ getitem (studies env) (idx + 1) = Ok next
          /\ r = Ok {| study_id := next; COUNTER := COUNTER st |}
          /\ trace w' = trace w ++ [EvSelect (study_id st) None; EvSwitch next])
  \/ (found_in env w (study_id st) = None
      /\ exported_assets w' = exported_assets w
      /\ clock w' = S (clock w)
      /\ exists e,
          r = Raise e
          /\ (getitem_last (studies env) = Raise e
              \/ (getitem_last (studies env) <> Ok (study_id st)
                  /\ (PyStr.index (study_id st) (studies env) = Raise e
                      \/ exists idx,
                          PyStr.index (study_id st) (studies env) = Ok idx
                          /\ getitem (studies env) (idx + 1) = Raise e)))
          /\ trace w' = trace w ++ [EvSelect (study_id st) None])
  \/ (exists name rx,
         found_in env w (study_id st) = Some name
         /\ export_interview env name
              (selected w (study_id st) (Some name)) = (rx, w')
         /\ r = match rx with
                | Ok _ => Ok {| study_id := study_id st;
                                COUNTER := COUNTER st + 1 |}
                | Raise e => Raise e
                end).
Proof.
  unfold loop_body. unfold bind at 1.
  rewrite get_interview_name_to_process_eq.
  destruct (found_in env w (study_id st)) as [name|] eqn:Hf.
  - intros H. right; right; right.
    unfold bind in H.
    destruct (export_interview env name (selected w (study_id st) (Some name)))
      as [[[]|e] w1] eqn:Hx.
    + unfold ret in H. injection H as <- <-. exists name, (Ok tt). auto.
    + injection H as <- <-. exists name, (Raise e). auto.
  - unfold bind at 1. unfold lift at 1.
    destruct (getitem_last (studies env)) as [last_study|e] eqn:Hl.
    2:{ intros H. injection H as <- <-. right; right; left.
        split; [reflexivity|]. split; [reflexivity|]. split; [reflexivity|].
        exists e.
        split; [reflexivity|]. split; [now left | reflexivity]. }
    destruct (String.eqb_spec (study_id st) last_study) as [E|E].
    + subst last_study. destruct (getitem_last_first _ _ _ Hl) as (first & H0).
      intros H. left. split; [reflexivity|]. split; [reflexivity|].
      unfold bind, lift, emit, ret, report in *. rewrite H0 in H.
      destruct (Nat.ltb 0 (COUNTER st)) eqn:Hc; simpl in H.
      * injection H as <- <-. simpl.
        split; [reflexivity|]. split; [reflexivity|].
        exists first. split; [exact H0|]. split; [reflexivity|].
        now rewrite <- !app_assoc.
      * injection H as <- <-. simpl.
        split; [reflexivity|]. split; [reflexivity|].
        exists first. split; [exact H0|]. split.
        -- apply Nat.ltb_ge in Hc.
           assert (Z : COUNTER st = 0) by lia. now rewrite Z.
        -- now rewrite <- !app_assoc.
    + unfold bind, lift, emit, ret.
      destruct (PyStr.index (study_id st) (studies env)) as [idx|e] eqn:Hi.
      2:{ intros H. injection H as <- <-. right; right; left.
          split; [reflexivity|]. split; [reflexivity|]. split; [reflexivity|].
          exists e. split; [reflexivity|]. split; [|reflexivity].
          right. split; [congruence | now left]. }
      destruct (getitem (studies env) (idx + 1)) as [next|e] eqn:Hn.
      2:{ intros H. injection H as <- <-. right; right; left.
          split; [reflexivity|]. split; [reflexivity|]. split; [reflexivity|].
          exists e. split; [reflexivity|]. split; [|reflexivity].
          right. split; [congruence|]. right. now exists idx. }
      intros H. injection H as <- <-. right; left. simpl.
      split; [reflexivity|]. split; [reflexivity|]. split; [reflexivity|].
      exists last_study, idx, next.
      repeat (split; [first [reflexivity | assumption]|]).
      now rewrite <- app_assoc.
Qed.

Lemma snoozes_app (a b : list Event) : snoozes (a ++ b) = snoozes a + snoozes b.
Proof. unfold snoozes. now rewrite filter_app, length_app. Qed.


Lemma export_events_app (a b : list Event) :
  forallb export_event (a ++ b) = forallb export_event a && forallb export_event b.
Proof. apply forallb_app. Qed.

Lemma copy_phase_export (tr : list Event) :
  forallb copy_phase tr = true -> forallb export_event tr = true.
Proof.
  intros H. apply forallb_forall. intros e He.
  apply (proj1 (forallb_forall _ _) H) in He. now destruct e.
Qed.

Lemma delete_phase_export (tr : list Event) :
  forallb delete_phase tr = true -> forallb export_event tr = true.
Proof.
  intros H. apply forallb_forall. intros e He.
  apply (proj1 (forallb_forall _ _) H) in He. now destruct e.
Qed.

(** The events of an export are no events of the scheduler. *)
Lemma export_events_quiet (tr : list Event) :
  forallb export_event tr = true ->
  snoozes tr = 0 /\ advances tr = 0
  /\ forall s found, ~ In (EvSelect s found) tr.
Proof.
  induction tr as [|e tr IH]; simpl; intros H.
  - repeat split. intros s found [].
  - apply andb_true_iff in H. destruct H as [He H].
    destruct (IH H) as (S1 & A1 & N1).
    unfold snoozes, advances in *. simpl.
    destruct e; try discriminate He; simpl; repeat split; try assumption;
      intros s found [C|C]; try discriminate C; now apply (N1 s found).
Qed.

(** What an export leaves behind, whatever its outcome: rows of the
    interview added to the ledger, and export events added to the trace. *)
Lemma export_interview_frame (env : Env) (name : string) (w w' : World)
      (r : result unit) :
  export_interview env name w = (r, w') ->
  exists qs tr,
    exported_assets w' = exported_assets w ++ qs
    /\ Forall (fun q => interview_name q = name) qs
    /\ trace w' = trace w ++ tr
    /\ forallb export_event tr = true
    /\ clock w' = clock w
    /\ (r = Ok tt -> debug env = false ->
        map asset_path qs = map path_of (get_pipeline_exports env name (fs w))).
Proof.
  intros H. apply export_interview_phases in H.
  destruct H as (rc & w1 & copies & writes & deletes
                 & Hc & T1 & T & P1 & P2 & C & Hw).
  destruct Hw as [(-> & -> & _ & L & D)|(qs & -> & Hdbg & -> & L & _)].
  - exists [], copies. rewrite !app_nil_r in *.
    split; [assumption|]. split; [constructor|]. split; [assumption|].
    split; [now apply copy_phase_export|]. split; [assumption|].
    intros E Hd. rewrite (D E) in Hd. discriminate Hd.
  - exists qs, (copies ++ [EvExecuteQueries qs] ++ deletes).
    apply copy_assets_spec in Hc.
    destruct Hc as (_ & _ & _ & _ & _ & _ & recs & E & Rp & Rn & _).
    simpl in E. subst recs.
    split; [assumption|]. split; [assumption|]. split; [assumption|].
    split.
    + rewrite !export_events_app, (copy_phase_export _ P1),
        (delete_phase_export _ P2). reflexivity.
    + split; [assumption|]. intros _ _. assumption.
Qed.

(** A turn of the loop asks the selection query once, first; it only adds
    to the ledger. *)
Lemma loop_body_frame (env : Env) (st : LoopState) (w w' : World)
      (r : result LoopState) :
  loop_body env st w = (r, w') ->
  exists tr qs,
    trace w'
    = trace w ++ EvSelect (study_id st) (found_in env w (study_id st)) :: tr
    /\ (forall s found, ~ In (EvSelect s found) tr)
    /\ exported_assets w' = exported_assets w ++ qs.
Proof.
  intros H. apply loop_body_cases in H.
  destruct H as [(F & _ & L & _ & first & _ & _ & T)
                |[(F & L & _ & l & i & n & _ & _ & _ & _ & _ & T)
                 |[(F & L & _ & e & _ & _ & T)
                  |(name & rx & F & Hx & _)]]].
  - rewrite F. eexists. exists []. rewrite app_nil_r.
    split; [exact T|]. split; [|assumption].
    intros s found Hin. apply in_app_or in Hin. unfold report in Hin.
    destruct Hin as [Hin|[Hin|[Hin|[]]]]; try discriminate Hin.
    destruct (Nat.ltb 0 (COUNTER st)); [|contradiction].
    destruct Hin as [Hin|[]]. discriminate Hin.
  - rewrite F. exists [EvSwitch n], []. rewrite app_nil_r.
    split; [exact T|]. split; [|assumption].
    intros s found [Hin|[]]. discriminate Hin.
  - rewrite F. exists [], []. rewrite app_nil_r.
    split; [exact T|]. split; [|assumption]. intros s found [].
  - rewrite F. apply export_interview_frame in Hx.
    destruct Hx as (qs & tr & L & _ & T & P & _).
    exists tr, qs. simpl in T, L.
    split; [now rewrite T, <- app_assoc|]. split; [|assumption].
    now apply export_events_quiet.
Qed.


Lemma skipn_app_exact (A : Type) (l tr : list A) :
  skipn (List.length l) (l ++ tr) = tr.
Proof. induction l as [|a l IH]; simpl; [reflexivity | exact IH]. Qed.




(* ===================================================================== *)
(** ** The cursor                                                         *)
(* ===================================================================== *)

Lemma last_cons_default (l : list string) :
  forall a b, last (a :: l) b = last l a.
Proof.
  induction l as [|c l IH]; intros a b; [reflexivity|].
  change (last (a :: c :: l) b) with (last (c :: l) b).
  now rewrite !IH.
Qed.

Lemma last_app_cons (pre : list string) (s : string) (post : list string) :
  forall a, last (pre ++ s :: post) a = last post s.
Proof.
  induction pre as [|b pre IH]; intros a; simpl app.
  - apply last_cons_default.
  - rewrite last_cons_default. apply IH.
Qed.

Lemma getitem_last_app (pre : list string) (s : string) (post : list string) :
  getitem_last (pre ++ s :: post) = Ok (last post s).
Proof.
  destruct pre as [|a pre]; simpl; [reflexivity|]. f_equal.
  apply last_app_cons.
Qed.

Lemma last_in (s : string) (post : list string) :
  post <> [] -> In (last post s) post.
Proof.
  induction post as [|a post IH]; [congruence|]. intros _.
  destruct post as [|b post]; [now left|].
  right. apply IH. discriminate.
Qed.

(** In a list of studies without repetition, only the last position holds
    the last study. *)
Lemma not_last (pre : list string) (s s' : string) (post : list string) :
  NoDup (pre ++ s :: s' :: post) -> s <> last (s' :: post) s.
Proof.
  intros H C. apply NoDup_remove_2 in H. apply H.
  apply in_or_app. right. rewrite C at 1. apply last_in. discriminate.
Qed.

Lemma getitem_app (pre : list string) (s : string) (post : list string) :
  getitem (pre ++ s :: post) (List.length pre) = Ok s.
Proof.
  unfold getitem. rewrite nth_error_app2, Nat.sub_diag; [reflexivity | lia].
Qed.

Lemma NoDup_not_before (pre : list string) (s : string) (post : list string) :
  NoDup (pre ++ s :: post) -> ~ In s pre.
Proof.
  intros H C. apply NoDup_remove_2 in H. apply H. apply in_or_app. now left.
Qed.

Lemma backlog_ledger (env : Env) (w w' : World) (s : string) :
  exported_assets w' = exported_assets w -> backlog env w' s = backlog env w s.
Proof. unfold backlog. now intros ->. Qed.

Lemma found_none (env : Env) (w : World) (s : string) :
  found_in env w s = None <-> backlog env w s = [].
Proof. apply fetch_random_none. Qed.

(** The move to the next study, when the study under the cursor has
    nothing ready and is not the last one. *)
Lemma loop_body_advance (env : Env) (pre : list string) (s s' : string)
      (post : list string) (c : nat) (w : World) :
  NoDup (studies env) ->
  studies env = pre ++ s :: s' :: post ->
  backlog env w s = [] ->
  exists w',
    loop_body env {| study_id := s; COUNTER := c |} w
    = (Ok {| study_id := s'; COUNTER := c |}, w')
    /\ trace w' = trace w ++ [EvSelect s None; EvSwitch s']
    /\ exported_assets w' = exported_assets w
    /\ clock w' = S (clock w).
Proof.
  intros Hnd Hs Hb.
  destruct (loop_body env {| study_id := s; COUNTER := c |} w) as [r w']
    eqn:H.
  exists w'. apply found_none in Hb. apply loop_body_cases in H. simpl in H.
  rewrite Hs, getitem_last_app in H. rewrite Hs in Hnd.
  pose proof (not_last _ _ _ _ Hnd) as Hnl.
  rewrite (index_first s pre (s' :: post) (NoDup_not_before _ _ _ Hnd)) in H.
  destruct H as [(_ & L & _)
                |[(_ & L & C & l & i & n & El & _ & Ei & En & -> & T)
                 |[(_ & _ & _ & e & _ & [Ne|(_ & [Ne|(i & Ei & Ne)])] & _)
                  |(name & rx & F & _)]]].
  - injection L as L. now contradiction Hnl.
  - injection Ei as <-.
    replace (pre ++ s :: s' :: post) with ((pre ++ [s]) ++ s' :: post) in En
      by now rewrite <- app_assoc.
    replace (List.length pre + 1) with (List.length (pre ++ [s])) in En
      by (rewrite length_app; reflexivity).
    rewrite getitem_app in En. injection En as <-. auto.
  - discriminate Ne.
  - discriminate Ne.
  - injection Ei as <-.
    replace (pre ++ s :: s' :: post) with ((pre ++ [s]) ++ s' :: post) in Ne
      by now rewrite <- app_assoc.
    replace (List.length pre + 1) with (List.length (pre ++ [s])) in Ne
      by (rewrite length_app; reflexivity).
    rewrite getitem_app in Ne. discriminate Ne.
  - rewrite Hb in F. discriminate F.
Qed.

(** The idle transition, when the study under the cursor has nothing ready
    and is the last one. *)
Lemma loop_body_idle (env : Env) (st : LoopState) (w w' : World)
      (r : result LoopState) (first : string) :
  loop_body env st w = (r, w') ->
  found_in env w (study_id st) = None ->
  getitem_last (studies env) = Ok (study_id st) ->
  getitem (studies env) 0 = Ok first ->
  r = Ok {| study_id := first; COUNTER := 0 |}
  /\ trace w'
     = trace w
         ++ EvSelect (study_id st) None
              :: report (COUNTER st) ++ [EvSnooze; EvRestart first]
  /\ exported_assets w' = exported_assets w
  /\ clock w' = S (clock w).
Proof.
  intros H Hf Hl H0. apply loop_body_cases in H.
  destruct H as [(_ & _ & L & C & first' & H0' & -> & T)
                |[(_ & _ & _ & l & i & n & El & Ne & _)
                 |[(_ & _ & _ & e & _ & [Ne|(Ne & _)] & _)
                  |(name & rx & F & _)]]].
  - rewrite H0 in H0'. injection H0' as <-. auto.
  - rewrite Hl in El. injection El as <-. now contradiction Ne.
  - rewrite Hl in Ne. discriminate Ne.
  - now contradiction Ne.
  - rewrite Hf in F. discriminate F.
Qed.

(** A pass over studies that have nothing ready, from the cursor to the end
    of the list: one question and one move per study, and the idle
    transition after the last. *)
Lemma empty_pass_run (env : Env) (first : string) :
  NoDup (studies env) ->
  getitem (studies env) 0 = Ok first ->
  forall (post pre : list string) (s : string) (c : nat) (w : World),
    studies env = pre ++ s :: post ->
    (forall x, In x (s :: post) -> backlog env w x = []) ->
    exists w',
      loop env (List.length (s :: post)) {| study_id := s; COUNTER := c |} w
      = (Ok {| study_id := first; COUNTER := 0 |}, w')
      /\ trace w'
         = trace w ++ empty_pass (s :: post) ++ report c
             ++ [EvSnooze; EvRestart first]
      /\ exported_assets w' = exported_assets w.
Proof.
  intros Hnd H0. induction post as [|s' post IH]; intros pre s c w Hs He.
  - destruct (loop_body env {| study_id := s; COUNTER := c |} w) as [r w']
      eqn:H.
    destruct (loop_body_idle env _ w w' r first H) as (-> & T & L & _).
    { apply found_none. apply He. now left. }
    { rewrite Hs. apply getitem_last_app. }
    { assumption. }
    exists w'. simpl loop. rewrite (bind_ok _ _ _ _ _ H). unfold ret.
    simpl in T. auto.
  - destruct (loop_body_advance env pre s s' post c w Hnd Hs)
      as (w1 & Hb & T1 & L1 & C1).
    { apply He. now left. }
    destruct (IH (pre ++ [s]) s' c w1) as (w' & Hl & T & L).
    { now rewrite <- app_assoc. }
    { intros x Hx. rewrite (backlog_ledger env w w1 x L1). apply He. now right. }
    exists w'. split; [|split].
    + change (List.length (s :: s' :: post)) with (S (List.length (s' :: post))).
      simpl loop. rewrite (bind_ok _ _ _ _ _ Hb). exact Hl.
    + rewrite T, T1. change (empty_pass (s :: s' :: post))
        with (EvSelect s None :: EvSwitch s' :: empty_pass (s' :: post)).
      now rewrite <- !app_assoc.
    + congruence.
Qed.

Lemma snoozes_empty_pass (ss : list string) : snoozes (empty_pass ss) = 0.
Proof.
  induction ss as [|s ss IH]; [reflexivity|].
  destruct ss as [|s' ss]; [reflexivity|].
  change (empty_pass (s :: s' :: ss))
    with (EvSelect s None :: EvSwitch s' :: empty_pass (s' :: ss)).
  exact IH.
Qed.

Lemma snoozes_report (c : nat) : snoozes (report c) = 0.
Proof. unfold report. now destruct (Nat.ltb 0 c). Qed.

(** C6, as amended.  The idle backoff belongs to the last study of the
    list: a turn of the loop snoozes exactly when the study under the cursor
    is the last one and the selection query finds nothing for it; on that
    transition a progress report is emitted first if and only if the counter
    is positive, the counter is zero afterwards, and the cursor is back on
    the first study.  Hence a pass over a list of distinct studies that all
    have nothing ready, started on the first study, takes one turn per study
    and snoozes exactly once, at its end. *)
Theorem idle_backoff_once_per_empty_pass :
  forall (env : Env) (first : string) (rest : list string),
    studies env = first :: rest ->
    (forall (st : LoopState) (w w' : World) (r : result LoopState),
        loop_body env st w = (r, w') ->
        (found_in env w (study_id st) = None
         /\ study_id st = last rest first ->
         r = Ok {| study_id := first; COUNTER := 0 |}
         /\ trace w'
            = trace w
                ++ EvSelect (study_id st) None
                     :: (if Nat.ltb 0 (COUNTER st)
                         then [EvLog (COUNTER st)] else [])
                     ++ [EvSnooze; EvRestart first])
        /\ (~ (found_in env w (study_id st) = None
               /\ study_id st = last rest first) ->
            snoozes (skipn (List.length (trace w)) (trace w')) = 0))
    /\ (NoDup (studies env) ->
        forall (c : nat) (w : World),
          (forall s, In s (studies env) -> backlog env w s = []) ->
          exists w',
            loop env (List.length (studies env))
                 {| study_id := first; COUNTER := c |} w
            = (Ok {| study_id := first; COUNTER := 0 |}, w')
            /\ trace w'
               = trace w ++ empty_pass (studies env)
                   ++ (if Nat.ltb 0 c then [EvLog c] else [])
                   ++ [EvSnooze; EvRestart first]
            /\ snoozes (skipn (List.length (trace w)) (trace w')) = 1
            /\ exported_assets w' = exported_assets w).
Proof.
  intros env first rest Hs.
  assert (Hl : getitem_last (studies env) = Ok (last rest first))
    by now rewrite Hs.
  assert (H0 : getitem (studies env) 0 = Ok first) by now rewrite Hs.
  split.
  - intros st w w' r H. split.
    + intros [Hf Hlast]. rewrite <- Hlast in Hl.
      destruct (loop_body_idle env st w w' r first H Hf Hl H0)
        as (-> & T & _).
      split; [reflexivity | exact T].
    + intros Hn. apply loop_body_cases in H.
      destruct H as [(F & L & _)
                    |[(_ & _ & _ & l & i & n & _ & _ & _ & _ & _ & T)
                     |[(_ & _ & _ & e & _ & _ & T)
                      |(name & rx & F & Hx & _)]]].
      * exfalso. apply Hn. split; [assumption|]. congruence.
      * now rewrite T, skipn_app_exact.
      * now rewrite T, skipn_app_exact.
      * apply export_interview_frame in Hx.
        destruct Hx as (qs & tr & _ & _ & T & P & _). simpl in T.
        rewrite T, <- app_assoc, skipn_app_exact, snoozes_app.
        now rewrite (proj1 (export_events_quiet tr P)).
  - intros Hnd c w He.
    destruct (empty_pass_run env first Hnd H0 rest [] first c w Hs)
      as (w' & Hrun & T & L).
    { intros x Hx. apply He. now rewrite Hs. }
    exists w'. rewrite Hs. split; [exact Hrun|]. split; [exact T|].
    split; [|exact L].
    rewrite T, skipn_app_exact, !snoozes_app, snoozes_empty_pass,
      snoozes_report. reflexivity.
Qed.

Lemma idle_backoff_once_per_empty_pass_witness :
  (fst (loop_body (Demo.env false "")
          {| study_id := "BostonB"; COUNTER := 2 |} Demo.world_done)
   = Ok {| study_id := "ChicagoA"; COUNTER := 0 |}
   /\ trace (snd (loop_body (Demo.env false "")
                    {| study_id := "BostonB"; COUNTER := 2 |} Demo.world_done))
      = [EvSelect "BostonB" None; EvLog 2; EvSnooze; EvRestart "ChicagoA"])
  /\ exists w',
      loop (Demo.env false "") 2
           {| study_id := "ChicagoA"; COUNTER := 0 |} Demo.world_done
      = (Ok {| study_id := "ChicagoA"; COUNTER := 0 |}, w')
      /\ trace w'
         = [EvSelect "ChicagoA" None; EvSwitch "BostonB";
            EvSelect "BostonB" None; EvSnooze; EvRestart "ChicagoA"]
      /\ snoozes (skipn 0 (trace w')) = 1
      /\ exported_assets w' = exported_assets Demo.world_done.
Proof.
  pose proof (idle_backoff_once_per_empty_pass (Demo.env false "")
                "ChicagoA" ["BostonB"] eq_refl) as [Hstep Hpass].
  split.
  - apply (Hstep {| study_id := "BostonB"; COUNTER := 2 |} Demo.world_done
                 _ _ (surjective_pairing _)).
    split; vm_compute; reflexivity.
  - apply (Hpass).
    + repeat constructor; simpl; intuition discriminate.
    + intros s [<-|[<-|[]]]; vm_compute; reflexivity.
Defined.

(** C6 as it is stated fails when a study identifier is repeated in the
    list: the cursor is compared with the last study and looked up in the
    list by value.  No study has anything ready.  With the first study
    repeated at the end of the list, the loop snoozes after the first study
    alone, the second one not having been asked; with a study repeated in
    the middle, the cursor never leaves it: after three times as many turns
    as there are studies the loop has not snoozed and has not asked the
    last study. *)
Lemma repeated_study_counterexample :
  backlog (Demo.env false "") Demo.world_done "ChicagoA" = []
  /\ backlog (Demo.env false "") Demo.world_done "BostonB" = []
  /\ backlog (Demo.env false "") Demo.world_done "DenverC" = []
  /\ trace (snd (loop (with_studies (Demo.env false "")
                         ["ChicagoA"; "BostonB"; "ChicagoA"])
                      1 {| study_id := "ChicagoA"; COUNTER := 0 |}
                      Demo.world_done))
     = [EvSelect "ChicagoA" None; EvSnooze; EvRestart "ChicagoA"]
  /\ snoozes
       (trace (snd (loop (with_studies (Demo.env false "")
                            ["ChicagoA"; "BostonB"; "BostonB"; "DenverC"])
                         12 {| study_id := "ChicagoA"; COUNTER := 0 |}
                         Demo.world_done)))
     = 0
  /\ ~ In (EvSelect "DenverC" None)
          (trace (snd (loop (with_studies (Demo.env false "")
                               ["ChicagoA"; "BostonB"; "BostonB"; "DenverC"])
                            12 {| study_id := "ChicagoA"; COUNTER := 0 |}
                            Demo.world_done)))
  /\ fst (loop (with_studies (Demo.env false "")
                  ["ChicagoA"; "BostonB"; "BostonB"; "DenverC"])
               12 {| study_id := "ChicagoA"; COUNTER := 0 |}
               Demo.world_done)
     = Ok {| study_id := "BostonB"; COUNTER := 0 |}.
Proof.
  split; [vm_compute; reflexivity|]. split; [vm_compute; reflexivity|].
  split; [vm_compute; reflexivity|]. split; [vm_compute; reflexivity|].
  split; [vm_compute; reflexivity|]. split; [|vm_compute; reflexivity].
  assert (E : filter is_select
                (trace (snd (loop (with_studies (Demo.env false "")
                                     ["ChicagoA"; "BostonB"; "BostonB";
                                      "DenverC"])
                                  12
                                  {| study_id := "ChicagoA"; COUNTER := 0 |}
                                  Demo.world_done)))
              = EvSelect "ChicagoA" None
                  :: repeat (EvSelect "BostonB" None) 11)
    by (vm_compute; reflexivity).
  remember (trace (snd (loop (with_studies (Demo.env false "")
                                ["ChicagoA"; "BostonB"; "BostonB"; "DenverC"])
                             12 {| study_id := "ChicagoA"; COUNTER := 0 |}
                             Demo.world_done))) as L eqn:HL.
  clear HL. intros Hin.
  assert (Hf : In (EvSelect "DenverC" None) (filter is_select L)).
  { apply (filter_In is_select (EvSelect "DenverC" None) L).
    split; [exact Hin | reflexivity]. }
  rewrite E in Hf.
  destruct Hf as [C|Hf]; [discriminate C|].
  apply repeat_spec in Hf. discriminate Hf.
Qed.

(* ===================================================================== *)
(** ** Exceptions reach the top                                           *)
(* ===================================================================== *)

Lemma loop_body_export_raises (env : Env) (st : LoopState) (w w1 : World)
      (name : string) (e : exn) :
  found_in env w (study_id st) = Some name ->
  export_interview env name (selected w (study_id st) (Some name))
  = (Raise e, w1) ->
  loop_body env st w = (Raise e, w1).
Proof.
  intros Hf Hx. unfold loop_body. unfold bind at 1.
  rewrite get_interview_name_to_process_eq, Hf.
  now apply bind_raise.
Qed.

(** Whatever fuel is left, the loop ends on the exception of a turn. *)
Lemma loop_raises (env : Env) (fuel : nat) (st : LoopState) (w w1 : World)
      (e : exn) :
  loop_body env st w = (Raise e, w1) ->
  loop env (S fuel) st w = (Raise e, w1).
Proof. intros H. simpl. now apply bind_raise. Qed.

Lemma makedirs_error (f : FS) (p : Path) (e : exn) :
  Files.makedirs f p = Raise e -> e = OSError.
Proof.
  unfold Files.makedirs.
  destruct (existsb (Files.is_file f) (Files.prefixes p)); congruence.
Qed.

Lemma copy2_error (f : FS) (s d : Path) (e : exn) :
  Files.copy2 f s d = Raise e -> e = OSError.
Proof.
  unfold Files.copy2. intros H.
  repeat (destruct_head H; simpl in H); congruence.
Qed.

Lemma copytree_error (f : FS) (s d : Path) (e : exn) :
  Files.copytree f s d = Raise e -> e = OSError.
Proof.
  unfold Files.copytree, and_then. intros H.
  repeat (destruct_head H; simpl in H); try congruence.
  injection H as <-. eapply makedirs_error; eassumption.
Qed.

(** The exceptions of the copy of one asset: those of the path resolver,
    the exit on an unknown kind, and the errors of the file system. *)
Lemma copy_asset_raises (env : Env) (name : string) (x : Exportable)
      (w w' : World) (e : exn) :
  copy_asset env name x w = (Raise e, w') ->
  get_export_path env name x = Raise e \/ e = SystemExit 1 \/ e = OSError.
Proof.
  destruct x as [[[p kind] tier] tag]. unfold copy_asset.
  unfold bind, get_fs, mkdir_parents, copy2, copytree, bind, get_fs, lift,
    set_fs, emit, ret, raise.
  intros H. repeat (destruct_head H; simpl in H).
  all: try discriminate H.
  all: injection H as <- <-; auto.
  all: right; right;
    eauto using makedirs_error, copy2_error, copytree_error.
Qed.

Lemma unknown_kind_exits (env : Env) (name : string) (x : Exportable)
      (d : Path) (w : World) :
  get_export_path env name x = Ok d ->
  type_of x <> "file" -> type_of x <> "directory" ->
  copy_asset env name x w = (Raise (SystemExit 1), w).
Proof.
  destruct x as [[[p kind] tier] tag]. simpl. intros Hd Hf Hk.
  unfold copy_asset. rewrite Hd. unfold bind, lift.
  destruct (String.eqb_spec kind "file") as [E|_]; [contradiction|].
  destruct (String.eqb_spec kind "directory") as [E|_]; [contradiction|].
  reflexivity.
Qed.

(** C8, as amended.  A failing copy is not caught.  When the copy loop of
    the interview found raises, the turn raises the same exception and so
    does the loop, whatever the number of turns it still had: there is no
    next scheduling decision, and the ledger is as it was; when the
    destinations of the assets resolve, the exit status is 1.  An asset
    whose kind is neither ["file"] nor ["directory"] ends the process with
    exit code 1.  So does a failed start-up check, before anything is done:
    a configuration file that is named and does not exist, and a default
    configuration that is not confirmed; with any other start-up the
    scheduler loop runs. *)
Theorem transfer_error_terminates :
  (forall (env : Env) (st : LoopState) (w w1 : World) (name : string)
          (e : exn),
      found_in env w (study_id st) = Some name ->
      copy_assets env name (get_pipeline_exports env name (fs w)) []
                  (selected w (study_id st) (Some name))
      = (Raise e, w1) ->
      (forall fuel, loop env (S fuel) st w = (Raise e, w1))
      /\ exported_assets w1 = exported_assets w
      /\ ((forall x, In x (get_pipeline_exports env name (fs w)) ->
                     exists d, get_export_path env name x = Ok d) ->
          exit_status e = 1%Z))
  /\ (forall (env : Env) (name : string) (x : Exportable) (d : Path)
             (w : World),
         get_export_path env name x = Ok d ->
         type_of x <> "file" -> type_of x <> "directory" ->
         copy_asset env name x w = (Raise (SystemExit 1), w))
  /\ (forall (env : Env) (config : option string)
             (config_exists confirmed : bool) (fuel : nat) (w : World),
         (forall c,
             config = Some c -> c <> "" -> config_exists = false ->
             script env config config_exists confirmed fuel w
             = (Raise (SystemExit 1), w))
         /\ (config = None \/ config = Some "" ->
             confirmed = false ->
             script env config config_exists confirmed fuel w
             = (Raise (SystemExit 1), w))
         /\ (forall c,
                config = Some c -> c <> "" -> config_exists = true ->
                script env config config_exists confirmed fuel w
                = main env fuel w)
         /\ (config = None \/ config = Some "" ->
             confirmed = true ->
             script env config config_exists confirmed fuel w
             = main env fuel w)
         /\ (forall e,
                startup config config_exists confirmed = Raise e ->
                script env config config_exists confirmed fuel w = (Raise e, w)
                /\ e = SystemExit 1)).
Proof.
  split; [|split].
  - intros env st w w1 name e Hf Hc.
    assert (Hx : export_interview env name (selected w (study_id st) (Some name))
                 = (Raise e, w1)).
    { unfold export_interview. unfold bind at 1. unfold get_fs at 1.
      now apply bind_raise. }
    split; [|split].
    + intros fuel. apply loop_raises.
      now apply loop_body_export_raises with (name := name).
    + apply copy_assets_spec in Hc. now destruct Hc as (L & _).
    + intros Hres. apply copy_assets_spec in Hc.
      destruct Hc as (_ & _ & _ & tr & _ & _ & done & x & rest & w0 & E & Hx0 & _).
      simpl in E. apply copy_asset_raises in Hx0.
      destruct (Hres x) as (d & Hd).
      { rewrite E. apply in_or_app. right. now left. }
      destruct Hx0 as [C|[->| ->]]; [congruence | reflexivity | reflexivity].
  - exact unknown_kind_exits.
  - intros env config config_exists confirmed fuel w.
    assert (Hraise : forall e,
               startup config config_exists confirmed = Raise e ->
               script env config config_exists confirmed fuel w = (Raise e, w)).
    { intros e H. unfold script. apply bind_raise. unfold lift.
      now rewrite H. }
    assert (Hok : startup config config_exists confirmed = Ok tt ->
                  script env config config_exists confirmed fuel w
                  = main env fuel w).
    { intros H. unfold script, bind, lift. now rewrite H. }
    assert (Hnamed : forall c, config = Some c -> c <> "" ->
                               truthy config = true).
    { intros c -> Hc. simpl. now destruct (String.eqb_spec c ""). }
    assert (Hdefault : config = None \/ config = Some "" ->
                       truthy config = false).
    { intros [->| ->]; reflexivity. }
    split; [|split; [|split; [|split]]].
    + intros c Hc Hne ->. apply Hraise. unfold startup.
      now rewrite (Hnamed c Hc Hne).
    + intros Hc ->. apply Hraise. unfold startup. now rewrite (Hdefault Hc).
    + intros c Hc Hne ->. apply Hok. unfold startup.
      now rewrite (Hnamed c Hc Hne).
    + intros Hc ->. apply Hok. unfold startup. now rewrite (Hdefault Hc).
    + intros e H. split; [now apply Hraise|].
      unfold startup in H.
      destruct (truthy config), config_exists, confirmed;
        try discriminate H; now injection H as <-.
Qed.

Lemma transfer_error_terminates_witness :
  loop (Demo.env false Demo.stream_2) 3
       {| study_id := "ChicagoA"; COUNTER := 0 |} Demo.world0
  = (Raise OSError,
     snd (copy_assets (Demo.env false Demo.stream_2) Demo.xx1
            (get_pipeline_exports (Demo.env false Demo.stream_2) Demo.xx1
               (fs Demo.world0)) []
            (selected Demo.world0 "ChicagoA" (Some Demo.xx1))))
  /\ copy_asset (Demo.env false "") Demo.xx1
       (PurePath.of_str Demo.stream_1, "socket", "PROTECTED", "streams")
       Demo.world0
     = (Raise (SystemExit 1), Demo.world0)
  /\ script (Demo.env false "") (Some "/etc/missing.json") false true 3
            Demo.world0
     = (Raise (SystemExit 1), Demo.world0)
  /\ script (Demo.env false "") None false false 3 Demo.world0
     = (Raise (SystemExit 1), Demo.world0)
  /\ script (Demo.env false "") (Some "") true false 3 Demo.world0
     = (Raise (SystemExit 1), Demo.world0)
  /\ script (Demo.env false "") (Some "/etc/config.json") true false 3
            Demo.world0
     = main (Demo.env false "") 3 Demo.world0.
Proof.
  split; [|split; [|split; [|split; [|split]]]].
  - assert (Hrun : copy_assets (Demo.env false Demo.stream_2) Demo.xx1
                     (get_pipeline_exports (Demo.env false Demo.stream_2)
                        Demo.xx1 (fs Demo.world0)) []
                     (selected Demo.world0 "ChicagoA" (Some Demo.xx1))
                   = (Raise OSError,
                      snd (copy_assets (Demo.env false Demo.stream_2) Demo.xx1
                             (get_pipeline_exports
                                (Demo.env false Demo.stream_2) Demo.xx1
                                (fs Demo.world0)) []
                             (selected Demo.world0 "ChicagoA"
                                (Some Demo.xx1))))).
    { pose proof (surjective_pairing
                    (copy_assets (Demo.env false Demo.stream_2) Demo.xx1
                       (get_pipeline_exports (Demo.env false Demo.stream_2)
                          Demo.xx1 (fs Demo.world0)) []
                       (selected Demo.world0 "ChicagoA" (Some Demo.xx1))))
        as Hp.
      assert (Hf : fst (copy_assets (Demo.env false Demo.stream_2) Demo.xx1
                          (get_pipeline_exports (Demo.env false Demo.stream_2)
                             Demo.xx1 (fs Demo.world0)) []
                          (selected Demo.world0 "ChicagoA" (Some Demo.xx1)))
                   = Raise OSError)
        by (vm_compute; reflexivity).
      rewrite Hf in Hp. exact Hp. }
    assert (Hfound : found_in (Demo.env false Demo.stream_2) Demo.world0
                       "ChicagoA" = Some Demo.xx1)
      by (vm_compute; reflexivity).
    exact (proj1 (proj1 transfer_error_terminates
                    (Demo.env false Demo.stream_2)
                    {| study_id := "ChicagoA"; COUNTER := 0 |}
                    Demo.world0 _ Demo.xx1 OSError Hfound Hrun) 2).
  - apply (proj1 (proj2 transfer_error_terminates) (Demo.env false "")
             Demo.xx1 _
             (PurePath.of_str "/export_root/PROTECTED/ChicagoA/processed/XX1/interviews/followup/ChicagoA/XX1/streams/stream_1.mp4")).
    + vm_compute. reflexivity.
    + discriminate.
    + discriminate.
  - destruct (proj2 (proj2 transfer_error_terminates) (Demo.env false "")
                (Some "/etc/missing.json") false true 3 Demo.world0)
      as (A & _).
    apply (A "/etc/missing.json");
      [reflexivity | discriminate | reflexivity].
  - destruct (proj2 (proj2 transfer_error_terminates) (Demo.env false "")
                None false false 3 Demo.world0)
      as (_ & A & _).
    apply A; [now left | reflexivity].
  - destruct (proj2 (proj2 transfer_error_terminates) (Demo.env false "")
                (Some "") true false 3 Demo.world0)
      as (_ & A & _).
    apply A; [now right | reflexivity].
  - destruct (proj2 (proj2 transfer_error_terminates) (Demo.env false "")
                (Some "/etc/config.json") true false 3 Demo.world0)
      as (_ & _ & A & _).
    apply (A "/etc/config.json");
      [reflexivity | discriminate | reflexivity].
Defined.

(** C8 as it is stated fails: when the copy of the second stream fails, the
    loop ends on [OSError] after its first turn, however many turns it is
    given: there is one selection in the trace and no other scheduling
    decision, and the exit status is 1. *)
Lemma transfer_error_counterexample :
  fst (main (Demo.env false Demo.stream_2) 1 Demo.world0) = Raise OSError
  /\ fst (main (Demo.env false Demo.stream_2) 9 Demo.world0) = Raise OSError
  /\ filter is_select
            (trace (snd (main (Demo.env false Demo.stream_2) 9 Demo.world0)))
     = [EvSelect "ChicagoA" (Some Demo.xx1)]
  /\ advances (trace (snd (main (Demo.env false Demo.stream_2) 9 Demo.world0)))
     = 0
  /\ exit_status OSError = 1%Z.
Proof. repeat split; vm_compute; reflexivity. Qed.

(* ===================================================================== *)
(** ** Backlogs                                                           *)
(* ===================================================================== *)












(* ===================================================================== *)
(** ** Fairness                                                           *)
(* ===================================================================== *)









(* ===================================================================== *)
(** ** Durations                                                          *)
(* ===================================================================== *)

Lemma split_app_sep (sep : ascii) (a b : string) :
  PyStr.contains sep a = false ->
  PyStr.split sep (a ++ String sep b)%string = a :: PyStr.split sep b.
Proof.
  induction a as [|c a IH]; simpl; intros H.
  - now rewrite Ascii.eqb_refl.
  - apply orb_false_iff in H. destruct H as [Hc Ha].
    now rewrite Hc, (IH Ha).
Qed.

(** The characters of [str(n)] are digits. *)
Lemma string_of_uint_digits (u : Decimal.uint) :
  Forall (fun c => PyInt.digit c <> None)
         (list_ascii_of_string (DecimalString.NilEmpty.string_of_uint u)).
Proof.
  induction u; simpl; constructor; try assumption; discriminate.
Qed.

Lemma digit_not_colon (s : string) :
  Forall (fun c => PyInt.digit c <> None) (list_ascii_of_string s) ->
  PyStr.contains ":"%char s = false.
Proof.
  induction s as [|c s IH]; simpl; intros H; [reflexivity|].
  inversion H as [|c' l Hc Hs]; subst. rewrite (IH Hs), orb_false_r.
  destruct (Ascii.eqb_spec c ":"%char) as [->|_]; [|reflexivity].
  now contradiction Hc.
Qed.

Lemma digit_not_space (c : ascii) :
  PyInt.digit c <> None -> PyInt.isspace c = false.
Proof.
  unfold PyInt.digit, PyInt.isspace. intros H.
  destruct ((48 <=? nat_of_ascii c) && (nat_of_ascii c <=? 57))%nat eqn:E;
    [|now contradiction H].
  apply andb_true_iff in E. destruct E as [E1 E2].
  apply Nat.leb_le in E1. apply Nat.leb_le in E2.
  apply orb_false_iff. split; apply andb_false_iff.
  - right. apply Nat.leb_gt. lia.
  - right. apply Nat.leb_gt. lia.
Qed.

Lemma lstrip_digits (l : list ascii) :
  Forall (fun c => PyInt.digit c <> None) l -> PyInt.lstrip l = l.
Proof.
  intros H. destruct l as [|c l]; [reflexivity|]. simpl.
  inversion H; subst. now rewrite digit_not_space.
Qed.

Lemma strip_digits (l : list ascii) :
  Forall (fun c => PyInt.digit c <> None) l -> PyInt.strip l = l.
Proof.
  intros H. unfold PyInt.strip. rewrite (lstrip_digits l H).
  rewrite lstrip_digits; [apply rev_involutive|].
  apply Forall_forall. intros c Hc. apply in_rev in Hc.
  now apply (proj1 (Forall_forall _ _) H).
Qed.

(** Reading the digits of a decimal number gives its value. *)
Lemma digits_of_uint (u : Decimal.uint) :
  forall (b : bool) (acc : nat),
    PyInt.digits b
      (list_ascii_of_string (DecimalString.NilEmpty.string_of_uint u)) acc
    = match u with
      | Decimal.Nil => if b then Some acc else None
      | _ => Some (Nat.of_uint_acc u acc)
      end.
Proof.
  induction u; intros b acc; [reflexivity|..];
    cbn [DecimalString.NilEmpty.string_of_uint list_ascii_of_string
           PyInt.digits];
    match goal with
    | |- context [PyInt.digit ?c] =>
        change (PyInt.digit c) with (Some (nat_of_ascii c - 48))
    end;
    cbv iota; rewrite IHu; cbn [Nat.of_uint_acc];
    rewrite Nat.tail_mul_spec;
    match goal with
    | |- context [nat_of_ascii ?c - 48] =>
        let v := eval vm_compute in (nat_of_ascii c - 48) in
        change (nat_of_ascii c - 48) with v
    end;
    (destruct u; [cbn; f_equal; lia | f_equal; f_equal; lia ..]).
Qed.

Lemma int_str (n : nat) : PyInt.int (PyInt.str n) = Ok (Z.of_nat n).
Proof.
  unfold PyInt.int, PyInt.str.
  pose proof (string_of_uint_digits (Nat.to_uint n)) as Hd.
  rewrite (strip_digits _ Hd).
  assert (Hn : Nat.to_uint n <> Decimal.Nil).
  { pose proof (DecimalNat.Unsigned.to_of (Nat.to_uint n)) as E.
    rewrite DecimalNat.Unsigned.of_to in E. rewrite E.
    apply DecimalFacts.unorm_nonnil. }
  pose proof (digits_of_uint (Nat.to_uint n) false 0) as Hv.
  assert (Hv' : PyInt.digits false
                  (list_ascii_of_string
                     (DecimalString.NilEmpty.string_of_uint (Nat.to_uint n))) 0
                = Some n).
  { rewrite Hv. destruct (Nat.to_uint n) eqn:E; [now contradiction Hn|..];
      rewrite <- E; f_equal; apply DecimalNat.Unsigned.of_to. }
  destruct (list_ascii_of_string
              (DecimalString.NilEmpty.string_of_uint (Nat.to_uint n)))
    as [|c l] eqn:El.
  - discriminate Hv'.
  - inversion Hd as [|c' l' Hc Hl]; subst.
    destruct (Ascii.eqb_spec c "-"%char) as [->|_]; [now contradiction Hc|].
    destruct (Ascii.eqb_spec c "+"%char) as [->|_]; [now contradiction Hc|].
    now rewrite Hv'.
Qed.

Lemma str_no_colon (n : nat) : PyStr.contains ":"%char (PyInt.str n) = false.
Proof. apply digit_not_colon, string_of_uint_digits. Qed.

Lemma split_no_sep_whole (n : nat) :
  PyStr.split ":"%char (PyInt.str n) = [PyInt.str n].
Proof. apply split_whole, str_no_colon. Qed.

Lemma hms_seconds (h m s : nat) :
  duration_to_seconds (hms h m s) = Ok (Z.of_nat (3600 * h + 60 * m + s)).
Proof.
  unfold duration_to_seconds, hms.
  change (PyInt.str h ++ ":" ++ PyInt.str m ++ ":" ++ PyInt.str s)%string
    with (PyInt.str h ++ String ":"%char (PyInt.str m ++ String ":"%char (PyInt.str s)))%string.
  rewrite (split_app_sep _ _ _ (str_no_colon h)).
  rewrite (split_app_sep _ _ _ (str_no_colon m)).
  rewrite split_no_sep_whole, !int_str. simpl and_then. f_equal. lia.
Qed.


(** X2. With minutes and seconds below sixty, the hours, minutes and
    seconds are read back from the number of seconds: the conversion loses
    nothing on such durations. *)
Theorem duration_to_seconds_decoded :
  forall (h m s : nat) (t : Z),
    m < 60 -> s < 60 ->
    duration_to_seconds (hms h m s) = Ok t ->
    h = Z.to_nat t / 3600
    /\ m = (Z.to_nat t mod 3600) / 60
    /\ s = Z.to_nat t mod 60.
Proof.
  intros h m s t Hm Hs H. rewrite hms_seconds in H.
  assert (Et : t = Z.of_nat (3600 * h + 60 * m + s)) by congruence.
  clear H. subst t.
  rewrite Nat2Z.id.
  assert (E1 : (3600 * h + 60 * m + s) / 3600 = h).
  { symmetry. apply (Nat.div_unique _ 3600 h (60 * m + s)); lia. }
  assert (E2 : (3600 * h + 60 * m + s) mod 3600 = 60 * m + s).
  { symmetry. apply (Nat.mod_unique _ 3600 h (60 * m + s)); lia. }
  rewrite E1, E2. split; [reflexivity|]. split.
  - apply (Nat.div_unique _ 60 m s); lia.
  - apply (Nat.mod_unique _ 60 (60 * h + m) s); lia.
Qed.

Lemma duration_to_seconds_decoded_witness :
  1 = Z.to_nat 3723 / 3600
  /\ 2 = (Z.to_nat 3723 mod 3600) / 60
  /\ 3 = Z.to_nat 3723 mod 60.
Proof.
  apply (duration_to_seconds_decoded 1 2 3 3723%Z); [lia | lia |].
  vm_compute. reflexivity.
Defined.

Lemma int_raises (s : string) (e : exn) :
  PyInt.int s = Raise e -> e = ValueError.
Proof.
  unfold PyInt.int.
  match goal with
  | |- match ?x with _ => _ end = _ -> _ => destruct x
  end; [discriminate | now intros [= <-]].
Qed.

(** X3. [duration_to_seconds] raises nothing but [ValueError], and raises
    it whenever the text does not have exactly three fields between colons,
    the empty text included. *)
Theorem duration_to_seconds_errors :
  forall duration_str : string,
    (forall e, duration_to_seconds duration_str = Raise e -> e = ValueError)
    /\ (List.length (PyStr.split ":"%char duration_str) <> 3 ->
        duration_to_seconds duration_str = Raise ValueError).
Proof.
  intros str. unfold duration_to_seconds.
  destruct (PyStr.split ":"%char str) as [|a [|b [|c [|d l]]]]; simpl;
    try (split; [now intros e [= <-] | reflexivity]).
  split; [|intros H; now contradiction H].
  intros e.
  destruct (PyInt.int a) eqn:Ea; simpl; [|intros [= <-]; eapply int_raises; eassumption].
  destruct (PyInt.int b) eqn:Eb; simpl; [|intros [= <-]; eapply int_raises; eassumption].
  destruct (PyInt.int c) eqn:Ec; simpl; [discriminate|].
  intros [= <-]. eapply int_raises; eassumption.
Qed.

Lemma duration_to_seconds_errors_witness :
  duration_to_seconds "1:2" = Raise ValueError
  /\ ValueError = ValueError.
Proof.
  split.
  - apply (proj2 (duration_to_seconds_errors "1:2")). vm_compute.
    discriminate.
  - apply (proj1 (duration_to_seconds_errors "1:two:3") ValueError).
    vm_compute. reflexivity.
Defined.

(* ===================================================================== *)
(** ** What the exporter collects                                         *)
(* ===================================================================== *)

Lemma filter_frames_map (A : Type) (g : A -> Exportable) (l : list A) :
  (forall a, tag_of (g a) <> "frames") ->
  filter (fun x => String.eqb (tag_of x) "frames") (map g l) = [].
Proof.
  intros H. induction l as [|a l IH]; [reflexivity|]. simpl.
  destruct (String.eqb_spec (tag_of (g a)) "frames") as [E|_];
    [now contradiction (H a) | exact IH].
Qed.

Lemma exports_member (env : Env) (name : string) (f : FS) (x : Exportable) :
  In x (get_pipeline_exports env name f) ->
  export_type_of x = "PROTECTED"
  /\ ((tag_of x = "streams" /\ type_of x = "file")
      \/ (tag_of x = "frames" /\ type_of x = "directory"
          /\ Files.exists_ f (path_of x) = true)
      \/ (tag_of x = "openface" /\ type_of x = "directory")).
Proof.
  intros Hin.
  destruct (String.eqb_spec (tag_of x) "frames") as [Ht|Ht].
  + destruct (frames_export env name f x Hin Ht) as (Hk & He).
    assert (Hex : Files.exists_ f (path_of x) = true).
    { unfold Files.exists_. now destruct (f (path_of x)). }
    unfold get_pipeline_exports in Hin.
    split; [|right; left; auto].
    apply in_app_or in Hin. destruct Hin as [Hin|Hin].
    * destruct (get_pipeline_frames env name f).
      -- apply in_app_or in Hin. destruct Hin as [Hin|[<-|[]]];
           [|reflexivity].
         apply in_map_iff in Hin. now destruct Hin as (s & <- & _).
      -- apply in_map_iff in Hin. now destruct Hin as (s & <- & _).
    * apply in_map_iff in Hin. now destruct Hin as (s & <- & _).
  + unfold get_pipeline_exports in Hin.
    apply in_app_or in Hin. destruct Hin as [Hin|Hin].
    * assert (Hs : In x (map (fun stream : Path =>
                                (stream, "file", "PROTECTED", "streams"))
                             (get_pipeline_streams env name))).
      { destruct (get_pipeline_frames env name f); [|assumption].
        apply in_app_or in Hin. destruct Hin as [Hin|[<-|[]]];
          [assumption | now contradiction Ht]. }
      apply in_map_iff in Hs. destruct Hs as (s & <- & _). auto.
    * apply in_map_iff in Hin. destruct Hin as (s & <- & _). auto.
Qed.

Lemma exports_one_frames (env : Env) (name : string) (f : FS) :
  List.length
    (filter (fun x => String.eqb (tag_of x) "frames")
            (get_pipeline_exports env name f)) <= 1.
Proof.
  unfold get_pipeline_exports.
  rewrite filter_app, length_app.
  rewrite (filter_frames_map _ (fun asset : Path =>
                                  (asset, "directory", "PROTECTED", "openface")));
    [|discriminate].
  destruct (get_pipeline_frames env name f).
  + rewrite filter_app, length_app.
    rewrite (filter_frames_map _ (fun stream : Path =>
                                    (stream, "file", "PROTECTED", "streams")));
      [|discriminate].
    simpl. lia.
  + rewrite (filter_frames_map _ (fun stream : Path =>
                                    (stream, "file", "PROTECTED", "streams")));
      [|discriminate].
    simpl. lia.
Qed.

(** X4. Every asset collected for an interview is PROTECTED and is either
    a stream, a file, or the frame directory, which exists, or an OpenFace
    directory; there is at most one frame directory among them. *)
Theorem pipeline_exports_shape :
  forall (env : Env) (name : string) (f : FS),
    (forall x,
        In x (get_pipeline_exports env name f) ->
        export_type_of x = "PROTECTED"
        /\ ((tag_of x = "streams" /\ type_of x = "file")
            \/ (tag_of x = "frames" /\ type_of x = "directory"
                /\ Files.exists_ f (path_of x) = true)
            \/ (tag_of x = "openface" /\ type_of x = "directory")))
    /\ List.length
         (filter (fun x => String.eqb (tag_of x) "frames")
                 (get_pipeline_exports env name f)) <= 1.
Proof.
  intros env name f. split.
  - apply exports_member.
  - apply exports_one_frames.
Qed.

Lemma pipeline_exports_shape_witness :
  export_type_of
    (PurePath.of_str Demo.frames, "directory", "PROTECTED", "frames")
  = "PROTECTED"
  /\ ((tag_of (PurePath.of_str Demo.frames, "directory", "PROTECTED", "frames")
       = "streams"
       /\ type_of (PurePath.of_str Demo.frames, "directory", "PROTECTED", "frames")
          = "file")
      \/ (tag_of (PurePath.of_str Demo.frames, "directory", "PROTECTED", "frames")
          = "frames"
          /\ type_of (PurePath.of_str Demo.frames, "directory", "PROTECTED", "frames")
             = "directory"
          /\ Files.exists_ Demo.fs0
               (path_of (PurePath.of_str Demo.frames, "directory", "PROTECTED", "frames"))
             = true)
      \/ (tag_of (PurePath.of_str Demo.frames, "directory", "PROTECTED", "frames")
          = "openface"
          /\ type_of (PurePath.of_str Demo.frames, "directory", "PROTECTED", "frames")
             = "directory")).
Proof.
  apply (proj1 (pipeline_exports_shape (Demo.env false "") Demo.xx1 Demo.fs0)).
  right; right; left. vm_compute. reflexivity.
Defined.

(* ===================================================================== *)
(** ** Cursor and counter                                                 *)
(* ===================================================================== *)

Lemma getitem_in (l : list string) (i : nat) (a : string) :
  getitem l i = Ok a -> In a l.
Proof.
  unfold getitem. destruct (nth_error l i) eqn:E; [|discriminate].
  intros [= <-]. now apply nth_error_In in E.
Qed.

(** With the cursor on a study of the list, the scheduling code of a turn
    raises nothing. *)
Lemma loop_body_raises (env : Env) (st : LoopState) (w w' : World) (e : exn) :
  In (study_id st) (studies env) ->
  loop_body env st w = (Raise e, w') ->
  exists name,
    found_in env w (study_id st) = Some name
    /\ export_interview env name (selected w (study_id st) (Some name))
       = (Raise e, w').
Proof.
  intros Hin H. apply loop_body_cases in H.
  destruct H as [(_ & _ & _ & _ & first & _ & C & _)
                |[(_ & _ & _ & l & i & n & _ & _ & _ & _ & C & _)
                 |[(_ & _ & _ & e0 & _ & [Ne|(Ne & [Ni|(i & Ei & Ng)])] & _)
                  |(name & rx & F & Hx & Hr)]]];
    try discriminate C.
  - destruct (studies env); [contradiction | discriminate Ne].
  - apply index_present in Hin. destruct Hin as (pre & rest & _ & _ & Hi).
    rewrite Hi in Ni. discriminate Ni.
  - exfalso. destruct (index_present _ _ Hin) as (pre & rest & Hs & _ & Hi).
    rewrite Hi in Ei. injection Ei as <-.
    rewrite Hs, getitem_last_app in Ne.
    destruct rest as [|r rest]; [now contradiction Ne|].
    rewrite Hs in Ng.
    replace (pre ++ study_id st :: r :: rest)
      with ((pre ++ [study_id st]) ++ r :: rest) in Ng
      by now rewrite <- app_assoc.
    replace (List.length pre + 1) with (List.length (pre ++ [study_id st])) in Ng
      by (rewrite length_app; reflexivity).
    rewrite getitem_app in Ng. discriminate Ng.
  - exists name. split; [assumption|].
    destruct rx as [u|e1]; [discriminate Hr|]. now injection Hr as <-.
Qed.

Lemma loop_body_cursor (env : Env) (st st' : LoopState) (w w' : World) :
  In (study_id st) (studies env) ->
  loop_body env st w = (Ok st', w') ->
  In (study_id st') (studies env).
Proof.
  intros Hin H. apply loop_body_cases in H.
  destruct H as [(_ & _ & _ & _ & first & H0 & C & _)
                |[(_ & _ & _ & l & i & n & _ & _ & _ & Hn & C & _)
                 |[(_ & _ & _ & e0 & C & _)
                  |(name & rx & F & Hx & Hr)]]].
  - injection C as ->. simpl. now apply getitem_in in H0.
  - injection C as ->. simpl. now apply getitem_in in Hn.
  - discriminate C.
  - destruct rx; [|discriminate Hr]. now injection Hr as ->.
Qed.

(** X7. With the cursor on a study of the list, a turn whose selection
    finds nothing raises nothing: the last study is read, and the study
    under the cursor is found in the list with a study after it when it is
    not the last one.  The turn completes with the cursor on a study of the
    list again, the counter kept or back to zero, and the ledger as it
    was. *)
Theorem empty_selection_turn_completes :
  forall (env : Env) (st : LoopState) (w : World),
    In (study_id st) (studies env) ->
    found_in env w (study_id st) = None ->
    exists st',
      fst (loop_body env st w) = Ok st'
      /\ In (study_id st') (studies env)
      /\ (COUNTER st' = COUNTER st \/ COUNTER st' = 0)
      /\ exported_assets (snd (loop_body env st w)) = exported_assets w.
Proof.
  intros env st w Hin Hf.
  destruct (loop_body env st w) as [r w'] eqn:H. simpl.
  destruct r as [st'|e].
  - exists st'. split; [reflexivity|].
    split; [exact (loop_body_cursor env st st' w w' Hin H)|].
    apply loop_body_cases in H.
    destruct H as [(_ & _ & L & _ & first & _ & C & _)
                  |[(_ & L & _ & l & i & n & _ & _ & _ & _ & C & _)
                   |[(_ & _ & _ & e0 & C & _)
                    |(name & rx & F & _)]]].
    + injection C as ->. simpl. auto.
    + injection C as ->. simpl. auto.
    + discriminate C.
    + rewrite Hf in F. discriminate F.
  - destruct (loop_body_raises env st w w' e Hin H) as (name & F & _).
    rewrite Hf in F. discriminate F.
Qed.

Lemma empty_selection_turn_completes_witness :
  exists st',
    fst (loop_body (Demo.env false "")
           {| study_id := "BostonB"; COUNTER := 1 |} Demo.world_done)
    = Ok st'
    /\ In (study_id st') (studies (Demo.env false "")).
Proof.
  destruct (empty_selection_turn_completes (Demo.env false "")
              {| study_id := "BostonB"; COUNTER := 1 |} Demo.world_done)
    as (st' & H & Hin & _).
  - right. left. reflexivity.
  - vm_compute. reflexivity.
  - exists st'. split; assumption.
Defined.

Lemma counter_after_app (a b : list Event) :
  forall c, counter_after c (a ++ b) = counter_after (counter_after c a) b.
Proof.
  induction a as [|e a IH]; intros c; [reflexivity|].
  destruct e;
    try match goal with o : option string |- _ => destruct o end;
    simpl; apply IH.
Qed.

Lemma reports_checked_app (a b : list Event) :
  forall (c : nat) (p : bool),
    reports_checked c p a = true ->
    reports_checked c p (a ++ b)
    = reports_checked (counter_after c a) false b.
Proof.
  induction a as [|e a IH]; intros c p H.
  - simpl in H. apply negb_true_iff in H. now subst p.
  - destruct e;
      try match goal with o : option string |- _ => destruct o end;
      simpl in *;
      repeat match goal with
             | H : _ && _ = true |- _ =>
                 apply andb_true_iff in H; destruct H
             end;
      repeat match goal with
             | H : ?x = true |- context [?x] => rewrite H
             end;
      simpl; now apply IH.
Qed.

Lemma export_events_counter (tr : list Event) :
  forallb export_event tr = true ->
  forall c, counter_after c tr = c /\ reports_accurate c tr = true.
Proof.
  unfold reports_accurate.
  induction tr as [|e tr IH]; intros H c; [now split|].
  simpl in H. apply andb_true_iff in H. destruct H as [He H].
  destruct e; try discriminate He; simpl; now apply IH.
Qed.

(** A turn of the loop and the counter. *)
Lemma loop_body_counter (env : Env) (st : LoopState) (w w' : World)
      (r : result LoopState) :
  loop_body env st w = (r, w') ->
  exists tr,
    trace w' = trace w ++ tr
    /\ reports_accurate (COUNTER st) tr = true
    /\ forall st', r = Ok st' -> COUNTER st' = counter_after (COUNTER st) tr.
Proof.
  intros H. apply loop_body_cases in H.
  destruct H as [(_ & _ & _ & _ & first & _ & -> & T)
                |[(_ & _ & _ & l & i & n & _ & _ & _ & _ & -> & T)
                 |[(_ & _ & _ & e & -> & _ & T)
                  |(name & rx & F & Hx & ->)]]].
  - eexists. split; [exact T|]. unfold report, reports_accurate.
    destruct (Nat.ltb 0 (COUNTER st)) eqn:Hc; simpl.
    + rewrite Nat.eqb_refl, Hc. split; [reflexivity|]. now intros st' [= <-].
    + apply Nat.ltb_ge in Hc.
      replace (COUNTER st) with 0 by lia.
      split; [reflexivity|]. now intros st' [= <-].
  - eexists. split; [exact T|]. split; [reflexivity|]. now intros st' [= <-].
  - eexists. split; [exact T|]. split; [reflexivity|]. discriminate.
  - apply export_interview_frame in Hx.
    destruct Hx as (qs & tr & _ & _ & T & P & _). simpl in T.
    exists (EvSelect (study_id st) (Some name) :: tr).
    split; [now rewrite T, <- app_assoc|].
    destruct (export_events_counter tr P (S (COUNTER st))) as (C & R).
    unfold reports_accurate in *. simpl. split; [assumption|].
    intros st' E. destruct rx; [|discriminate E]. injection E as <-.
    simpl. rewrite C. lia.
Qed.

Lemma loop_counter (env : Env) (fuel : nat) :
  forall (st : LoopState) (w w' : World) (r : result LoopState),
    loop env fuel st w = (r, w') ->
    exists tr,
      trace w' = trace w ++ tr
      /\ reports_accurate (COUNTER st) tr = true
      /\ forall st', r = Ok st' -> COUNTER st' = counter_after (COUNTER st) tr.
Proof.
  induction fuel as [|fuel IH]; intros st w w' r H; simpl in H.
  - unfold ret in H. injection H as <- <-. exists []. rewrite app_nil_r.
    split; [reflexivity|]. split; [reflexivity|]. now intros st' [= <-].
  - apply bind_inv in H.
    destruct H as [(st1 & w1 & Hb & H)|(e & Hb & ->)].
    + apply loop_body_counter in Hb. destruct Hb as (tr1 & T1 & R1 & C1).
      apply IH in H. destruct H as (tr2 & T2 & R2 & C2).
      exists (tr1 ++ tr2). split; [rewrite T2, T1; now rewrite app_assoc|].
      unfold reports_accurate in *.
      rewrite (reports_checked_app tr1 tr2 _ _ R1), counter_after_app.
      rewrite <- (C1 st1 eq_refl). split; [exact R2 | exact C2].
    + apply loop_body_counter in Hb. destruct Hb as (tr1 & T1 & R1 & C1).
      exists tr1. split; [assumption|]. split; [assumption | discriminate].
Qed.

(** X8. Along any run of the loop the counter is the number of interviews
    selected since the last idle backoff (or since the start, from the
    initial value).  Every progress report carries that number, which is
    positive, and stands just before the idle backoff that resets it; an
    idle backoff that no report precedes finds the counter at zero. *)
Theorem progress_reports_accurate :
  forall (env : Env) (fuel : nat) (st : LoopState) (w : World),
  exists tr,
    trace (snd (loop env fuel st w)) = trace w ++ tr
    /\ reports_accurate (COUNTER st) tr = true
    /\ forall st',
        fst (loop env fuel st w) = Ok st' ->
        COUNTER st' = counter_after (COUNTER st) tr.
Proof.
  intros env fuel st w.
  destruct (loop env fuel st w) as [r w'] eqn:H. simpl.
  now apply loop_counter in H.
Qed.

Lemma progress_reports_accurate_witness :
  exists tr,
    trace (snd (loop (Demo.env false "") 4
                     {| study_id := "ChicagoA"; COUNTER := 0 |} Demo.world0))
    = trace Demo.world0 ++ tr
    /\ reports_accurate 0 tr = true
    /\ In (EvLog 2) tr
    /\ 0 = counter_after 0 tr.
Proof.
  destruct (progress_reports_accurate (Demo.env false "") 4
              {| study_id := "ChicagoA"; COUNTER := 0 |} Demo.world0)
    as (tr & T & R & C).
  assert (E : filter (fun e => match e with EvLog _ => true | _ => false end)
                (trace (snd (loop (Demo.env false "") 4
                                  {| study_id := "ChicagoA"; COUNTER := 0 |}
                                  Demo.world0)))
              = [EvLog 2])
    by (vm_compute; reflexivity).
  assert (F : fst (loop (Demo.env false "") 4
                        {| study_id := "ChicagoA"; COUNTER := 0 |} Demo.world0)
              = Ok {| study_id := "ChicagoA"; COUNTER := 0 |})
    by (vm_compute; reflexivity).
  specialize (C _ F). clear F.
  remember (trace (snd (loop (Demo.env false "") 4
                             {| study_id := "ChicagoA"; COUNTER := 0 |}
                             Demo.world0))) as L eqn:HL.
  clear HL. exists tr. split; [exact T|]. split; [exact R|].
  split; [|exact C].
  assert (Hin : In (EvLog 2) L).
  { apply (filter_In (fun e => match e with EvLog _ => true | _ => false end)
                     (EvLog 2) L).
    rewrite E. left. reflexivity. }
  rewrite T in Hin. exact Hin.
Defined.

(* ===================================================================== *)
(** ** Debug mode                                                         *)
(* ===================================================================== *)

Lemma copy_asset_debug (env : Env) (name : string) (x : Exportable)
      (w w' : World) (r : result ExportedAsset) :
  debug env = true -> copy_asset env name x w = (r, w') -> w' = w.
Proof.
  intros Hd. destruct x as [[[p kind] tier] tag]. unfold copy_asset.
  rewrite Hd. unfold bind, lift, ret, raise.
  intros H. repeat (destruct_head H; simpl in H); now injection H as _ <-.
Qed.

Lemma copy_assets_debug (env : Env) (name : string) (xs : list Exportable) :
  debug env = true ->
  forall (qs : list ExportedAsset) (w w' : World)
         (r : result (list ExportedAsset)),
    copy_assets env name xs qs w = (r, w') -> w' = w.
Proof.
  intros Hd. induction xs as [|x xs IH]; intros qs w w' r H; simpl in H.
  - unfold ret in H. now injection H as _ <-.
  - apply bind_inv in H. destruct H as [(q & w1 & Hx & H)|(e & Hx & _)].
    + apply (copy_asset_debug env name x w w1 _ Hd) in Hx. subst w1.
      now apply IH in H.
    + now apply (copy_asset_debug env name x w w' _ Hd) in Hx.
Qed.

Lemma export_interview_debug (env : Env) (name : string) (w w' : World)
      (r : result unit) :
  debug env = true -> export_interview env name w = (r, w') -> w' = w.
Proof.
  intros Hd H. unfold export_interview in H.
  unfold bind at 1 in H. unfold get_fs at 1 in H. apply bind_inv in H.
  destruct H as [(qs & w1 & Hc & H)|(e & Hc & _)].
  - apply (copy_assets_debug env name _ Hd) in Hc. subst w1.
    rewrite Hd in H. unfold ret in H. now injection H as _ <-.
  - now apply (copy_assets_debug env name _ Hd) in Hc.
Qed.

(** A turn that finds nothing leaves the file system alone. *)
Lemma loop_body_idle_fs (env : Env) (st : LoopState) (w w' : World)
      (r : result LoopState) :
  found_in env w (study_id st) = None ->
  loop_body env st w = (r, w') -> fs w' = fs w.
Proof.
  intros Hf. unfold loop_body. unfold bind at 1.
  rewrite get_interview_name_to_process_eq, Hf.
  unfold bind, lift, emit, ret. intros H.
  repeat (destruct_head H; simpl in H); now injection H as _ <-.
Qed.

Lemma scheduler_events_app (a b : list Event) :
  existsb export_event (a ++ b)
  = existsb export_event a || existsb export_event b.
Proof. apply existsb_app. Qed.

Lemma loop_body_debug (env : Env) (st : LoopState) (w w' : World)
      (r : result LoopState) :
  debug env = true ->
  loop_body env st w = (r, w') ->
  fs w' = fs w
  /\ exported_assets w' = exported_assets w
  /\ exists tr, trace w' = trace w ++ tr /\ existsb export_event tr = false.
Proof.
  intros Hd H. pose proof H as H'. apply loop_body_cases in H.
  destruct H as [(F & _ & L & _ & first & _ & _ & T)
                |[(F & L & _ & l & i & n & _ & _ & _ & _ & _ & T)
                 |[(F & L & _ & e & _ & _ & T)
                  |(name & rx & F & Hx & _)]]].
  - split; [now apply (loop_body_idle_fs env st w w' r F)|].
    split; [assumption|]. eexists. split; [exact T|].
    unfold report. now destruct (Nat.ltb 0 (COUNTER st)).
  - split; [now apply (loop_body_idle_fs env st w w' r F)|].
    split; [assumption|]. eexists. split; [exact T | reflexivity].
  - split; [now apply (loop_body_idle_fs env st w w' r F)|].
    split; [assumption|]. eexists. split; [exact T | reflexivity].
  - apply (export_interview_debug env name _ _ _ Hd) in Hx. subst w'.
    split; [reflexivity|]. split; [reflexivity|].
    eexists. split; [reflexivity | reflexivity].
Qed.

Lemma loop_debug (env : Env) (fuel : nat) :
  debug env = true ->
  forall (st : LoopState) (w w' : World) (r : result LoopState),
    loop env fuel st w = (r, w') ->
    fs w' = fs w
    /\ exported_assets w' = exported_assets w
    /\ exists tr, trace w' = trace w ++ tr /\ existsb export_event tr = false.
Proof.
  intros Hd. induction fuel as [|fuel IH]; intros st w w' r H; simpl in H.
  - unfold ret in H. injection H as _ <-.
    split; [reflexivity|]. split; [reflexivity|].
    exists []. now rewrite app_nil_r.
  - apply bind_inv in H.
    destruct H as [(st1 & w1 & Hb & H)|(e & Hb & _)].
    + apply (loop_body_debug env _ _ _ _ Hd) in Hb.
      destruct Hb as (F1 & L1 & tr1 & T1 & P1).
      apply IH in H. destruct H as (F2 & L2 & tr2 & T2 & P2).
      split; [congruence|]. split; [congruence|].
      exists (tr1 ++ tr2). split; [rewrite T2, T1; now rewrite app_assoc|].
      now rewrite scheduler_events_app, P1, P2.
    + now apply (loop_body_debug env _ _ _ _ Hd) in Hb.
Qed.

(** X9. In debug mode a run of the loop, however long, leaves the file
    system and the ledger as they were: no directory is made, nothing is
    copied, written to the ledger or removed. *)
Theorem debug_mode_changes_nothing :
  forall (env : Env) (fuel : nat) (st : LoopState) (w : World),
    debug env = true ->
    fs (snd (loop env fuel st w)) = fs w
    /\ exported_assets (snd (loop env fuel st w)) = exported_assets w
    /\ exists tr,
        trace (snd (loop env fuel st w)) = trace w ++ tr
        /\ existsb export_event tr = false.
Proof.
  intros env fuel st w Hd.
  destruct (loop env fuel st w) as [r w'] eqn:H. simpl.
  now apply (loop_debug env fuel Hd) in H.
Qed.

Lemma debug_mode_changes_nothing_witness :
  fs (snd (loop (Demo.env true "") 5
                {| study_id := "ChicagoA"; COUNTER := 0 |} Demo.world0))
  = fs Demo.world0
  /\ exported_assets
       (snd (loop (Demo.env true "") 5
                  {| study_id := "ChicagoA"; COUNTER := 0 |} Demo.world0))
     = exported_assets Demo.world0
  /\ exists tr,
      trace (snd (loop (Demo.env true "") 5
                       {| study_id := "ChicagoA"; COUNTER := 0 |} Demo.world0))
      = trace Demo.world0 ++ tr
      /\ existsb export_event tr = false.
Proof.
  exact (debug_mode_changes_nothing (Demo.env true "") 5
           {| study_id := "ChicagoA"; COUNTER := 0 |} Demo.world0 eq_refl).
Defined.

(* ===================================================================== *)
(** ** The ledger and the copies                                          *)
(* ===================================================================== *)

(** The record of an asset is the asset with its resolved destination, and
    the copy made for it goes from the one to the other. *)
Lemma copy_asset_record (env : Env) (name : string) (x : Exportable)
      (w w' : World) (q : ExportedAsset) :
  copy_asset env name x w = (Ok q, w') ->
  exists d tr,
    get_export_path env name x = Ok d
    /\ q = record_of name x d
    /\ trace w' = trace w ++ tr
    /\ (debug env = false -> copies tr = [(path_of x, d)]).
Proof.
  destruct x as [[[p kind] tier] tag]. unfold copy_asset.
  unfold bind, get_fs, mkdir_parents, copy2, copytree, bind, get_fs, lift,
    set_fs, emit, ret, raise.
  intros H. repeat (destruct_head H; simpl in H).
  all: try discriminate H.
  all: injection H as <- <-; simpl.
  all: eexists; eexists; split; [reflexivity|]; split; [reflexivity|];
    split; [solve_trace|]; intros Hd; first [reflexivity | discriminate Hd].
Qed.

Lemma copy_assets_records (env : Env) (name : string) (xs : list Exportable) :
  forall (qs qs' : list ExportedAsset) (w w' : World),
    copy_assets env name xs qs w = (Ok qs', w') ->
    exists recs tr,
      qs' = qs ++ recs
      /\ trace w' = trace w ++ tr
      /\ Forall2 (fun x q =>
                    exists d, get_export_path env name x = Ok d
                              /\ q = record_of name x d) xs recs
      /\ (debug env = false ->
          copies tr
          = map (fun q => (asset_path q, asset_destination q)) recs).
Proof.
  induction xs as [|x xs IH]; intros qs qs' w w' H; simpl in H.
  - unfold ret in H. injection H as <- <-. exists [], [].
    rewrite !app_nil_r. repeat split. constructor.
  - apply bind_inv in H. destruct H as [(q & w1 & Hx & H)|(e & _ & C)];
      [|discriminate C].
    apply copy_asset_record in Hx. destruct Hx as (d & tr1 & Hd & -> & T1 & C1).
    apply IH in H. destruct H as (recs & tr2 & -> & T2 & F2 & C2).
    exists (record_of name x d :: recs), (tr1 ++ tr2).
    split; [now rewrite <- app_assoc|].
    split; [rewrite T2, T1; now rewrite app_assoc|].
    split; [constructor; [now exists d | assumption]|].
    intros Hdbg. unfold copies in *. rewrite flat_map_app.
    rewrite (C1 Hdbg), (C2 Hdbg). reflexivity.
Qed.

Lemma copies_app (a b : list Event) : copies (a ++ b) = copies a ++ copies b.
Proof. unfold copies. apply flat_map_app. Qed.

Lemma copies_delete_phase (tr : list Event) :
  forallb delete_phase tr = true -> copies tr = [].
Proof.
  induction tr as [|e tr IH]; [reflexivity|]. simpl. intros H.
  apply andb_true_iff in H. destruct H as [He H].
  destruct e; try discriminate He; simpl; now apply IH.
Qed.

(** X10. After an export that completed outside of debug mode, the rows
    added to the ledger are, in order, the assets collected for the
    interview, each with the destination the path resolver gives it, and
    the copies performed are exactly those from the [asset_path] to the
    [asset_destination] of these rows, in the same order. *)
Theorem ledger_rows_match_copies :
  forall (env : Env) (name : string) (w w' : World),
    debug env = false ->
    export_interview env name w = (Ok tt, w') ->
    exists qs tr,
      exported_assets w' = exported_assets w ++ qs
      /\ trace w' = trace w ++ tr
      /\ Forall2 (fun x q =>
                    exists d, get_export_path env name x = Ok d
                              /\ q = record_of name x d)
                 (get_pipeline_exports env name (fs w)) qs
      /\ copies tr = map (fun q => (asset_path q, asset_destination q)) qs.
Proof.
  intros env name w w' Hdbg H. apply export_interview_phases in H.
  destruct H as (rc & w1 & cps & wrs & dls & Hc & T1 & T & _ & P2 & _ & Hw).
  destruct Hw as [(_ & _ & _ & _ & D)|(qs & -> & _ & -> & L & _)].
  { rewrite (D eq_refl) in Hdbg. discriminate Hdbg. }
  apply copy_assets_records in Hc.
  destruct Hc as (recs & tr & E & T1' & F & C). simpl in E. subst recs.
  rewrite T1 in T1'. apply app_inv_head in T1'. subst tr.
  exists qs, (cps ++ [EvExecuteQueries qs] ++ dls).
  split; [assumption|]. split; [assumption|]. split; [assumption|].
  rewrite !copies_app, (C Hdbg), (copies_delete_phase dls P2). simpl.
  now rewrite app_nil_r.
Qed.

Lemma ledger_rows_match_copies_witness :
  exists qs tr,
    exported_assets
      (snd (export_interview (Demo.env false "") Demo.yy2 Demo.world0))
    = exported_assets Demo.world0 ++ qs
    /\ trace (snd (export_interview (Demo.env false "") Demo.yy2 Demo.world0))
       = trace Demo.world0 ++ tr
    /\ Forall2 (fun x q =>
                  exists d, get_export_path (Demo.env false "") Demo.yy2 x = Ok d
                            /\ q = record_of Demo.yy2 x d)
               (get_pipeline_exports (Demo.env false "") Demo.yy2
                  (fs Demo.world0)) qs
    /\ copies tr = map (fun q => (asset_path q, asset_destination q)) qs.
Proof.
  apply (ledger_rows_match_copies (Demo.env false "") Demo.yy2 Demo.world0 _
           eq_refl).
  pose proof (surjective_pairing
                (export_interview (Demo.env false "") Demo.yy2 Demo.world0))
    as Hp.
  assert (Hf : fst (export_interview (Demo.env false "") Demo.yy2 Demo.world0)
               = Ok tt)
    by (vm_compute; reflexivity).
  rewrite Hf in Hp. exact Hp.
Defined.

(** X11. Whatever its outcome, the export of an interview removes nothing
    but the sources of its assets that are not frame directories and what
    lies below them: every other path that existed still exists. *)
Theorem export_removes_only_sources :
  forall (env : Env) (name : string) (w : World) (q : Path),
    fs w q <> None ->
    (forall x,
        In x (get_pipeline_exports env name (fs w)) ->
        tag_of x <> "frames" ->
        PurePath.is_prefix (path_of x) q = false) ->
    fs (snd (export_interview env name w)) q <> None.
Proof.
  intros env name w q Hq Hout.
  destruct (export_interview env name w) as [r w'] eqn:H. simpl.
  apply export_interview_phases in H.
  destruct H as (rc & w1 & cps & wrs & dls & Hc & _ & _ & _ & _ & _ & Hw).
  apply copy_assets_spec in Hc. destruct Hc as (_ & _ & K & _).
  pose proof (fs_kept_exists _ _ q K Hq) as H1.
  destruct Hw as [(_ & _ & -> & _)|(qs & _ & _ & _ & _ & _ & U & _)];
    [assumption|].
  now rewrite (U q Hout).
Qed.

Lemma export_removes_only_sources_witness :
  fs (snd (export_interview (Demo.env false "") Demo.xx1 Demo.world0))
     (PurePath.of_str "/data/processed/decrypted/ChicagoA/XX1/video.mp4")
  <> None.
Proof.
  apply (export_removes_only_sources (Demo.env false "") Demo.xx1 Demo.world0).
  - vm_compute. discriminate.
  - intros x Hx _.
    assert (E : get_pipeline_exports (Demo.env false "") Demo.xx1
                  (fs Demo.world0)
                = [ (PurePath.of_str Demo.stream_1, "file", "PROTECTED", "streams");
                    (PurePath.of_str Demo.stream_2, "file", "PROTECTED", "streams");
                    (PurePath.of_str Demo.frames, "directory", "PROTECTED", "frames");
                    (PurePath.of_str Demo.openface, "directory", "PROTECTED", "openface") ])
      by (vm_compute; reflexivity).
    rewrite E in Hx.
    destruct Hx as [<-|[<-|[<-|[<-|[]]]]]; vm_compute; reflexivity.
Defined.

(** X12. When every asset has been copied and the write of the ledger
    fails, the export stops on that failure: the ledger is unchanged, the
    copies stay at their destinations, the clean-up does not run and every
    path that existed, the sources among them, still exists. *)
Theorem failed_ledger_write_deletes_nothing :
  forall (env : Env) (name : string) (w w1 : World)
         (qs : list ExportedAsset),
    debug env = false ->
    copy_assets env name (get_pipeline_exports env name (fs w)) [] w
    = (Ok qs, w1) ->
    execute_fails env qs = true ->
    export_interview env name w = (Raise DatabaseError, w1)
    /\ exported_assets w1 = exported_assets w
    /\ (forall q, fs w q <> None -> fs w1 q <> None)
    /\ exists tr,
        trace w1 = trace w ++ tr
        /\ forallb copy_phase tr = true
        /\ copied tr = map path_of (get_pipeline_exports env name (fs w)).
Proof.
  intros env name w w1 qs Hdbg Hc Hx. split.
  - unfold export_interview. unfold bind at 1. unfold get_fs at 1.
    rewrite (bind_ok _ _ _ _ _ Hc), Hdbg.
    apply bind_raise. unfold execute_queries. now rewrite Hx.
  - apply copy_assets_spec in Hc.
    destruct Hc as (L & _ & K & tr & T & P & recs & _ & _ & _ & Rd & _).
    split; [assumption|].
    split; [intros q; now apply fs_kept_exists|].
    exists tr. split; [assumption|]. split; [assumption|].
    now destruct (Rd Hdbg).
Qed.

Lemma failed_ledger_write_deletes_nothing_witness :
  export_interview (database_down (Demo.env false "")) Demo.yy2 Demo.world0
  = (Raise DatabaseError,
     snd (copy_assets (database_down (Demo.env false "")) Demo.yy2
            (get_pipeline_exports (database_down (Demo.env false "")) Demo.yy2
               (fs Demo.world0)) [] Demo.world0)).
Proof.
  pose proof (surjective_pairing
                (copy_assets (database_down (Demo.env false "")) Demo.yy2
                   (get_pipeline_exports (database_down (Demo.env false ""))
                      Demo.yy2 (fs Demo.world0)) [] Demo.world0)) as Hp.
  destruct (fst (copy_assets (database_down (Demo.env false "")) Demo.yy2
                   (get_pipeline_exports (database_down (Demo.env false ""))
                      Demo.yy2 (fs Demo.world0)) [] Demo.world0))
    as [qs|e] eqn:Hf.
  - exact (proj1 (failed_ledger_write_deletes_nothing
                    (database_down (Demo.env false "")) Demo.yy2 Demo.world0
                    _ qs eq_refl Hp eq_refl)).
  - exfalso. vm_compute in Hf. discriminate Hf.
Defined.

(* ===================================================================== *)
(** ** Exactly once                                                       *)
(* ===================================================================== *)

Lemma written_app (a b : list Event) : written (a ++ b) = written a ++ written b.
Proof. unfold written. apply flat_map_app. Qed.

Lemma written_copy_phase (tr : list Event) :
  forallb copy_phase tr = true -> written tr = [].
Proof.
  induction tr as [|e tr IH]; [reflexivity|]. simpl. intros H.
  apply andb_true_iff in H. destruct H as [He H].
  destruct e; try discriminate He; simpl; now apply IH.
Qed.

Lemma written_delete_phase (tr : list Event) :
  forallb delete_phase tr = true -> written tr = [].
Proof.
  induction tr as [|e tr IH]; [reflexivity|]. simpl. intros H.
  apply andb_true_iff in H. destruct H as [He H].
  destruct e; try discriminate He; simpl; now apply IH.
Qed.

(** A turn of the loop writes at most one batch, for the interview it
    selected, which had no row before and has one after. *)
Lemma loop_body_written (env : Env) (st : LoopState) (w w' : World)
      (r : result LoopState) :
  loop_body env st w = (r, w') ->
  exists tr qs,
    trace w' = trace w ++ tr
    /\ exported_assets w' = exported_assets w ++ qs
    /\ (written tr = []
        \/ exists name,
            written tr = [name]
            /\ ~ In name (map interview_name (exported_assets w))
            /\ In name (map interview_name qs)).
Proof.
  intros H. apply loop_body_cases in H.
  destruct H as [(_ & _ & L & _ & first & _ & _ & T)
                |[(_ & L & _ & l & i & n & _ & _ & _ & _ & _ & T)
                 |[(_ & L & _ & e & _ & _ & T)
                  |(name & rx & F & Hx & _)]]].
  - eexists. exists []. split; [exact T|].
    split; [now rewrite app_nil_r|]. left. unfold report.
    now destruct (Nat.ltb 0 (COUNTER st)).
  - eexists. exists []. split; [exact T|].
    split; [now rewrite app_nil_r|]. now left.
  - eexists. exists []. split; [exact T|].
    split; [now rewrite app_nil_r|]. now left.
  - apply export_interview_phases in Hx.
    destruct Hx as (rc & w1 & cps & wrs & dls & Hc & _ & T & P1 & P2 & _ & Hw).
    simpl in T, Hw.
    assert (Hwr : written (EvSelect (study_id st) (Some name)
                             :: cps ++ wrs ++ dls) = written wrs).
    { change (EvSelect (study_id st) (Some name) :: cps ++ wrs ++ dls)
        with ([EvSelect (study_id st) (Some name)] ++ cps ++ wrs ++ dls).
      rewrite !written_app, (written_copy_phase cps P1),
        (written_delete_phase dls P2). simpl. now rewrite app_nil_r. }
    destruct Hw as [(-> & _ & _ & L & _)|(qs & -> & _ & -> & L & _)].
    + exists (EvSelect (study_id st) (Some name) :: cps ++ [] ++ dls), [].
      rewrite app_nil_r. split; [now rewrite T, <- app_assoc|].
      split; [assumption|]. left. exact Hwr.
    + exists (EvSelect (study_id st) (Some name)
                :: cps ++ [EvExecuteQueries qs] ++ dls), qs.
      split; [now rewrite T, <- app_assoc|]. split; [assumption|].
      rewrite Hwr. destruct qs as [|q qs]; [now left|]. right.
      apply copy_assets_spec in Hc.
      destruct Hc as (_ & _ & _ & _ & _ & _ & recs & E & _ & Fn & _).
      simpl in E. subst recs. inversion Fn as [|q' l' Hq Hl]; subst.
      exists (interview_name q). split; [reflexivity|]. split.
      * intros C. exact (found_not_exported env w (study_id st) _ C F).
      * now left.
Qed.

Lemma loop_written (env : Env) (fuel : nat) :
  forall (st : LoopState) (w w' : World) (r : result LoopState),
    loop env fuel st w = (r, w') ->
    exists tr qs,
      trace w' = trace w ++ tr
      /\ exported_assets w' = exported_assets w ++ qs
      /\ NoDup (written tr)
      /\ forall n,
          In n (written tr) ->
          ~ In n (map interview_name (exported_assets w))
          /\ In n (map interview_name qs).
Proof.
  induction fuel as [|fuel IH]; intros st w w' r H; simpl in H.
  - unfold ret in H. injection H as _ <-. exists [], [].
    rewrite !app_nil_r. repeat split; try constructor; contradiction.
  - apply bind_inv in H.
    assert (Hone : forall r1 w1,
               loop_body env st w = (r1, w1) ->
               exists tr qs,
                 trace w1 = trace w ++ tr
                 /\ exported_assets w1 = exported_assets w ++ qs
                 /\ NoDup (written tr)
                 /\ forall n,
                     In n (written tr) ->
                     ~ In n (map interview_name (exported_assets w))
                     /\ In n (map interview_name qs)).
    { intros r1 w1 Hb. apply loop_body_written in Hb.
      destruct Hb as (tr & qs & T & L & [Wr|(name & Wr & Hn & Hq)]);
        exists tr, qs; rewrite Wr;
        (split; [assumption|]); (split; [assumption|]).
      - split; [constructor | intros n []].
      - split; [repeat constructor; intros [] |].
        intros n [<-|[]]. now split. }
    destruct H as [(st1 & w1 & Hb & H)|(e & Hb & _)]; [|now apply Hone in Hb].
    apply Hone in Hb. destruct Hb as (tr1 & qs1 & T1 & L1 & N1 & W1).
    apply IH in H. destruct H as (tr2 & qs2 & T2 & L2 & N2 & W2).
    exists (tr1 ++ tr2), (qs1 ++ qs2).
    split; [rewrite T2, T1; now rewrite app_assoc|].
    split; [rewrite L2, L1; now rewrite app_assoc|].
    rewrite written_app. split.
    + apply NoDup_app; [assumption | assumption |].
      intros n H1 H2. destruct (W1 n H1) as (_ & Hq).
      destruct (W2 n H2) as (Hn & _). apply Hn.
      rewrite L1, map_app. apply in_or_app. now right.
    + intros n Hin. apply in_app_or in Hin. destruct Hin as [Hin|Hin].
      * destruct (W1 n Hin) as (Hn & Hq). split; [assumption|].
        rewrite map_app. apply in_or_app. now left.
      * destruct (W2 n Hin) as (Hn & Hq). split.
        -- intros C. apply Hn. rewrite L1, map_app. apply in_or_app.
           now left.
        -- rewrite map_app. apply in_or_app. now right.
Qed.

(** X13. Along any run of the loop over studies whose identifiers hold no
    quote, started on one of them, the ledger only grows, and the batches
    written (those that hold a record) are for pairwise distinct
    interviews, none of which had a row in the ledger before the run: no
    interview is exported twice. *)
Theorem batches_written_once :
  forall (env : Env) (fuel : nat) (st : LoopState) (w : World),
    Forall (fun s => Sql.literal s = true) (studies env) ->
    In (study_id st) (studies env) ->
    exists tr qs,
      trace (snd (loop env fuel st w)) = trace w ++ tr
      /\ exported_assets (snd (loop env fuel st w)) = exported_assets w ++ qs
      /\ NoDup (written tr)
      /\ forall n,
          In n (written tr) ->
          ~ In n (map interview_name (exported_assets w))
          /\ In n (map interview_name qs).
Proof.
  intros env fuel st w _ _.
  destruct (loop env fuel st w) as [r w'] eqn:H. simpl.
  now apply loop_written in H.
Qed.

Lemma batches_written_once_witness :
  exists tr qs,
    trace (snd (loop (Demo.env false "") 4
                     {| study_id := "ChicagoA"; COUNTER := 0 |} Demo.world0))
    = trace Demo.world0 ++ tr
    /\ exported_assets
         (snd (loop (Demo.env false "") 4
                    {| study_id := "ChicagoA"; COUNTER := 0 |} Demo.world0))
       = exported_assets Demo.world0 ++ qs
    /\ NoDup (written tr)
    /\ forall n,
        In n (written tr) ->
        ~ In n (map interview_name (exported_assets Demo.world0))
        /\ In n (map interview_name qs).
Proof.
  apply (batches_written_once (Demo.env false "") 4
           {| study_id := "ChicagoA"; COUNTER := 0 |} Demo.world0).
  - repeat constructor.
  - left. reflexivity.
Defined.

(* ===================================================================== *)
(** ** Destinations                                                       *)
(* ===================================================================== *)

Lemma of_str_roots (s : string) :
  exists comps,
    Forall (fun c => PurePath.is_component c = true) comps
    /\ (PurePath.of_str s = comps
        \/ PurePath.of_str s = "/" :: comps
        \/ PurePath.of_str s = "//" :: comps).
Proof.
  exists (filter PurePath.kept (PyStr.split PurePath.slash s)). split.
  - apply Forall_forall. intros c Hc. apply filter_In in Hc.
    destruct Hc as [Hin Hk]. unfold PurePath.is_component.
    now rewrite Hk, (split_no_sep _ _ _ Hin).
  - unfold PurePath.of_str.
    destruct (PyStr.leading PurePath.slash s) as [|[|[|n]]]; auto.
Qed.

Lemma Forall_skipn_components (n : nat) (l : list string) :
  Forall (fun c => PurePath.is_component c = true) l ->
  Forall (fun c => PurePath.is_component c = true) (skipn n l).
Proof.
  revert l. induction n as [|n IH]; intros l H; [assumption|].
  destruct l as [|a l]; [constructor|]. simpl. apply IH. now inversion H.
Qed.

Lemma of_str_skipn (s : string) (n : nat) :
  Forall (fun c => PurePath.is_component c = true)
         (skipn (n + 1) (PurePath.of_str s)).
Proof.
  destruct (of_str_roots s) as (comps & Hc & [E|[E|E]]); rewrite E.
  - now apply Forall_skipn_components.
  - rewrite Nat.add_1_r. simpl. now apply Forall_skipn_components.
  - rewrite Nat.add_1_r. simpl. now apply Forall_skipn_components.
Qed.

(** The name of a path made from a string is empty or a component. *)
Lemma name_of_str (s : string) :
  PurePath.name (PurePath.of_str s) = ""
  \/ PurePath.is_component (PurePath.name (PurePath.of_str s)) = true.
Proof.
  destruct (of_str_roots s) as (comps & Hc & [E|[E|E]]); rewrite E.
  - destruct comps as [|c [|c' comps]].
    + now left.
    + right. inversion Hc; subst. simpl.
      now rewrite (component_not_root c).
    + right. unfold PurePath.name.
      apply (proj1 (Forall_forall _ _) Hc).
      apply last_in. discriminate.
  - destruct comps as [|c comps]; [now left|]. right.
    unfold PurePath.name.
    change (last ("/" :: c :: comps) "") with (last (c :: comps) "").
    apply (proj1 (Forall_forall _ _) Hc). apply last_in. discriminate.
  - destruct comps as [|c comps]; [now left|]. right.
    unfold PurePath.name.
    change (last ("//" :: c :: comps) "") with (last (c :: comps) "").
    apply (proj1 (Forall_forall _ _) Hc). apply last_in. discriminate.
Qed.

Lemma destination_parts (env : Env) (name src kind tier tag : string)
      (base d : Path) :
  construct_export_path env name tier = Ok base ->
  get_export_path env name (PurePath.of_str src, kind, tier, tag) = Ok d ->
  exists rest,
    d = base ++ rest
    /\ Forall (fun c => PurePath.is_component c = true) rest.
Proof.
  intros Hb. unfold get_export_path. rewrite Hb. simpl.
  destruct (String.eqb tag "face_processing_pipeline").
  - intros [= <-]. unfold PurePath.join_str.
    destruct (name_of_str src) as [E|E].
    + rewrite E. exists []. split; [reflexivity | constructor].
    + rewrite (of_str_component _ E).
      exists [PurePath.name (PurePath.of_str src)].
      split; [|now repeat constructor].
      apply join_components. now repeat constructor.
  - destruct (PyStr.index "processed" (PurePath.of_str src)) as [i|e];
      simpl; [|discriminate].
    destruct (PyStr.mem "decrypted" (PurePath.of_str src)); simpl.
    + destruct (PyStr.index "decrypted" (PurePath.of_str src)) as [j|e];
        simpl; [|discriminate].
      intros [= <-]. pose proof (of_str_skipn src j) as F.
      exists (skipn (j + 1) (PurePath.of_str src)).
      rewrite (of_args_components _ F), (join_components _ _ F). now split.
    + intros [= <-]. pose proof (of_str_skipn src i) as F.
      exists (skipn (i + 1) (PurePath.of_str src)).
      rewrite (of_args_components _ F), (join_components _ _ F). now split.
Qed.

(** X14. Whatever the family of the asset, the destination the resolver
    gives to a source made from a string is the base export path followed
    by components: as parts, the destination lies at or below the folder of
    the interview. *)
Theorem destination_below_base :
  forall (env : Env) (name src kind tier tag : string) (base d : Path),
    construct_export_path env name tier = Ok base ->
    get_export_path env name (PurePath.of_str src, kind, tier, tag) = Ok d ->
    PurePath.is_prefix base d = true
    /\ exists rest,
        d = base ++ rest
        /\ Forall (fun c => PurePath.is_component c = true) rest.
Proof.
  intros env name src kind tier tag base d Hb Hd.
  destruct (destination_parts env name src kind tier tag base d Hb Hd)
    as (rest & -> & F).
  split; [|now exists rest].
  clear. induction base as [|a base IH]; simpl; [reflexivity|].
  now rewrite String.eqb_refl.
Qed.

Lemma destination_below_base_witness :
  PurePath.is_prefix
    (PurePath.of_str "/export_root/PROTECTED/ChicagoA/processed/XX1/interviews/followup")
    (PurePath.of_str "/export_root/PROTECTED/ChicagoA/processed/XX1/interviews/followup/ChicagoA/XX1/streams/stream_1.mp4")
  = true
  /\ exists rest,
      PurePath.of_str "/export_root/PROTECTED/ChicagoA/processed/XX1/interviews/followup/ChicagoA/XX1/streams/stream_1.mp4"
      = PurePath.of_str "/export_root/PROTECTED/ChicagoA/processed/XX1/interviews/followup"
          ++ rest
      /\ Forall (fun c => PurePath.is_component c = true) rest.
Proof.
  apply (destination_below_base (Demo.env false "") Demo.xx1 Demo.stream_1
           "file" "PROTECTED" "streams").
  - vm_compute. reflexivity.
  - vm_compute. reflexivity.
Defined.

(** X15. When the export type, the study, the subject and the first token
    of the data type are plain components (not empty, not ["."], without a
    slash), the base export path is the data root followed by these six
    parts.  A name that does not parse raises what the parser raises, and a
    data type without a token raises [IndexError]. *)
Theorem construct_export_path_layout :
  (forall (env : Env) (name tier : string) (d : dpdash_dict) (t : string)
          (ts : list string),
      parse_dpdash_name env name = Ok d ->
      camel_case_split env (data_type d) = t :: ts ->
      PurePath.is_component tier = true ->
      PurePath.is_component (study d) = true ->
      PurePath.is_component (subject d) = true ->
      PurePath.is_component t = true ->
      construct_export_path env name tier
      = Ok (data_root env
              ++ [tier; study d; "processed"; subject d; "interviews"; t]))
  /\ (forall (env : Env) (name tier : string) (e : exn),
         parse_dpdash_name env name = Raise e ->
         construct_export_path env name tier = Raise e)
  /\ (forall (env : Env) (name tier : string) (d : dpdash_dict),
         parse_dpdash_name env name = Ok d ->
         camel_case_split env (data_type d) = [] ->
         construct_export_path env name tier = Raise IndexError).
Proof.
  split; [|split].
  - intros env name tier d t ts Hp Hc Ht Hs Hu Hk.
    rewrite (construct_export_path_ok env name tier d t ts Hp Hc).
    unfold PurePath.join_str.
    rewrite !of_str_component by (assumption || reflexivity).
    rewrite !join_components
      by (repeat constructor; assumption || reflexivity).
    now rewrite <- !app_assoc.
  - intros env name tier e Hp. unfold construct_export_path.
    now rewrite Hp.
  - intros env name tier d Hp Hc. unfold construct_export_path.
    now rewrite Hp; simpl; rewrite Hc.
Qed.

Lemma construct_export_path_layout_witness :
  construct_export_path (Demo.env false "") Demo.xx1 "PROTECTED"
  = Ok (PurePath.of_str "/export_root"
          ++ ["PROTECTED"; "ChicagoA"; "processed"; "XX1"; "interviews";
              "followup"])
  /\ construct_export_path (Demo.env false "") "ChicagoA-XX1" "PROTECTED"
     = Raise ValueError
  /\ construct_export_path (Demo.env false "") "ChicagoA-XX1-" "PROTECTED"
     = Raise IndexError.
Proof.
  split; [|split].
  - apply (proj1 construct_export_path_layout (Demo.env false "") Demo.xx1
             "PROTECTED"
             {| study := "ChicagoA"; subject := "XX1";
                data_type := "followupInterview" |}
             "followup" ["Interview"]); reflexivity.
  - apply (proj1 (proj2 construct_export_path_layout)). reflexivity.
  - apply (proj2 (proj2 construct_export_path_layout) (Demo.env false "")
             "ChicagoA-XX1-" "PROTECTED"
             {| study := "ChicagoA"; subject := "XX1"; data_type := "" |});
      reflexivity.
Defined.

(* ===================================================================== *)
(** ** A list of studies that ends on its first study                     *)
(* ===================================================================== *)

Lemma loop_first_is_last (env : Env) (s : string) :
  getitem (studies env) 0 = Ok s ->
  getitem_last (studies env) = Ok s ->
  forall (fuel c : nat) (w w' : World) (r : result LoopState),
    loop env fuel {| study_id := s; COUNTER := c |} w = (r, w') ->
    exists tr,
      trace w' = trace w ++ tr
      /\ forall s' found, In (EvSelect s' found) tr -> s' = s.
Proof.
  intros H0 Hl. induction fuel as [|fuel IH]; intros c w w' r H; simpl in H.
  - unfold ret in H. injection H as _ <-. exists []. rewrite app_nil_r.
    split; [reflexivity|]. intros s' found [].
  - apply bind_inv in H.
    destruct H as [(st1 & w1 & Hb & H)|(e & Hb & _)].
    + pose proof (loop_body_frame _ _ _ _ _ Hb) as (tr1 & qs & T1 & N1 & _).
      simpl in T1.
      assert (Hst : study_id st1 = s).
      { apply loop_body_cases in Hb. simpl in Hb.
        destruct Hb as [(_ & _ & _ & _ & first & H0' & C & _)
                       |[(_ & _ & _ & l & i & n & El & Ne & _)
                        |[(_ & _ & _ & e & C & _)
                         |(name & rx & _ & _ & C)]]].
        - injection C as ->. simpl. congruence.
        - rewrite Hl in El. injection El as <-. now contradiction Ne.
        - discriminate C.
        - destruct rx; [|discriminate C]. now injection C as ->. }
      destruct st1 as [s1 c1]. simpl in Hst. subst s1.
      apply IH in H. destruct H as (tr2 & T2 & N2).
      exists ((EvSelect s (found_in env w s) :: tr1) ++ tr2).
      split; [rewrite T2, T1; now rewrite <- app_assoc|].
      intros s' found Hin. apply in_app_or in Hin.
      destruct Hin as [[Hin|Hin]|Hin].
      * now injection Hin as <- _.
      * now apply N1 in Hin.
      * now apply N2 in Hin.
    + apply loop_body_frame in Hb. destruct Hb as (tr1 & qs & T1 & N1 & _).
      simpl in T1. exists (EvSelect s (found_in env w s) :: tr1).
      split; [assumption|].
      intros s' found [Hin|Hin]; [now injection Hin as <- _|].
      now apply N1 in Hin.
Qed.

(** X16. The cursor is compared with the last study by value: when the
    first and the last study of the list are the same identifier, the
    cursor never leaves it, and every selection query of the run, however
    long, is for that study; the studies in between are never asked. *)
Theorem cursor_stays_when_first_is_last :
  forall (env : Env) (s : string) (fuel : nat) (w : World),
    getitem (studies env) 0 = Ok s ->
    getitem_last (studies env) = Ok s ->
    exists tr,
      trace (snd (main env fuel w)) = trace w ++ tr
      /\ forall s' found, In (EvSelect s' found) tr -> s' = s.
Proof.
  intros env s fuel w H0 Hl.
  assert (Hm : main env fuel w
               = loop env fuel {| study_id := s; COUNTER := 0 |} w).
  { unfold main, bind, lift. now rewrite H0. }
  rewrite Hm.
  destruct (loop env fuel {| study_id := s; COUNTER := 0 |} w) as [r w']
    eqn:H. simpl.
  now apply (loop_first_is_last env s H0 Hl) in H.
Qed.

Lemma cursor_stays_when_first_is_last_witness :
  exists tr,
    trace (snd (main (with_studies (Demo.env false "")
                        ["ChicagoA"; "BostonB"; "ChicagoA"]) 6 Demo.world0))
    = trace Demo.world0 ++ tr
    /\ forall s' found, In (EvSelect s' found) tr -> s' = "ChicagoA".
Proof.
  apply (cursor_stays_when_first_is_last
           (with_studies (Demo.env false "")
              ["ChicagoA"; "BostonB"; "ChicagoA"])
           "ChicagoA" 6 Demo.world0); reflexivity.
Defined.

(* ===================================================================== *)
(** ** The frame directory                                                *)
(* ===================================================================== *)

Lemma is_prefix_trans (a b c : Path) :
  PurePath.is_prefix a b = true -> PurePath.is_prefix b c = true ->
  PurePath.is_prefix a c = true.
Proof.
  revert b c. induction a as [|x a IH]; intros [|y b] [|z c]; simpl;
    try reflexivity; try discriminate.
  intros H1 H2. apply andb_true_iff in H1, H2.
  destruct H1 as [E1 H1], H2 as [E2 H2].
  apply String.eqb_eq in E1, E2. subst. rewrite String.eqb_refl. simpl.
  now apply IH with (b := b).
Qed.

(** Two paths above a same path: one is above the other. *)
Lemma is_prefix_comparable (a b q : Path) :
  PurePath.is_prefix a q = true -> PurePath.is_prefix b q = true ->
  related a b = true.
Proof.
  unfold related. revert b q.
  induction a as [|x a IH]; intros [|y b] [|z q]; simpl;
    try reflexivity; try discriminate.
  intros H1 H2. apply andb_true_iff in H1, H2.
  destruct H1 as [E1 H1], H2 as [E2 H2].
  apply String.eqb_eq in E1, E2. subst. rewrite String.eqb_refl. simpl.
  now apply IH with (q := q).
Qed.

Lemma is_prefix_app (p l : Path) : PurePath.is_prefix p (p ++ l) = true.
Proof.
  induction p as [|a p IH]; simpl; [reflexivity|].
  now rewrite String.eqb_refl.
Qed.

Lemma is_prefix_removelast (p : Path) :
  PurePath.is_prefix (removelast p) p = true.
Proof.
  induction p as [|a [|b p] IH]; simpl; try reflexivity.
  rewrite String.eqb_refl. exact IH.
Qed.

Lemma is_prefix_parent (p : Path) :
  PurePath.is_prefix (PurePath.parent p) p = true.
Proof.
  destruct p as [|a [|b p]].
  - reflexivity.
  - simpl. destruct (PurePath.is_root a); simpl;
      [now rewrite String.eqb_refl | reflexivity].
  - apply is_prefix_removelast.
Qed.

(** A path that is not related to [P] is neither above nor below a path
    below [P]. *)
Lemma unrelated_not_above (d P q : Path) :
  related d P = false -> PurePath.is_prefix P q = true ->
  PurePath.is_prefix d q = false.
Proof.
  intros Hr Hq. destruct (PurePath.is_prefix d q) eqn:E; [|reflexivity].
  now rewrite (is_prefix_comparable d P q E Hq) in Hr.
Qed.

Lemma unrelated_not_below (d P q : Path) :
  related d P = false -> PurePath.is_prefix P q = true ->
  PurePath.is_prefix q d = false.
Proof.
  intros Hr Hq. destruct (PurePath.is_prefix q d) eqn:E; [|reflexivity].
  unfold related in Hr. rewrite (is_prefix_trans P q d Hq E) in Hr.
  now rewrite orb_true_r in Hr.
Qed.

Lemma is_prefix_snoc (P d : Path) (n : string) :
  PurePath.is_prefix P (d ++ [n]) = true ->
  PurePath.is_prefix P d = true \/ P = d ++ [n].
Proof.
  revert d. induction P as [|a P IH]; intros d H; [now left|].
  destruct d as [|b d]; simpl in H.
  - apply andb_true_iff in H. destruct H as [E H].
    apply String.eqb_eq in E. subst a.
    destruct P; [now right | discriminate H].
  - apply andb_true_iff in H. destruct H as [E H].
    apply String.eqb_eq in E. subst a. simpl. rewrite String.eqb_refl.
    destruct (IH d H) as [H1| ->]; [now left | now right].
Qed.

Lemma is_prefix_firstn (q p : Path) :
  PurePath.is_prefix q p = true ->
  q = firstn (List.length q) p /\ List.length q <= List.length p.
Proof.
  revert p. induction q as [|a q IH]; intros p H.
  - split; [reflexivity | simpl; lia].
  - destruct p as [|b p]; [discriminate H|]. simpl in H.
    apply andb_true_iff in H. destruct H as [E H].
    apply String.eqb_eq in E. subst b.
    destruct (IH p H) as (E1 & E2). simpl. split; [now f_equal | lia].
Qed.

(** What [anchored] says: every path above, the empty one apart, exists. *)
Lemma anchored_exists (f : FS) (p q : Path) :
  anchored f p = true -> q <> [] -> PurePath.is_prefix q p = true ->
  f q <> None.
Proof.
  unfold anchored, Files.prefixes. intros H Hq Hp.
  destruct (is_prefix_firstn q p Hp) as (E & Hl).
  rewrite <- cons_seq in H. simpl in H.
  rewrite forallb_forall in H.
  assert (Hin : In q (map (fun k => firstn k p) (seq 1 (List.length p)))).
  { apply in_map_iff. exists (List.length q). split; [now symmetry|].
    apply in_seq. destruct q; [contradiction | simpl in Hl |- *; lia]. }
  specialize (H q Hin). unfold Files.exists_ in H.
  intros C. now rewrite C in H.
Qed.

Lemma anchored_kept (f f' : FS) (p : Path) :
  fs_kept f f' -> anchored f p = true -> anchored f' p = true.
Proof.
  unfold anchored. intros K H. rewrite forallb_forall in *.
  intros q Hq. specialize (H q Hq). unfold Files.exists_ in *.
  destruct (f q) eqn:E; [|discriminate H].
  pose proof (fs_kept_exists f f' q K) as X. rewrite E in X.
  destruct (f' q); [reflexivity|]. now contradiction X.
Qed.

(** Copies leave what lies at or below the directory [P] as it is when
    their destination does not lie at or below [P]. *)
Lemma makedirs_below (f f' : FS) (p P : Path) :
  Files.makedirs f p = Ok f' ->
  PurePath.is_prefix P p = false ->
  forall q, PurePath.is_prefix P q = true -> f' q = f q.
Proof.
  unfold Files.makedirs.
  destruct (existsb (Files.is_file f) (Files.prefixes p)); [discriminate|].
  intros H Hp q Hq. injection H as <-.
  destruct (PurePath.is_prefix q p) eqn:E; [|reflexivity].
  now rewrite (is_prefix_trans P q p Hq E) in Hp.
Qed.

Lemma makedirs_parent_below (f f' : FS) (d P : Path) :
  Files.makedirs f (PurePath.parent d) = Ok f' ->
  PurePath.is_prefix P d = false ->
  forall q, PurePath.is_prefix P q = true -> f' q = f q.
Proof.
  intros H Hd. apply (makedirs_below f f' _ P H).
  destruct (PurePath.is_prefix P (PurePath.parent d)) eqn:E; [|reflexivity].
  now rewrite (is_prefix_trans _ _ _ E (is_prefix_parent d)) in Hd.
Qed.

Lemma copy2_below (f f' : FS) (s d P : Path) :
  Files.copy2 f s d = Ok f' ->
  PurePath.is_prefix P d = false ->
  f P = Some Dir ->
  PurePath.name s = ""
  \/ PurePath.is_component (PurePath.name s) = true ->
  forall q, PurePath.is_prefix P q = true -> f' q = f q.
Proof.
  unfold Files.copy2. destruct (f s) as [[c|]|]; try discriminate.
  set (target := if Files.is_dir f d then d // PurePath.name s else d).
  destruct (Files.is_dir f target) eqn:Ht; [discriminate|].
  destruct (PurePath.eqb s target); [discriminate|].
  destruct (Files.is_dir f (PurePath.parent target)); [|discriminate].
  intros H Hd HP Hn q Hq. injection H as <-. unfold Files.write.
  destruct (PurePath.eqb q target) eqn:E; [|reflexivity].
  apply path_eqb_eq in E. subst q. exfalso.
  assert (Hcases : target = d \/ target = d ++ [PurePath.name s]).
  { unfold target. destruct (Files.is_dir f d); [|now left].
    destruct Hn as [->|Hn].
    - left. unfold PurePath.join_str, PurePath.join. simpl.
      apply app_nil_r.
    - right. unfold PurePath.join_str.
      rewrite (of_str_component _ Hn). unfold PurePath.join. simpl.
      now rewrite (component_not_root _ Hn). }
  destruct Hcases as [E|E]; rewrite E in *.
  - now rewrite Hq in Hd.
  - destruct (is_prefix_snoc P d _ Hq) as [H1|H1].
    + now rewrite H1 in Hd.
    + unfold Files.is_dir in Ht. rewrite <- H1, HP in Ht. discriminate Ht.
Qed.

Lemma copytree_below (f f' : FS) (s d P : Path) :
  Files.copytree f s d = Ok f' ->
  PurePath.is_prefix P d = false ->
  anchored f P = true ->
  d <> [] ->
  forall q, PurePath.is_prefix P q = true -> f' q = f q.
Proof.
  unfold Files.copytree.
  destruct (negb (Files.is_dir f s)); [discriminate|].
  destruct (Files.exists_ f d) eqn:Hx; [discriminate|].
  destruct (Files.makedirs f d) as [f1|e] eqn:E; [|discriminate].
  simpl. intros H Hd Ha Hne q Hq. injection H as <-.
  rewrite (makedirs_below f f1 d P E Hd q Hq).
  destruct (f q) eqn:Hfq; [reflexivity|].
  destruct (PurePath.is_prefix d q) eqn:Hdq; [|reflexivity].
  exfalso.
  pose proof (is_prefix_comparable d P q Hdq Hq) as C. unfold related in C.
  rewrite Hd, orb_false_r in C.
  apply (anchored_exists f P d Ha Hne C).
  unfold Files.exists_ in Hx. now destruct (f d).
Qed.

Lemma join_nonempty (a b : Path) : a <> [] -> PurePath.join a b <> [].
Proof.
  unfold PurePath.join. intros Ha.
  destruct (PurePath.is_absolute b) eqn:E.
  - destruct b; [discriminate E | discriminate].
  - destruct a; [contradiction | discriminate].
Qed.

Lemma join_nonempty_r (a b : Path) : b <> [] -> PurePath.join a b <> [].
Proof.
  unfold PurePath.join. intros Hb.
  destruct (PurePath.is_absolute b); [assumption|].
  destruct a; [assumption | discriminate].
Qed.

(** A destination has parts. *)
Lemma get_export_path_nonempty (env : Env) (name : string) (x : Exportable)
      (d : Path) :
  get_export_path env name x = Ok d -> d <> [].
Proof.
  destruct x as [[[p kind] tier] tag]. unfold get_export_path.
  destruct (construct_export_path env name tier) as [base|e] eqn:Hb;
    [|discriminate].
  assert (Hne : base <> []).
  { unfold construct_export_path, and_then in Hb.
    destruct (parse_dpdash_name env name); [|discriminate].
    destruct (getitem _ 0); [|discriminate].
    injection Hb as <-. unfold PurePath.join_str.
    apply join_nonempty, join_nonempty_r. discriminate. }
  unfold and_then.
  destruct (String.eqb tag "face_processing_pipeline").
  - intros [= <-]. now apply join_nonempty.
  - destruct (PyStr.index "processed" p); [|discriminate].
    destruct (if PyStr.mem "decrypted" p
              then PyStr.index "decrypted" p else Ok a); [|discriminate].
    intros [= <-]. now apply join_nonempty.
Qed.

(** The files among the assets collected are the streams, whose paths are
    made from the strings of the query. *)
Lemma exports_file_source (env : Env) (name : string) (f : FS)
      (x : Exportable) :
  In x (get_pipeline_exports env name f) ->
  type_of x = "file" ->
  exists v, path_of x = PurePath.of_str v.
Proof.
  unfold get_pipeline_exports, get_pipeline_streams. intros Hin Hk.
  apply in_app_or in Hin. destruct Hin as [Hin|Hin].
  - assert (Hs : In x (map (fun stream : Path =>
                              (stream, "file", "PROTECTED", "streams"))
                           (map PurePath.of_str (vs_path env name)))).
    { destruct (get_pipeline_frames env name f); [|assumption].
      apply in_app_or in Hin. destruct Hin as [Hin|[<-|[]]];
        [assumption | discriminate Hk]. }
    apply in_map_iff in Hs. destruct Hs as (p & <- & Hp).
    apply in_map_iff in Hp. destruct Hp as (v & <- & _). now exists v.
  - apply in_map_iff in Hin. destruct Hin as (p & <- & _). discriminate Hk.
Qed.

Lemma copy_asset_below (env : Env) (name : string) (x : Exportable)
      (w w' : World) (r : result ExportedAsset) (P : Path) :
  copy_asset env name x w = (r, w') ->
  (forall d, get_export_path env name x = Ok d ->
             PurePath.is_prefix P d = false) ->
  (type_of x = "file" ->
   PurePath.name (path_of x) = ""
   \/ PurePath.is_component (PurePath.name (path_of x)) = true) ->
  fs w P = Some Dir ->
  anchored (fs w) P = true ->
  forall q, PurePath.is_prefix P q = true -> fs w' q = fs w q.
Proof.
  destruct x as [[[p kind] tier] tag]. unfold copy_asset.
  unfold bind, get_fs, mkdir_parents, copy2, copytree, bind, get_fs, lift,
    set_fs, emit, ret, raise.
  intros H Hd Hn HP Ha q Hq. simpl in Hn.
  destruct (get_export_path env name (p, kind, tier, tag)) as [d|e] eqn:Hx;
    simpl in H; [|now injection H as <- <-].
  pose proof (Hd d eq_refl) as Hr.
  pose proof (get_export_path_nonempty env name _ d Hx) as Hne.
  repeat (destruct_head H; simpl in H).
  all: injection H as <- <-; simpl; try reflexivity.
  all: try match goal with
           | E : (_ =? "file") = true |- _ =>
               apply String.eqb_eq in E; specialize (Hn E)
           end.
  all: repeat match goal with
         | E : Files.copy2 ?f _ _ = Ok ?f' |- ?f' _ = _ =>
             rewrite (copy2_below f _ _ _ P E Hr);
               [ | | assumption | assumption ]
         | E : Files.copytree _ _ _ = Ok ?f' |- ?f' _ = _ =>
             rewrite (copytree_below _ _ _ _ P E Hr Ha Hne q Hq)
         | E : Files.makedirs _ _ = Ok ?f' |- ?f' _ = _ =>
             rewrite (makedirs_parent_below _ _ _ P E Hr q Hq)
         | E : Files.makedirs _ _ = Ok ?f' |- ?f' _ = Some Dir =>
             rewrite (makedirs_parent_below _ _ _ P E Hr P
                        (is_prefix_refl P))
         end.
  all: try reflexivity; try assumption.
Qed.

Lemma copy_assets_below (env : Env) (name : string) (P : Path)
      (xs : list Exportable) :
  forall (qs : list ExportedAsset) (w w' : World)
         (r : result (list ExportedAsset)),
    copy_assets env name xs qs w = (r, w') ->
    (forall y d, In y xs -> get_export_path env name y = Ok d ->
                 PurePath.is_prefix P d = false) ->
    (forall y, In y xs -> type_of y = "file" ->
               PurePath.name (path_of y) = ""
               \/ PurePath.is_component (PurePath.name (path_of y)) = true) ->
    fs w P = Some Dir ->
    anchored (fs w) P = true ->
    forall q, PurePath.is_prefix P q = true -> fs w' q = fs w q.
Proof.
  induction xs as [|x xs IH]; intros qs w w' r H Hd Hn HP Ha q Hq;
    simpl in H.
  - unfold ret in H. now injection H as <- <-.
  - apply bind_inv in H.
    destruct H as [(rec & w1 & Hx & Hrest)|(e & Hx & ->)].
    + pose proof (copy_asset_spec env name x w w1 _ Hx) as (_ & _ & K & _).
      rewrite (IH _ _ _ _ Hrest
                  (fun y d Hy => Hd y d (or_intror Hy))
                  (fun y Hy => Hn y (or_intror Hy))
                  (proj2 (K P) HP) (anchored_kept _ _ P K Ha) q Hq).
      exact (copy_asset_below env name x w w1 _ P Hx
               (fun d => Hd x d (or_introl eq_refl))
               (Hn x (or_introl eq_refl)) HP Ha q Hq).
    + exact (copy_asset_below env name x w w' _ P Hx
               (fun d => Hd x d (or_introl eq_refl))
               (Hn x (or_introl eq_refl)) HP Ha q Hq).
Qed.

(** C7, as amended.  After an export that completed outside of debug mode,
    the source of every asset that is not tagged ["frames"] is gone, and an
    asset tagged ["frames"] is still the directory it was, with everything at
    or below its path as it was before the export, provided no other
    exported asset has a source that is this directory or lies above or
    below it, and no exported asset has a destination that is this directory
    or lies below it.  The file system is taken to hold the directories
    above the frame directory, which exists. *)
Theorem frames_kept_other_sources_removed :
  forall (env : Env) (name : string) (w w' : World),
    debug env = false ->
    export_interview env name w = (Ok tt, w') ->
    (forall x,
        In x (get_pipeline_exports env name (fs w)) ->
        tag_of x <> "frames" -> fs w' (path_of x) = None)
    /\ (forall x,
           In x (get_pipeline_exports env name (fs w)) ->
           tag_of x = "frames" ->
           anchored (fs w) (path_of x) = true ->
           (forall y,
               In y (get_pipeline_exports env name (fs w)) ->
               tag_of y <> "frames" ->
               related (path_of y) (path_of x) = false) ->
           (forall y d,
               In y (get_pipeline_exports env name (fs w)) ->
               get_export_path env name y = Ok d ->
               PurePath.is_prefix (path_of x) d = false) ->
           fs w (path_of x) = Some Dir
           /\ forall q,
               PurePath.is_prefix (path_of x) q = true ->
               fs w' q = fs w q).
Proof.
  intros env name w w' Hdbg H.
  apply export_interview_phases in H.
  destruct H as (rc & w1 & copies & writes & deletes
                 & Hc & T1 & T & P1 & P2 & _ & Hw).
  destruct Hw as [(_ & _ & _ & _ & D)|(qs & -> & _ & _ & _ & N & U & G)].
  { rewrite (D eq_refl) in Hdbg. discriminate Hdbg. }
  split; [exact (G eq_refl)|].
  intros x Hx Ht Ha Hsrc Hdst.
  destruct (frames_export env name (fs w) x Hx Ht) as (Hk & He).
  assert (HP : fs w (path_of x) = Some Dir).
  { pose proof (copy_assets_spec env name _ _ _ _ _ Hc) as S.
    destruct S as (_ & _ & K & tr & _ & _ & recs & _ & _ & _ & Rd & _).
    destruct (Rd Hdbg) as (_ & Re).
    destruct (Re x Hx) as (_ & Hd). specialize (Hd Hk).
    destruct (fs w (path_of x)) as [[c|]|] eqn:E.
    - destruct (proj1 (K (path_of x)) c E) as (c' & Hc').
      rewrite Hc' in Hd. discriminate Hd.
    - reflexivity.
    - now contradiction He. }
  split; [assumption|].
  intros q Hq. rewrite U.
  - apply (copy_assets_below env name (path_of x) _ _ _ _ _ Hc Hdst);
      try assumption.
    intros y Hy Hf.
    destruct (exports_file_source env name (fs w) y Hy Hf) as (v & ->).
    apply name_of_str.
  - intros y Hy Hty.
    exact (unrelated_not_above _ _ q (Hsrc y Hy Hty) Hq).
Qed.

Lemma frames_kept_other_sources_removed_witness :
  fs (snd (export_interview (Demo.env false "") Demo.xx1 Demo.world0))
     (PurePath.of_str Demo.stream_1) = None
  /\ fs Demo.world0 (PurePath.of_str Demo.frames) = Some Dir
  /\ fs (snd (export_interview (Demo.env false "") Demo.xx1 Demo.world0))
        (PurePath.of_str Demo.frames) = Some Dir
  /\ fs (snd (export_interview (Demo.env false "") Demo.xx1 Demo.world0))
        (PurePath.of_str Demo.frames // "0001.png") = Some (File "png").
Proof.
  assert (Hrun : export_interview (Demo.env false "") Demo.xx1 Demo.world0
                 = (Ok tt,
                    snd (export_interview (Demo.env false "") Demo.xx1
                           Demo.world0))).
  { pose proof (surjective_pairing
                  (export_interview (Demo.env false "") Demo.xx1 Demo.world0))
      as Hp.
    assert (Hf : fst (export_interview (Demo.env false "") Demo.xx1
                        Demo.world0) = Ok tt)
      by (vm_compute; reflexivity).
    rewrite Hf in Hp. exact Hp. }
  assert (E : get_pipeline_exports (Demo.env false "") Demo.xx1
                (fs Demo.world0)
              = [ (PurePath.of_str Demo.stream_1, "file", "PROTECTED", "streams");
                  (PurePath.of_str Demo.stream_2, "file", "PROTECTED", "streams");
                  (PurePath.of_str Demo.frames, "directory", "PROTECTED", "frames");
                  (PurePath.of_str Demo.openface, "directory", "PROTECTED", "openface") ])
    by (vm_compute; reflexivity).
  destruct (frames_kept_other_sources_removed
              (Demo.env false "") Demo.xx1 Demo.world0 _ eq_refl Hrun)
    as [H1 H2].
  split.
  { apply (H1 (PurePath.of_str Demo.stream_1, "file", "PROTECTED", "streams")).
    - left. vm_compute. reflexivity.
    - discriminate. }
  assert (Hin : In (PurePath.of_str Demo.frames, "directory", "PROTECTED",
                    "frames")
                   (get_pipeline_exports (Demo.env false "") Demo.xx1
                      (fs Demo.world0))).
  { rewrite E. right; right; left. reflexivity. }
  assert (Ha : anchored (fs Demo.world0) (PurePath.of_str Demo.frames)
               = true)
    by (vm_compute; reflexivity).
  assert (Hsrc : forall y,
             In y (get_pipeline_exports (Demo.env false "") Demo.xx1
                     (fs Demo.world0)) ->
             tag_of y <> "frames" ->
             related (path_of y) (PurePath.of_str Demo.frames) = false).
  { intros y Hy Ht. rewrite E in Hy.
    destruct Hy as [<-|[<-|[<-|[<-|[]]]]];
      [ vm_compute; reflexivity | vm_compute; reflexivity
      | now contradiction Ht | vm_compute; reflexivity ]. }
  assert (Hdst : forall y d,
             In y (get_pipeline_exports (Demo.env false "") Demo.xx1
                     (fs Demo.world0)) ->
             get_export_path (Demo.env false "") Demo.xx1 y = Ok d ->
             PurePath.is_prefix (PurePath.of_str Demo.frames) d = false).
  { intros y d Hy Hd. rewrite E in Hy.
    destruct Hy as [<-|[<-|[<-|[<-|[]]]]];
      vm_compute in Hd; injection Hd as <-; vm_compute; reflexivity. }
  destruct (H2 _ Hin eq_refl Ha Hsrc Hdst) as [Hbefore Hbelow].
  split; [exact Hbefore|]. split.
  - rewrite (Hbelow (PurePath.of_str Demo.frames));
      [exact Hbefore | vm_compute; reflexivity].
  - rewrite (Hbelow (PurePath.of_str Demo.frames // "0001.png"));
      vm_compute; reflexivity.
Defined.

(** C7 as it is stated fails: when the OpenFace directory of the interview
    holds the decrypted video, its stream and the frame directory, the
    export completes, the asset tagged ["frames"] is among those exported,
    and its source, a directory before, is gone after the clean-up. *)
Lemma frames_removed_counterexample :
  fst (export_interview Nested.env Demo.xx1 Nested.world0) = Ok tt
  /\ get_pipeline_exports Nested.env Demo.xx1 (fs Nested.world0)
     = [ (PurePath.of_str "/data/processed/of_out/decrypted/streams/v_1.mp4",
          "file", "PROTECTED", "streams");
         (Nested.frames, "directory", "PROTECTED", "frames");
         (PurePath.of_str "/data/processed/of_out",
          "directory", "PROTECTED", "openface") ]
  /\ fs Nested.world0 Nested.frames = Some Dir
  /\ fs (snd (export_interview Nested.env Demo.xx1 Nested.world0))
        Nested.frames = None.
Proof.
  split; [vm_compute; reflexivity|]. split; [vm_compute; reflexivity|].
  split; vm_compute; reflexivity.
Qed.
